(** * pkg/sql/create.go: the DDL catalog-mutation core

    A shallow embedding of the statement planner and descriptor builder of
    [pkg/sql/create.go], and the properties of it that the specification
    states.  Go values are modelled as follows:

    - [int], [int32], [uint32] and the id types are [Z]; where the source
      narrows or subtracts in a fixed width the wrap-around is written out;
    - Go strings are [string]; slices are [list]; Go maps used as sets or
      dictionaries are [gset] and [gmap];
    - a function returning [(T, error)] returns [result T]; a [panic] is the
      error [Panic];
    - code of other packages ([sqlbase], [tree], [encoding], the planner's
      collaborators) is taken through the interfaces declared as classes
      below. *)

From Stdlib Require Import ZArith List String Ascii Bool Lia.
From stdpp Require Import base decidable option list strings pretty gmap.
Import ListNotations.

Local Open Scope string_scope.
Local Open Scope Z_scope.
#[local] Disable Notation "_ ++ _" : string_scope.
#[local] Set Warnings "-register-all".

(** ** Errors and the error monad *)

(** Go error values.  [Errorf] keeps the format string of the source and the
    rendered arguments, in order. *)
Inductive error : Type :=
  | Errorf (format : string) (args : list string)
      (* fmt.Errorf, errors.Errorf, errors.New *)
  | PgErrorf (code : string) (format : string) (args : list string)
      (* pgerror.NewErrorf and sqlbase's coded errors *)
  | Unimplemented (issue : option Z) (format : string) (args : list string)
      (* pgerror.Unimplemented, pgerror.UnimplementedWithIssueErrorf *)
  | Wrap (e : error) (format : string) (args : list string)
      (* errors.Wrap, errors.Wrapf *)
  | External (e : string)
      (* an error value produced by another package *)
  | Panic (msg : string).

Inductive result (A : Type) : Type :=
  | Ok (a : A)
  | Err (e : error).
Arguments Ok {A} a.
Arguments Err {A} e.

Definition bind {A B : Type} (r : result A) (k : A -> result B) : result B :=
  match r with
  | Ok a => k a
  | Err e => Err e
  end.

Notation "x <- r ;; k" := (bind r (fun x => k))
  (at level 100, r at next level, right associativity, only parsing).

(** [if err := f(); err != nil { return err }] for an [f] that returns only
    an error. *)
Definition check (e : option error) : result unit :=
  match e with
  | Some err => Err err
  | None => Ok tt
  end.

(** ** Strings *)

(** The double quote character, for the messages that quote names. *)
Definition dquote : string := String "034"%char EmptyString.

Definition eqs (a b : string) : bool := bool_decide (a = b).

(** One step of Go's [strings.EqualFold]: the runes are equal, or the smaller
    is an ASCII capital and the larger its lower-case letter.  The general
    Unicode case ([unicode.SimpleFold], reached when the larger rune is not
    ASCII) is answered [false]: a non-ASCII rune is fold-equal to an ASCII
    one only for the Kelvin sign (k) and the long s (s). *)
Definition equalFoldRune (a b : ascii) : bool :=
  let x := Z.of_nat (nat_of_ascii a) in
  let y := Z.of_nat (nat_of_ascii b) in
  let sr := Z.min x y in
  let tr := Z.max x y in
  if (tr =? sr)%Z then true
  else if (tr <? 128)%Z
       then (65 <=? sr)%Z && (sr <=? 90)%Z && (tr =? sr + 32)%Z
       else false.

(** [strings.EqualFold s t], on byte strings.  It is Go's function whenever
    one of the two strings is ASCII and has none of the letters k, K, s, S,
    which is the case at each call in this file ("template0", "UTF8",
    "UTF-8", "UNICODE"). *)
Fixpoint EqualFold (s t : string) : bool :=
  match s, t with
  | EmptyString, EmptyString => true
  | String a s', String b t' => equalFoldRune a b && EqualFold s' t'
  | _, _ => false
  end.

(** [err.Error()] for the errors whose format uses only [%s]: each [%s] is
    replaced by the next argument. *)
Fixpoint Sprintf (format : string) (args : list string) : string :=
  match format with
  | String "%" (String "s" rest) =>
      match args with
      | a :: args' => a +:+ Sprintf rest args'
      | [] => "%!s(MISSING)" +:+ Sprintf rest []
      end
  | String c rest => String c (Sprintf rest args)
  | EmptyString => EmptyString
  end.

Fixpoint Error (e : error) : string :=
  match e with
  | Errorf f a | PgErrorf _ f a | Unimplemented _ f a => Sprintf f a
  | Wrap e' f a => Sprintf f a +:+ ": " +:+ Error e'
  | External m | Panic m => m
  end.


(** ** tree: the statement AST *)

Module tree.

Definition Name : Type := string.
Definition NameList : Type := list Name.

(** [tree.TableName], a normalized table name. *)
Record TableName : Type := {
  DatabaseName : Name;
  Table : Name
}.

(** [tree.NormalizableTableName]: [TableNameReference] is [nil] in the zero
    value, which is what [ColumnTableDef.HasFKConstraint] tests. *)
Record NormalizableTableName : Type := {
  TableNameReference : option TableName
}.

Inductive ReferenceAction : Type :=
  | NoAction | Restrict | SetNull | SetDefault | Cascade.

Record ReferenceActions : Type := {
  Delete : ReferenceAction;
  Update : ReferenceAction
}.

(** Variable names as the parser leaves them ([tree.VarName]): a name still
    to be normalized. *)
Record UnresolvedName : Type := {
  NameParts : list string
}.

(** [tree.ColumnItem], and the other outcomes of [NormalizeVarName]. *)
Inductive NormalizedVarName : Type :=
  | ColumnItem (TableName : option Name) (ColumnName : Name)
  | OtherVarName.

(** [types.T], the datum types. *)
Definition T : Type := string.

(** Expressions.  [Node] stands for every expression form that the code of
    create.go does not look at (comparisons, operators, function calls,
    constants): it has a label and the children that [Walk] visits, in
    order. *)
Inductive Expr : Type :=
  | ParenExpr (e : Expr)
  | Tuple (Exprs : list Expr)
  | DefaultVal
  | MaxVal
  | Placeholder (name : string)
  | VarName (v : UnresolvedName)
  | Node (label : string) (children : list Expr)
  | dummyColumnItem (typ : T).

Inductive DropBehavior : Type :=
  | DropDefault | DropRestrict | DropCascade.

Record InterleaveDef : Type := {
  Parent : NormalizableTableName;
  Fields : NameList;
  idef_DropBehavior : DropBehavior
}.

Inductive PartitionByType : Type :=
  | PartitionByList | PartitionByRange.

(** [tree.PartitionBy], [tree.ListPartition], [tree.RangePartition]. *)
Inductive PartitionBy : Type :=
  | Build_PartitionBy (Fields : NameList)
      (List : list ListPartition) (Range : list RangePartition)
with ListPartition : Type :=
  | Build_ListPartition (Name : Name) (Exprs : list Expr)
      (Subpartition : option PartitionBy)
with RangePartition : Type :=
  | Build_RangePartition (Name : Name) (Expr : Expr)
      (Subpartition : option PartitionBy).

Inductive Direction : Type :=
  | DefaultDirection | Ascending | Descending.

Record IndexElem : Type := {
  Column : Name;
  ie_Direction : Direction
}.

(** The column types of the parser ([coltypes.T]). *)
Definition ColType : Type := string.

Record ColumnCheckConstraint : Type := {
  cc_Expr : Expr;
  cc_ConstraintName : Name
}.

(** [ColumnTableDef.References] *)
Record ColumnReferences : Type := {
  ref_Table : NormalizableTableName;
  ref_Col : Name;
  ref_ConstraintName : Name;
  ref_Actions : ReferenceActions
}.

Record ColumnFamily : Type := {
  fam_Name : Name;
  fam_Create : bool;
  fam_IfNotExists : bool
}.

Record ColumnTableDef : Type := {
  col_Name : Name;
  col_Type : ColType;
  col_Nullable : bool;
  col_PrimaryKey : bool;
  col_Unique : bool;
  col_DefaultExpr : option Expr;
  col_CheckExprs : list ColumnCheckConstraint;
  col_References : ColumnReferences;
  col_Family : ColumnFamily
}.

Record IndexTableDef : Type := {
  idx_Name : Name;
  idx_Columns : list IndexElem;
  idx_Storing : NameList;
  idx_Interleave : option InterleaveDef;
  idx_PartitionBy : option PartitionBy
}.

Record UniqueConstraintTableDef : Type := {
  uniq_IndexTableDef : IndexTableDef;
  uniq_PrimaryKey : bool
}.

Record CheckConstraintTableDef : Type := {
  ck_Name : Name;
  ck_Expr : Expr
}.

Record ForeignKeyConstraintTableDef : Type := {
  fk_Name : Name;
  fk_Table : NormalizableTableName;
  fk_FromCols : NameList;
  fk_ToCols : NameList;
  fk_Actions : ReferenceActions
}.

Record FamilyTableDef : Type := {
  famdef_Name : Name;
  famdef_Columns : NameList
}.

(** [tree.TableDef]: the definitions of a CREATE TABLE, one constructor for
    each type that implements the interface. *)
Inductive TableDef : Type :=
  | ColumnDef (d : ColumnTableDef)
  | IndexDef (d : IndexTableDef)
  | UniqueConstraintDef (d : UniqueConstraintTableDef)
  | CheckConstraintDef (d : CheckConstraintTableDef)
  | ForeignKeyConstraintDef (d : ForeignKeyConstraintTableDef)
  | FamilyDef (d : FamilyTableDef).

Definition TableDefs : Type := list TableDef.

Record CreateTable : Type := {
  ct_IfNotExists : bool;
  ct_Table : NormalizableTableName;
  ct_Interleave : option InterleaveDef;
  ct_PartitionBy : option PartitionBy;
  ct_Defs : TableDefs;
  ct_AsSource : option string;
  ct_AsColumnNames : NameList
}.

Record CreateIndex : Type := {
  ci_Name : Name;
  ci_Table : NormalizableTableName;
  ci_Unique : bool;
  ci_IfNotExists : bool;
  ci_Columns : list IndexElem;
  ci_Storing : NameList;
  ci_Interleave : option InterleaveDef;
  ci_PartitionBy : option PartitionBy
}.

Record CreateDatabase : Type := {
  cd_IfNotExists : bool;
  cd_Name : Name;
  cd_Template : string;
  cd_Encoding : string;
  cd_Collate : string;
  cd_CType : string
}.

(** Modelled from the spec: [tree.StripParens] ("after stripping parens"),
    which removes every enclosing [ParenExpr]. *)
Fixpoint StripParens (expr : Expr) : Expr :=
  match expr with
  | ParenExpr e => StripParens e
  | _ => expr
  end.

(** Modelled from the spec: [ColumnTableDef.HasFKConstraint], true when the
    inline [References.Table] of the column is set. *)
Definition HasFKConstraint (node : ColumnTableDef) : bool :=
  match TableNameReference (ref_Table (col_References node)) with
  | Some _ => true
  | None => false
  end.

(** Field updates of [ColumnTableDef]. *)
Definition col_with_CheckExprs (v : list ColumnCheckConstraint)
  (c : ColumnTableDef) : ColumnTableDef :=
  {| col_Name := col_Name c; col_Type := col_Type c;
     col_Nullable := col_Nullable c; col_PrimaryKey := col_PrimaryKey c;
     col_Unique := col_Unique c; col_DefaultExpr := col_DefaultExpr c;
     col_CheckExprs := v; col_References := col_References c;
     col_Family := col_Family c |}.

Definition col_with_References_Table (v : NormalizableTableName)
  (c : ColumnTableDef) : ColumnTableDef :=
  {| col_Name := col_Name c; col_Type := col_Type c;
     col_Nullable := col_Nullable c; col_PrimaryKey := col_PrimaryKey c;
     col_Unique := col_Unique c; col_DefaultExpr := col_DefaultExpr c;
     col_CheckExprs := col_CheckExprs c;
     col_References :=
       {| ref_Table := v; ref_Col := ref_Col (col_References c);
          ref_ConstraintName := ref_ConstraintName (col_References c);
          ref_Actions := ref_Actions (col_References c) |};
     col_Family := col_Family c |}.

Definition ct_with_Defs (v : TableDefs) (n : CreateTable) : CreateTable :=
  {| ct_IfNotExists := ct_IfNotExists n; ct_Table := ct_Table n;
     ct_Interleave := ct_Interleave n; ct_PartitionBy := ct_PartitionBy n;
     ct_Defs := v; ct_AsSource := ct_AsSource n;
     ct_AsColumnNames := ct_AsColumnNames n |}.

(** Modelled from the spec: [ColumnTableDef.HasColumnFamily], true when the
    column names a family or asks for one to be created. *)
Definition HasColumnFamily (node : ColumnTableDef) : bool :=
  negb (eqs (fam_Name (col_Family node)) "") || fam_Create (col_Family node).

(** Modelled from the spec: [NormalizableTableName.TableName], the accessor
    of the normalized name; its type assertion panics on a name that holds
    no [*TableName]. *)
Definition TableName_of (nt : NormalizableTableName) : result TableName :=
  match TableNameReference nt with
  | Some tn => Ok tn
  | None => Err (Panic "interface conversion: TableNameReference is nil")
  end.

End tree.

(** ** sqlbase: the descriptors *)

Module sqlbase.

Definition ID : Type := Z.
Definition ColumnID : Type := Z.
Definition IndexID : Type := Z.
Definition FamilyID : Type := Z.
Definition MutationID : Type := Z.
Definition bytes : Type := list Byte.byte.

Definition InvalidMutationID : MutationID := 0.

Inductive ConstraintValidity : Type :=
  | ConstraintValidity_Validated
  | ConstraintValidity_Unvalidated.

Inductive TableDescriptor_State : Type :=
  | TableDescriptor_PUBLIC
  | TableDescriptor_ADD
  | TableDescriptor_DROP.

Inductive IndexDescriptor_Direction : Type :=
  | IndexDescriptor_ASC
  | IndexDescriptor_DESC.

Inductive DescriptorMutation_Direction : Type :=
  | DescriptorMutation_NONE
  | DescriptorMutation_ADD
  | DescriptorMutation_DROP.

(** [ForeignKeyReference_Action] *)
Inductive ForeignKeyReference_Action : Type :=
  | ForeignKeyReference_NO_ACTION
  | ForeignKeyReference_RESTRICT
  | ForeignKeyReference_SET_DEFAULT
  | ForeignKeyReference_SET_NULL
  | ForeignKeyReference_CASCADE.

Record ColumnType : Type := {
  SemanticType : Z;
  Width : Z;
  Precision : Z
}.

Record ColumnDescriptor : Type := {
  col_Name : string;
  col_ID : ColumnID;
  col_Type : ColumnType;
  col_Nullable : bool
}.

Record ColumnFamilyDescriptor : Type := {
  fam_Name : string;
  fam_ID : FamilyID;
  fam_ColumnNames : list string
}.

Record ForeignKeyReference : Type := {
  fk_Table : ID;
  fk_Index : IndexID;
  fk_Name : string;
  fk_Validity : ConstraintValidity;
  fk_SharedPrefixLen : Z;
  fk_OnDelete : ForeignKeyReference_Action;
  fk_OnUpdate : ForeignKeyReference_Action
}.

Record InterleaveDescriptor_Ancestor : Type := {
  anc_TableID : ID;
  anc_IndexID : IndexID;
  anc_SharedPrefixLen : Z
}.

Record InterleaveDescriptor : Type := {
  Ancestors : list InterleaveDescriptor_Ancestor
}.

Record PartitioningDescriptor_Range : Type := {
  range_Name : string;
  range_UpperBound : bytes
}.

Inductive PartitioningDescriptor : Type :=
  | Build_PartitioningDescriptor (NumColumns : Z)
      (List : list PartitioningDescriptor_List)
      (Range : list PartitioningDescriptor_Range)
with PartitioningDescriptor_List : Type :=
  | Build_PartitioningDescriptor_List (Name : string) (Values : list bytes)
      (Subpartitioning : PartitioningDescriptor).

Record IndexDescriptor : Type := {
  idx_Name : string;
  idx_ID : IndexID;
  idx_Unique : bool;
  idx_ColumnNames : list string;
  idx_ColumnDirections : list IndexDescriptor_Direction;
  idx_StoreColumnNames : list string;
  idx_ColumnIDs : list ColumnID;
  idx_ForeignKey : ForeignKeyReference;
  idx_ReferencedBy : list ForeignKeyReference;
  idx_Interleave : InterleaveDescriptor;
  idx_InterleavedBy : list ForeignKeyReference;
  idx_Partitioning : PartitioningDescriptor
}.

Record TableDescriptor_CheckConstraint : Type := {
  ck_Expr : string;
  ck_Name : string
}.

(** A [DescriptorMutation] that carries an index. *)
Record DescriptorMutation : Type := {
  mut_Index : IndexDescriptor;
  mut_Direction : DescriptorMutation_Direction;
  mut_MutationID : MutationID
}.

Record TableDescriptor : Type := {
  Name : string;
  ID_ : ID;
  ParentID : ID;
  Version : Z;
  FormatVersion : Z;
  ModificationTime : Z;
  Privileges : string;
  State : TableDescriptor_State;
  Columns : list ColumnDescriptor;
  Families : list ColumnFamilyDescriptor;
  PrimaryIndex : IndexDescriptor;
  Indexes : list IndexDescriptor;
  Mutations : list DescriptorMutation;
  Checks : list TableDescriptor_CheckConstraint;
  NextColumnID : ColumnID;
  NextIndexID : IndexID;
  NextMutationID : MutationID
}.

(** The zero values of the structs. *)
Definition ForeignKeyReference_zero : ForeignKeyReference :=
  {| fk_Table := 0; fk_Index := 0; fk_Name := "";
     fk_Validity := ConstraintValidity_Validated; fk_SharedPrefixLen := 0;
     fk_OnDelete := ForeignKeyReference_NO_ACTION;
     fk_OnUpdate := ForeignKeyReference_NO_ACTION |}.

Definition PartitioningDescriptor_zero : PartitioningDescriptor :=
  Build_PartitioningDescriptor 0 [] [].

Definition IndexDescriptor_zero : IndexDescriptor :=
  {| idx_Name := ""; idx_ID := 0; idx_Unique := false;
     idx_ColumnNames := []; idx_ColumnDirections := [];
     idx_StoreColumnNames := []; idx_ColumnIDs := [];
     idx_ForeignKey := ForeignKeyReference_zero; idx_ReferencedBy := [];
     idx_Interleave := {| Ancestors := [] |}; idx_InterleavedBy := [];
     idx_Partitioning := PartitioningDescriptor_zero |}.

(** Field updates ([x.F = v] on a struct value). *)
Definition fk_with_Validity (v : ConstraintValidity) (f : ForeignKeyReference)
  : ForeignKeyReference :=
  {| fk_Table := fk_Table f; fk_Index := fk_Index f; fk_Name := fk_Name f;
     fk_Validity := v; fk_SharedPrefixLen := fk_SharedPrefixLen f;
     fk_OnDelete := fk_OnDelete f; fk_OnUpdate := fk_OnUpdate f |}.

Definition fk_with_Index (i : IndexID) (f : ForeignKeyReference)
  : ForeignKeyReference :=
  {| fk_Table := fk_Table f; fk_Index := i; fk_Name := fk_Name f;
     fk_Validity := fk_Validity f; fk_SharedPrefixLen := fk_SharedPrefixLen f;
     fk_OnDelete := fk_OnDelete f; fk_OnUpdate := fk_OnUpdate f |}.

Definition idx_with_ForeignKey (v : ForeignKeyReference) (i : IndexDescriptor)
  : IndexDescriptor :=
  {| idx_Name := idx_Name i; idx_ID := idx_ID i; idx_Unique := idx_Unique i;
     idx_ColumnNames := idx_ColumnNames i;
     idx_ColumnDirections := idx_ColumnDirections i;
     idx_StoreColumnNames := idx_StoreColumnNames i;
     idx_ColumnIDs := idx_ColumnIDs i; idx_ForeignKey := v;
     idx_ReferencedBy := idx_ReferencedBy i;
     idx_Interleave := idx_Interleave i;
     idx_InterleavedBy := idx_InterleavedBy i;
     idx_Partitioning := idx_Partitioning i |}.

Definition idx_with_ReferencedBy (v : list ForeignKeyReference)
  (i : IndexDescriptor) : IndexDescriptor :=
  {| idx_Name := idx_Name i; idx_ID := idx_ID i; idx_Unique := idx_Unique i;
     idx_ColumnNames := idx_ColumnNames i;
     idx_ColumnDirections := idx_ColumnDirections i;
     idx_StoreColumnNames := idx_StoreColumnNames i;
     idx_ColumnIDs := idx_ColumnIDs i; idx_ForeignKey := idx_ForeignKey i;
     idx_ReferencedBy := v;
     idx_Interleave := idx_Interleave i;
     idx_InterleavedBy := idx_InterleavedBy i;
     idx_Partitioning := idx_Partitioning i |}.

Definition idx_with_Interleave (v : InterleaveDescriptor)
  (i : IndexDescriptor) : IndexDescriptor :=
  {| idx_Name := idx_Name i; idx_ID := idx_ID i; idx_Unique := idx_Unique i;
     idx_ColumnNames := idx_ColumnNames i;
     idx_ColumnDirections := idx_ColumnDirections i;
     idx_StoreColumnNames := idx_StoreColumnNames i;
     idx_ColumnIDs := idx_ColumnIDs i; idx_ForeignKey := idx_ForeignKey i;
     idx_ReferencedBy := idx_ReferencedBy i;
     idx_Interleave := v;
     idx_InterleavedBy := idx_InterleavedBy i;
     idx_Partitioning := idx_Partitioning i |}.

Definition idx_with_Partitioning (v : PartitioningDescriptor)
  (i : IndexDescriptor) : IndexDescriptor :=
  {| idx_Name := idx_Name i; idx_ID := idx_ID i; idx_Unique := idx_Unique i;
     idx_ColumnNames := idx_ColumnNames i;
     idx_ColumnDirections := idx_ColumnDirections i;
     idx_StoreColumnNames := idx_StoreColumnNames i;
     idx_ColumnIDs := idx_ColumnIDs i; idx_ForeignKey := idx_ForeignKey i;
     idx_ReferencedBy := idx_ReferencedBy i;
     idx_Interleave := idx_Interleave i;
     idx_InterleavedBy := idx_InterleavedBy i;
     idx_Partitioning := v |}.

Definition idx_with_InterleavedBy (v : list ForeignKeyReference)
  (i : IndexDescriptor) : IndexDescriptor :=
  {| idx_Name := idx_Name i; idx_ID := idx_ID i; idx_Unique := idx_Unique i;
     idx_ColumnNames := idx_ColumnNames i;
     idx_ColumnDirections := idx_ColumnDirections i;
     idx_StoreColumnNames := idx_StoreColumnNames i;
     idx_ColumnIDs := idx_ColumnIDs i; idx_ForeignKey := idx_ForeignKey i;
     idx_ReferencedBy := idx_ReferencedBy i;
     idx_Interleave := idx_Interleave i;
     idx_InterleavedBy := v;
     idx_Partitioning := idx_Partitioning i |}.

Definition idx_with_Unique (v : bool) (i : IndexDescriptor)
  : IndexDescriptor :=
  {| idx_Name := idx_Name i; idx_ID := idx_ID i; idx_Unique := v;
     idx_ColumnNames := idx_ColumnNames i;
     idx_ColumnDirections := idx_ColumnDirections i;
     idx_StoreColumnNames := idx_StoreColumnNames i;
     idx_ColumnIDs := idx_ColumnIDs i; idx_ForeignKey := idx_ForeignKey i;
     idx_ReferencedBy := idx_ReferencedBy i;
     idx_Interleave := idx_Interleave i;
     idx_InterleavedBy := idx_InterleavedBy i;
     idx_Partitioning := idx_Partitioning i |}.

Definition col_with_Nullable (v : bool) (c : ColumnDescriptor)
  : ColumnDescriptor :=
  {| col_Name := col_Name c; col_ID := col_ID c; col_Type := col_Type c;
     col_Nullable := v |}.

Definition with_State (v : TableDescriptor_State) (t : TableDescriptor)
  : TableDescriptor :=
  {| Name := Name t; ID_ := ID_ t; ParentID := ParentID t;
     Version := Version t; FormatVersion := FormatVersion t;
     ModificationTime := ModificationTime t; Privileges := Privileges t;
     State := v; Columns := Columns t; Families := Families t;
     PrimaryIndex := PrimaryIndex t; Indexes := Indexes t;
     Mutations := Mutations t; Checks := Checks t;
     NextColumnID := NextColumnID t; NextIndexID := NextIndexID t;
     NextMutationID := NextMutationID t |}.

Definition with_Columns (v : list ColumnDescriptor) (t : TableDescriptor)
  : TableDescriptor :=
  {| Name := Name t; ID_ := ID_ t; ParentID := ParentID t;
     Version := Version t; FormatVersion := FormatVersion t;
     ModificationTime := ModificationTime t; Privileges := Privileges t;
     State := State t; Columns := v; Families := Families t;
     PrimaryIndex := PrimaryIndex t; Indexes := Indexes t;
     Mutations := Mutations t; Checks := Checks t;
     NextColumnID := NextColumnID t; NextIndexID := NextIndexID t;
     NextMutationID := NextMutationID t |}.

Definition with_PrimaryIndex (v : IndexDescriptor) (t : TableDescriptor)
  : TableDescriptor :=
  {| Name := Name t; ID_ := ID_ t; ParentID := ParentID t;
     Version := Version t; FormatVersion := FormatVersion t;
     ModificationTime := ModificationTime t; Privileges := Privileges t;
     State := State t; Columns := Columns t; Families := Families t;
     PrimaryIndex := v; Indexes := Indexes t;
     Mutations := Mutations t; Checks := Checks t;
     NextColumnID := NextColumnID t; NextIndexID := NextIndexID t;
     NextMutationID := NextMutationID t |}.

Definition with_Indexes (v : list IndexDescriptor) (t : TableDescriptor)
  : TableDescriptor :=
  {| Name := Name t; ID_ := ID_ t; ParentID := ParentID t;
     Version := Version t; FormatVersion := FormatVersion t;
     ModificationTime := ModificationTime t; Privileges := Privileges t;
     State := State t; Columns := Columns t; Families := Families t;
     PrimaryIndex := PrimaryIndex t; Indexes := v;
     Mutations := Mutations t; Checks := Checks t;
     NextColumnID := NextColumnID t; NextIndexID := NextIndexID t;
     NextMutationID := NextMutationID t |}.

Definition with_Mutations (v : list DescriptorMutation)
  (t : TableDescriptor) : TableDescriptor :=
  {| Name := Name t; ID_ := ID_ t; ParentID := ParentID t;
     Version := Version t; FormatVersion := FormatVersion t;
     ModificationTime := ModificationTime t; Privileges := Privileges t;
     State := State t; Columns := Columns t; Families := Families t;
     PrimaryIndex := PrimaryIndex t; Indexes := Indexes t;
     Mutations := v; Checks := Checks t;
     NextColumnID := NextColumnID t; NextIndexID := NextIndexID t;
     NextMutationID := NextMutationID t |}.

Definition mut_with_Index (v : IndexDescriptor) (m : DescriptorMutation)
  : DescriptorMutation :=
  {| mut_Index := v; mut_Direction := mut_Direction m;
     mut_MutationID := mut_MutationID m |}.

Definition with_Checks (v : list TableDescriptor_CheckConstraint)
  (t : TableDescriptor) : TableDescriptor :=
  {| Name := Name t; ID_ := ID_ t; ParentID := ParentID t;
     Version := Version t; FormatVersion := FormatVersion t;
     ModificationTime := ModificationTime t; Privileges := Privileges t;
     State := State t; Columns := Columns t; Families := Families t;
     PrimaryIndex := PrimaryIndex t; Indexes := Indexes t;
     Mutations := Mutations t; Checks := v;
     NextColumnID := NextColumnID t; NextIndexID := NextIndexID t;
     NextMutationID := NextMutationID t |}.

End sqlbase.

(** ** The interfaces of the collaborators

    create.go calls into packages that are not part of it.  Their operations
    are the fields of the classes below; the functions of create.go are
    defined for any implementation of them.  A method with a pointer receiver
    that mutates its receiver takes the value and returns the new one; the
    contexts and the transaction ([ctx], [txn], [vt], [semaCtx], [evalCtx])
    belong to the implementation. *)

(** Package [tree] and the expression evaluator. *)
Class TreeOps : Type := {
  Datum : Type;
  TypedExpr : Type;
  (* tree.TypeCheck(expr, nil, desired) *)
  TypeCheck : tree.Expr -> tree.T -> result TypedExpr;
  (* typedExpr.Eval(evalCtx) *)
  Eval : TypedExpr -> result Datum;
  (* datum.ResolvedType() *)
  ResolvedType : Datum -> tree.T;
  (* expr.String(), typedExpr.String() *)
  Expr_String : tree.Expr -> string;
  TypedExpr_String : TypedExpr -> string;
  (* tree.Serialize(expr) *)
  Serialize : tree.Expr -> string;
  (* vBase.NormalizeVarName() *)
  NormalizeVarName : tree.UnresolvedName -> result tree.NormalizedVarName;
  (* tree.Name.Normalize() *)
  Name_Normalize : tree.Name -> string;
  (* TableName.String(), ReferenceAction.String() *)
  TableName_String : tree.TableName -> string;
  ReferenceAction_String : tree.ReferenceAction -> string;
  (* DropBehavior.String() *)
  DropBehavior_String : tree.DropBehavior -> string;
  (* NormalizableTableName.Normalize(), .NormalizeWithDatabaseName(db) *)
  Normalize : tree.NormalizableTableName -> result tree.TableName;
  NormalizeWithDatabaseName :
    tree.NormalizableTableName -> string -> result tree.TableName;
  (* transform.ExprTransformContext.AssertNoAggregationOrWindowing *)
  AssertNoAggregationOrWindowing : tree.Expr -> string -> option error
}.

(** Package [encoding]. *)
Class EncodingOps : Type := {
  NoColumnID : Z;
  (* encoding.EncodeNotNullValue(appendTo, colID) *)
  EncodeNotNullValue : sqlbase.bytes -> Z -> sqlbase.bytes
}.

(** Package [sqlbase]. *)
Class SqlbaseOps {treeOps : TreeOps} : Type := {
  FindActiveColumnByName :
    sqlbase.TableDescriptor -> string -> result sqlbase.ColumnDescriptor;
  FindActiveColumnsByNames :
    sqlbase.TableDescriptor -> tree.NameList ->
    result (list sqlbase.ColumnDescriptor);
  FindColumnByID :
    sqlbase.TableDescriptor -> sqlbase.ColumnID ->
    result sqlbase.ColumnDescriptor;
  (* (index, dropped, err) *)
  FindIndexByName :
    sqlbase.TableDescriptor -> string ->
    result (sqlbase.IndexDescriptor * bool);
  (* ForeignKeyReference.IsSet() *)
  IsSet : sqlbase.ForeignKeyReference -> bool;
  (* ColumnType.Equal(other), ColumnType.ToDatumType() *)
  (* the constant sqlbase.InterleavedFormatVersion *)
  InterleavedFormatVersion : Z;
  ColumnType_Equal : sqlbase.ColumnType -> sqlbase.ColumnType -> bool;
  ToDatumType : sqlbase.ColumnType -> tree.T;
  (* ColumnType_SemanticType.String() *)
  SemanticType_String : Z -> string;
  ForeignKeyReferenceActionValue :
    tree.ReferenceAction -> sqlbase.ForeignKeyReference_Action;
  IsVirtualTable : sqlbase.TableDescriptor -> bool;
  AddColumn :
    sqlbase.TableDescriptor -> sqlbase.ColumnDescriptor ->
    sqlbase.TableDescriptor;
  AddFamily :
    sqlbase.TableDescriptor -> sqlbase.ColumnFamilyDescriptor ->
    sqlbase.TableDescriptor;
  (* desc.AddIndex(idx, primary) *)
  AddIndex :
    sqlbase.TableDescriptor -> sqlbase.IndexDescriptor -> bool ->
    result sqlbase.TableDescriptor;
  AddIndexMutation :
    sqlbase.TableDescriptor -> sqlbase.IndexDescriptor ->
    sqlbase.DescriptorMutation_Direction -> result sqlbase.TableDescriptor;
  (* desc.AddColumnToFamilyMaybeCreate(col, family, create, ifNotExists) *)
  AddColumnToFamilyMaybeCreate :
    sqlbase.TableDescriptor -> string -> string -> bool -> bool ->
    result sqlbase.TableDescriptor;
  AllocateIDs : sqlbase.TableDescriptor -> result sqlbase.TableDescriptor;
  ValidateTable : sqlbase.TableDescriptor -> option error;
  (* desc.FindIndexByID(id), and the assignment through the pointer that it
     returns *)
  UpdateIndexByID :
    sqlbase.TableDescriptor -> sqlbase.IndexID ->
    (sqlbase.IndexDescriptor -> sqlbase.IndexDescriptor) ->
    result sqlbase.TableDescriptor;
  SetUpVersion : sqlbase.TableDescriptor -> result sqlbase.TableDescriptor;
  (* idx.FillColumns(elems) *)
  FillColumns :
    sqlbase.IndexDescriptor -> list tree.IndexElem ->
    result sqlbase.IndexDescriptor;
  (* sqlbase.MakeColumnDefDescs(d, semaCtx, evalCtx) *)
  MakeColumnDefDescs :
    tree.ColumnTableDef ->
    result (sqlbase.ColumnDescriptor * option sqlbase.IndexDescriptor);
  (* coltypes.TVector type test *)
  IsTVector : tree.ColType -> bool;
  (* sqlbase.CheckColumnType(col, typ, nil) *)
  CheckColumnType : sqlbase.ColumnDescriptor -> tree.T -> option error;
  (* sqlbase.EncodeTableValue(appendTo, colID, datum, scratch) *)
  EncodeTableValue :
    sqlbase.bytes -> sqlbase.ColumnID -> Datum -> result sqlbase.bytes;
  (* sqlbase.SanitizeVarFreeExpr(expr, types.Bool, "CHECK", semaCtx, evalCtx),
     of which only the error is used *)
  SanitizeVarFreeExpr : tree.Expr -> tree.T -> string -> option error
}.

(** The catalog as the transaction sees it. *)
Class Catalog : Type := {
  (* getTableDesc(ctx, txn, vt, name): nil when there is no such table *)
  getTableDesc : tree.TableName -> result (option sqlbase.TableDescriptor);
  (* MustGetTableDesc(ctx, txn, vt, name, allowAdding) *)
  MustGetTableDesc :
    tree.TableName -> bool -> result sqlbase.TableDescriptor
}.

(** ** Planner state *)

Record session : Type := {
  User : string;
  Database : string
}.

(** The effects of a statement on the world outside the descriptors it holds:
    the jobs created, the descriptors written, the event-log records
    inserted, and the notifications sent to the schema changer. *)
Inductive effect : Type :=
  | SchemaChangeJobCreated (tableID : sqlbase.ID) (stmt : string)
      (mutationID : sqlbase.MutationID)
  | TableDescWritten (desc : sqlbase.TableDescriptor)
  | EventRecordInserted (kind : string) (targetID : Z) (info : list string)
  | SchemaChangeNotified (tableID : sqlbase.ID)
      (mutationID : sqlbase.MutationID)
  | StatementExecuted (opName : string) (stmt : string) (username : string)
      (hashedPassword : option sqlbase.bytes).

Record planner : Type := {
  p_session : session;
  p_effects : list effect
}.

Definition emit (e : effect) (p : planner) : planner :=
  {| p_session := p_session p; p_effects := p_effects p ++ [e] |}.

(** The planner's own collaborators. *)
Class PlannerOps : Type := {
  (* p.RequireSuperUser(action) *)
  RequireSuperUser : planner -> string -> option error;
  (* p.createSchemaChangeJob(ctx, desc, stmt): the descriptor with the
     mutation id recorded, the id, and the planner after the job is
     created *)
  createSchemaChangeJob :
    planner -> sqlbase.TableDescriptor -> string ->
    result (sqlbase.TableDescriptor * sqlbase.MutationID * planner);
  (* p.writeTableDesc(ctx, desc) *)
  writeTableDesc : planner -> sqlbase.TableDescriptor -> result planner;
  (* MakeEventLogger(...).InsertEventRecord(ctx, txn, kind, target, reporter, info) *)
  InsertEventRecord :
    planner -> string -> Z -> list string -> result planner;
  (* p.notifySchemaChange(desc, mutationID) *)
  notifySchemaChange :
    planner -> sqlbase.TableDescriptor -> sqlbase.MutationID -> planner;
  (* sqlbase.GetTableDescFromID(ctx, p.txn, id) *)
  GetTableDescFromID : planner -> sqlbase.ID -> result sqlbase.TableDescriptor;
  (* tree.AsStringWithFlags(n, tree.FmtSimpleQualified), n.String() *)
  CreateIndex_AsString : tree.CreateIndex -> string;
  CreateIndex_String : tree.CreateIndex -> string;
  (* InternalExecutor.ExecuteStatementInTransaction(ctx, opName, txn, stmt,
     username, hashedPassword): the row count and the error, both of which
     the callers read *)
  ExecuteStatementInTransaction :
    planner -> string -> string -> string -> option sqlbase.bytes ->
    Z * option error * planner;
  (* sqlbase.IsUniquenessConstraintViolationError(err) *)
  IsUniquenessConstraintViolationError : error -> bool;
  (* the regular expression usernameRE, and membership in
     blacklistedUsernames *)
  usernameRE_MatchString : string -> bool;
  blacklistedUsernames : string -> bool;
  (* security.HashPassword, security.ErrEmptyPassword *)
  HashPassword : string -> result sqlbase.bytes;
  ErrEmptyPassword : error
}.

(** ** Fixed-width integers *)

(** [uint32(x)] *)
Definition to_uint32 (x : Z) : Z := x mod 2 ^ 32.

(** [int32(x)] *)
Definition to_int32 (x : Z) : Z := (x + 2 ^ 31) mod 2 ^ 32 - 2 ^ 31.

(** [len(l)] as an [int] *)
Definition len {A : Type} (l : list A) : Z := Z.of_nat (length l).

(** ** CREATE DATABASE (create.go, lines 42-90) *)

Record createDatabaseNode : Type := {
  cdn_n : tree.CreateDatabase
}.

Definition errEmptyDatabaseName : error := Errorf "empty database name" [].

Section CreateDatabase.
Context {plannerOps : PlannerOps}.

(** [planner.CreateDatabase] *)
Definition CreateDatabase (p : planner) (n : tree.CreateDatabase)
  : result createDatabaseNode :=
  if eqs (tree.cd_Name n) "" then Err errEmptyDatabaseName else
  _ <- (let tmpl := tree.cd_Template n in
        if negb (eqs tmpl "") && negb (EqualFold tmpl "template0")
        then Err (Errorf "unsupported template: %s" [tmpl]) else Ok tt) ;;
  _ <- (let enc := tree.cd_Encoding n in
        if negb (eqs enc "") &&
           negb (EqualFold enc "UTF8" || EqualFold enc "UTF-8" ||
                 EqualFold enc "UNICODE")
        then Err (Errorf "unsupported encoding: %s" [enc]) else Ok tt) ;;
  _ <- (let col := tree.cd_Collate n in
        if negb (eqs col "") &&
           (negb (eqs col "C") && negb (eqs col "C.UTF-8"))
        then Err (Errorf "unsupported collation: %s" [col]) else Ok tt) ;;
  _ <- (let ctype := tree.cd_CType n in
        if negb (eqs ctype "") &&
           (negb (eqs ctype "C") && negb (eqs ctype "C.UTF-8"))
        then Err (Errorf "unsupported character classification: %s" [ctype])
        else Ok tt) ;;
  _ <- check (RequireSuperUser p "CREATE DATABASE") ;;
  Ok {| cdn_n := n |}.

End CreateDatabase.

(** ** Foreign keys (create.go, lines 861-1123) *)

(** [indexMatch]: [matchExact] is [true], [matchPrefix] is [false]. *)
Definition indexMatch : Type := bool.
Definition matchExact : indexMatch := true.
Definition matchPrefix : indexMatch := false.

(** The loop of [matchesIndex]: [cols[i].ID != idx.ColumnIDs[i]] for each
    [i]; the length test before it keeps [i] in range. *)
Fixpoint matchesIndex_loop (cols : list sqlbase.ColumnDescriptor)
  (ids : list sqlbase.ColumnID) : bool :=
  match cols, ids with
  | [], _ => true
  | c :: cols', i :: ids' =>
      if negb (sqlbase.col_ID c =? i) then false
      else matchesIndex_loop cols' ids'
  | _ :: _, [] => false
  end.

Definition matchesIndex (cols : list sqlbase.ColumnDescriptor)
  (idx : sqlbase.IndexDescriptor) (exact : indexMatch) : bool :=
  if (len (sqlbase.idx_ColumnIDs idx) <? len cols) ||
     (exact && negb (len cols =? len (sqlbase.idx_ColumnIDs idx)))
  then false
  else matchesIndex_loop cols (sqlbase.idx_ColumnIDs idx).

(** [colNames] *)
Fixpoint colNames_loop (first : bool) (cols : list sqlbase.ColumnDescriptor)
  : string :=
  match cols with
  | [] => ""
  | c :: cols' =>
      (if first then "" else dquote +:+ ", " +:+ dquote) +:+
      sqlbase.col_Name c +:+ colNames_loop false cols'
  end.

Definition colNames (cols : list sqlbase.ColumnDescriptor) : string :=
  "(" +:+ dquote +:+ colNames_loop true cols +:+ dquote +:+ ")".

(** A [*TableDescriptor] in [resolveFK]: the table being built, or the entry
    of the [backrefs] map for a table id. *)
Inductive tablePtr : Type :=
  | ThisTable
  | BackrefTable (id : sqlbase.ID).

(** A [*IndexDescriptor] into a table: [&t.PrimaryIndex] or
    [&t.Indexes[i]]. *)
Inductive indexPtr : Type :=
  | PrimaryIndexPtr
  | SecondaryIndexPtr (i : nat).

#[global] Instance TableDescriptor_inhabited : Inhabited sqlbase.TableDescriptor :=
  populate
    {| sqlbase.Name := ""; sqlbase.ID_ := 0; sqlbase.ParentID := 0;
       sqlbase.Version := 0; sqlbase.FormatVersion := 0;
       sqlbase.ModificationTime := 0; sqlbase.Privileges := "";
       sqlbase.State := sqlbase.TableDescriptor_PUBLIC;
       sqlbase.Columns := []; sqlbase.Families := [];
       sqlbase.PrimaryIndex := sqlbase.IndexDescriptor_zero;
       sqlbase.Indexes := []; sqlbase.Mutations := [];
       sqlbase.Checks := []; sqlbase.NextColumnID := 0;
       sqlbase.NextIndexID := 0; sqlbase.NextMutationID := 0 |}.

Definition derefTable (tbl : sqlbase.TableDescriptor)
  (backrefs : gmap Z sqlbase.TableDescriptor) (p : tablePtr)
  : sqlbase.TableDescriptor :=
  match p with
  | ThisTable => tbl
  | BackrefTable id => backrefs !!! id
  end.

Definition derefIndex (t : sqlbase.TableDescriptor) (p : indexPtr)
  : option sqlbase.IndexDescriptor :=
  match p with
  | PrimaryIndexPtr => Some (sqlbase.PrimaryIndex t)
  | SecondaryIndexPtr i => sqlbase.Indexes t !! i
  end.

(** An update through an index pointer into [t]. *)
Definition updateIndex (f : sqlbase.IndexDescriptor -> sqlbase.IndexDescriptor)
  (p : indexPtr) (t : sqlbase.TableDescriptor) : sqlbase.TableDescriptor :=
  match p with
  | PrimaryIndexPtr => sqlbase.with_PrimaryIndex (f (sqlbase.PrimaryIndex t)) t
  | SecondaryIndexPtr i =>
      sqlbase.with_Indexes (alter f i (sqlbase.Indexes t)) t
  end.

(** What [resolveFK] has established when it reaches the search for the
    target index (line 989). *)
Record fkColumns : Type := {
  fc_tbl : sqlbase.TableDescriptor;
  fc_backrefs : gmap Z sqlbase.TableDescriptor;
  fc_targetTable : tree.TableName;
  fc_target : tablePtr;
  fc_srcCols : list sqlbase.ColumnDescriptor;
  fc_targetCols : list sqlbase.ColumnDescriptor;
  fc_constraintName : string
}.

(** The outcome of [resolveFK]: the table and the [backrefs] map as it leaves
    them, and the pointers and references it worked with. *)
Record fkResolution : Type := {
  fr_tbl : sqlbase.TableDescriptor;
  fr_backrefs : gmap Z sqlbase.TableDescriptor;
  fr_target : tablePtr;
  fr_targetIdx : indexPtr;
  fr_ref : sqlbase.ForeignKeyReference;
  fr_backref : sqlbase.ForeignKeyReference
}.

(** [pgerror.CodeInvalidForeignKeyError] *)
Definition CodeInvalidForeignKeyError : string := "42830".

Definition errMultipleFK : error :=
  PgErrorf CodeInvalidForeignKeyError
    "columns cannot be used by multiple foreign key constraints" [].

Section ForeignKeys.
Context {treeOps : TreeOps} {sqlbaseOps : SqlbaseOps} {catalog : Catalog}.

(** [resolveFK], lines 913-951: the target table. *)
Definition resolveFK_target (tbl : sqlbase.TableDescriptor)
  (targetTable : tree.TableName)
  (backrefs : gmap Z sqlbase.TableDescriptor)
  (mode : sqlbase.ConstraintValidity)
  : result (sqlbase.TableDescriptor * gmap Z sqlbase.TableDescriptor *
            tablePtr) :=
  target <- getTableDesc targetTable ;;
  match target with
  | None =>
      if eqs (tree.Table targetTable) (sqlbase.Name tbl)
      then Ok (tbl, backrefs, ThisTable)
      else Err (Errorf "referenced table %q not found"
                  [TableName_String targetTable])
  | Some target =>
      tbl <- (match mode with
              | sqlbase.ConstraintValidity_Validated =>
                  SetUpVersion
                    (sqlbase.with_State sqlbase.TableDescriptor_ADD tbl)
              | _ => Ok tbl
              end) ;;
      if sqlbase.ID_ target =? sqlbase.ID_ tbl
      then Ok (tbl, backrefs, ThisTable)
      else
        match backrefs !! sqlbase.ID_ target with
        | Some prev => Ok (tbl, backrefs, BackrefTable (sqlbase.ID_ target))
        | None =>
            Ok (tbl, <[sqlbase.ID_ target := target]> backrefs,
                BackrefTable (sqlbase.ID_ target))
        end
  end.

(** The loop of lines 977-982. *)
Fixpoint resolveFK_types (targetName : string)
  (srcCols targetCols : list sqlbase.ColumnDescriptor) : result unit :=
  match srcCols, targetCols with
  | s :: srcCols', t :: targetCols' =>
      if negb (sqlbase.SemanticType (sqlbase.col_Type s) =?
               sqlbase.SemanticType (sqlbase.col_Type t))
      then Err (Errorf "type of %q (%s) does not match foreign key %q.%q (%s)"
                  [sqlbase.col_Name s;
                   SemanticType_String
                     (sqlbase.SemanticType (sqlbase.col_Type s));
                   targetName; sqlbase.col_Name t;
                   SemanticType_String
                     (sqlbase.SemanticType (sqlbase.col_Type t))])
      else resolveFK_types targetName srcCols' targetCols'
  | [], _ => Ok tt
  | _ :: _, [] => Err (Panic "index out of range")
  end.

(** [resolveFK], lines 913-987: the tables, the columns and the name of the
    constraint. *)
Definition resolveFK_columns (tbl : sqlbase.TableDescriptor)
  (d : tree.ForeignKeyConstraintTableDef)
  (backrefs : gmap Z sqlbase.TableDescriptor)
  (mode : sqlbase.ConstraintValidity) : result fkColumns :=
  targetTable <- tree.TableName_of (tree.fk_Table d) ;;
  r <- resolveFK_target tbl targetTable backrefs mode ;;
  let '(tbl, backrefs, targetPtr) := r in
  let target := derefTable tbl backrefs targetPtr in
  srcCols <- FindActiveColumnsByNames tbl (tree.fk_FromCols d) ;;
  let targetColNames :=
    if len (tree.fk_ToCols d) =? 0
    then sqlbase.idx_ColumnNames (sqlbase.PrimaryIndex target)
    else tree.fk_ToCols d in
  targetCols <- FindActiveColumnsByNames target targetColNames ;;
  if negb (len targetCols =? len srcCols)
  then Err (Errorf
    "%d columns must reference exactly %d columns in referenced table (found %d)"
    [pretty (len srcCols); pretty (len srcCols); pretty (len targetCols)])
  else
  _ <- resolveFK_types (sqlbase.Name target) srcCols targetCols ;;
  constraintName <-
    (if eqs (tree.fk_Name d) ""
     then match tree.fk_FromCols d with
          | c :: _ => Ok ("fk_" +:+ c +:+ "_ref_" +:+ sqlbase.Name target)
          | [] => Err (Panic "index out of range")
          end
     else Ok (tree.fk_Name d)) ;;
  Ok {| fc_tbl := tbl; fc_backrefs := backrefs;
        fc_targetTable := targetTable; fc_target := targetPtr;
        fc_srcCols := srcCols; fc_targetCols := targetCols;
        fc_constraintName := constraintName |}.

(** The loop of lines 995-1001: the first secondary index, in the order of
    [target.Indexes], that is unique and matches exactly; [i] is the position
    of the head of [idxs]. *)
Fixpoint resolveFK_findUnique (targetCols : list sqlbase.ColumnDescriptor)
  (idxs : list sqlbase.IndexDescriptor) (i : nat) : option nat :=
  match idxs with
  | [] => None
  | idx :: idxs' =>
      if sqlbase.idx_Unique idx && matchesIndex targetCols idx matchExact
      then Some i
      else resolveFK_findUnique targetCols idxs' (S i)
  end.

(** [resolveFK], lines 989-1009: the target index. *)
Definition resolveFK_targetIdx (targetCols : list sqlbase.ColumnDescriptor)
  (target : sqlbase.TableDescriptor) (targetTable : tree.TableName)
  : result indexPtr :=
  if matchesIndex targetCols (sqlbase.PrimaryIndex target) matchExact
  then Ok PrimaryIndexPtr
  else
    match resolveFK_findUnique targetCols (sqlbase.Indexes target) 0%nat with
    | Some i => Ok (SecondaryIndexPtr i)
    | None =>
        Err (PgErrorf CodeInvalidForeignKeyError
          "there is no unique constraint matching given keys for referenced table %s"
          [TableName_String targetTable])
    end.

(** [addIndexForFK] *)
Definition addIndexForFK (tbl : sqlbase.TableDescriptor)
  (srcCols : list sqlbase.ColumnDescriptor) (constraintName : string)
  (ref : sqlbase.ForeignKeyReference)
  : result (sqlbase.TableDescriptor * sqlbase.IndexID) :=
  let idx :=
    {| sqlbase.idx_Name :=
         sqlbase.Name tbl +:+ "_auto_index_" +:+ constraintName;
       sqlbase.idx_ID := 0;
       sqlbase.idx_Unique := false;
       sqlbase.idx_ColumnNames := map sqlbase.col_Name srcCols;
       sqlbase.idx_ColumnDirections :=
         map (fun _ => sqlbase.IndexDescriptor_ASC) srcCols;
       sqlbase.idx_StoreColumnNames := [];
       sqlbase.idx_ColumnIDs := [];
       sqlbase.idx_ForeignKey := ref;
       sqlbase.idx_ReferencedBy := [];
       sqlbase.idx_Interleave := {| sqlbase.Ancestors := [] |};
       sqlbase.idx_InterleavedBy := [];
       sqlbase.idx_Partitioning := sqlbase.PartitioningDescriptor_zero |} in
  tbl <- AddIndex tbl idx false ;;
  tbl <- AllocateIDs tbl ;;
  match last (sqlbase.Indexes tbl) with
  | None => Err (Panic "index out of range")
  | Some added =>
      if negb (matchesIndex srcCols added matchPrefix)
      then Err (Panic
             "no matching index and auto-generated index failed to match")
      else Ok (tbl, sqlbase.idx_ID added)
  end.

(** The loop of lines 1044-1055 over [tbl.Indexes]: at the first index that
    [srcCols] prefix-match, fail if it carries a foreign key, else store
    [ref] there.  The result is the indexes after the update and the id of
    the index, or [None] when no index matched. *)
Fixpoint resolveFK_scanSource (srcCols : list sqlbase.ColumnDescriptor)
  (ref : sqlbase.ForeignKeyReference) (idxs : list sqlbase.IndexDescriptor)
  : result (option (list sqlbase.IndexDescriptor * sqlbase.IndexID)) :=
  match idxs with
  | [] => Ok None
  | idx :: idxs' =>
      if matchesIndex srcCols idx matchPrefix
      then
        if IsSet (sqlbase.idx_ForeignKey idx)
        then Err errMultipleFK
        else Ok (Some (sqlbase.idx_with_ForeignKey ref idx :: idxs',
                       sqlbase.idx_ID idx))
      else
        r <- resolveFK_scanSource srcCols ref idxs' ;;
        Ok (match r with
            | Some (idxs'', id) => Some (idx :: idxs'', id)
            | None => None
            end)
  end.

(** [resolveFK], lines 1035-1068: the source index.  The result is the table
    after the update and [backref.Index]. *)
Definition resolveFK_source (tbl : sqlbase.TableDescriptor)
  (srcCols : list sqlbase.ColumnDescriptor) (constraintName : string)
  (ref : sqlbase.ForeignKeyReference) (mode : sqlbase.ConstraintValidity)
  : result (sqlbase.TableDescriptor * sqlbase.IndexID) :=
  if matchesIndex srcCols (sqlbase.PrimaryIndex tbl) matchPrefix
  then
    if IsSet (sqlbase.idx_ForeignKey (sqlbase.PrimaryIndex tbl))
    then Err errMultipleFK
    else Ok (sqlbase.with_PrimaryIndex
               (sqlbase.idx_with_ForeignKey ref (sqlbase.PrimaryIndex tbl))
               tbl,
             sqlbase.idx_ID (sqlbase.PrimaryIndex tbl))
  else
    r <- resolveFK_scanSource srcCols ref (sqlbase.Indexes tbl) ;;
    match r with
    | Some (idxs, id) => Ok (sqlbase.with_Indexes idxs tbl, id)
    | None =>
        match mode with
        | sqlbase.ConstraintValidity_Unvalidated =>
            Err (PgErrorf CodeInvalidForeignKeyError
                   "foreign key requires an existing index on columns %s"
                   [colNames srcCols])
        | _ => addIndexForFK tbl srcCols constraintName ref
        end
    end.

(** [resolveFK].  The pointer [targetIdx] is kept as a position in the
    target table, so the last statement appends the back-reference to the
    index at that position of the table as it then is (for a reference of the
    table to itself, after the source index was set). *)
Definition resolveFK (tbl : sqlbase.TableDescriptor)
  (d : tree.ForeignKeyConstraintTableDef)
  (backrefs : gmap Z sqlbase.TableDescriptor)
  (mode : sqlbase.ConstraintValidity) : result fkResolution :=
  c <- resolveFK_columns tbl d backrefs mode ;;
  let tbl := fc_tbl c in
  let backrefs := fc_backrefs c in
  let target := derefTable tbl backrefs (fc_target c) in
  let srcCols := fc_srcCols c in
  targetIdx <-
    resolveFK_targetIdx (fc_targetCols c) target (fc_targetTable c) ;;
  targetIdxID <-
    (match derefIndex target targetIdx with
     | Some idx => Ok (sqlbase.idx_ID idx)
     | None => Err (Panic "index out of range")
     end) ;;
  let actions := tree.fk_Actions d in
  if (match tree.Delete actions with
      | tree.NoAction | tree.Restrict => false
      | _ => true
      end)
  then Err (Unimplemented None "unsupported: ON DELETE %s"
              [ReferenceAction_String (tree.Delete actions)])
  else
  if (match tree.Update actions with
      | tree.NoAction | tree.Restrict => false
      | _ => true
      end)
  then Err (Unimplemented None "unsupported: ON UPDATE %s"
              [ReferenceAction_String (tree.Update actions)])
  else
  let ref :=
    {| sqlbase.fk_Table := sqlbase.ID_ target;
       sqlbase.fk_Index := targetIdxID;
       sqlbase.fk_Name := fc_constraintName c;
       sqlbase.fk_Validity := sqlbase.ConstraintValidity_Validated;
       sqlbase.fk_SharedPrefixLen := to_int32 (len srcCols);
       sqlbase.fk_OnDelete :=
         ForeignKeyReferenceActionValue (tree.Delete actions);
       sqlbase.fk_OnUpdate :=
         ForeignKeyReferenceActionValue (tree.Update actions) |} in
  let ref :=
    match mode with
    | sqlbase.ConstraintValidity_Unvalidated =>
        sqlbase.fk_with_Validity sqlbase.ConstraintValidity_Unvalidated ref
    | _ => ref
    end in
  let backref :=
    {| sqlbase.fk_Table := sqlbase.ID_ tbl;
       sqlbase.fk_Index := 0;
       sqlbase.fk_Name := "";
       sqlbase.fk_Validity := sqlbase.ConstraintValidity_Validated;
       sqlbase.fk_SharedPrefixLen := 0;
       sqlbase.fk_OnDelete := sqlbase.ForeignKeyReference_NO_ACTION;
       sqlbase.fk_OnUpdate := sqlbase.ForeignKeyReference_NO_ACTION |} in
  r <- resolveFK_source tbl srcCols (fc_constraintName c) ref mode ;;
  let '(tbl, srcIndexID) := r in
  let backref := sqlbase.fk_with_Index srcIndexID backref in
  let append idx :=
    sqlbase.idx_with_ReferencedBy
      (sqlbase.idx_ReferencedBy idx ++ [backref]) idx in
  let '(tbl, backrefs) :=
    match fc_target c with
    | ThisTable => (updateIndex append targetIdx tbl, backrefs)
    | BackrefTable id =>
        (tbl, alter (updateIndex append targetIdx) id backrefs)
    end in
  Ok {| fr_tbl := tbl; fr_backrefs := backrefs; fr_target := fc_target c;
        fr_targetIdx := targetIdx; fr_ref := ref; fr_backref := backref |}.

End ForeignKeys.

(** ** Interleaving (create.go, lines 1139-1212) *)

(** [l[i]], which panics out of range. *)
Definition index_at {A : Type} (l : list A) (i : nat) : result A :=
  match l !! i with
  | Some x => Ok x
  | None => Err (Panic "index out of range")
  end.

Definition Direction_eqb (a b : sqlbase.IndexDescriptor_Direction) : bool :=
  match a, b with
  | sqlbase.IndexDescriptor_ASC, sqlbase.IndexDescriptor_ASC => true
  | sqlbase.IndexDescriptor_DESC, sqlbase.IndexDescriptor_DESC => true
  | _, _ => false
  end.

(** The subtraction loop of lines 1205-1207, in [uint32]. *)
Definition addInterleave_prefixLen (n : Z)
  (ancestorPrefix : list sqlbase.InterleaveDescriptor_Ancestor) : Z :=
  fold_left
    (fun acc ancestor => to_uint32 (acc - sqlbase.anc_SharedPrefixLen ancestor))
    ancestorPrefix (to_uint32 n).

Section Interleave.
Context {treeOps : TreeOps} {sqlbaseOps : SqlbaseOps} {catalog : Catalog}.

(** The loop of lines 1181-1196 from position [i] on; [ids] is what is left
    of [parentIndex.ColumnIDs]. *)
Fixpoint addInterleave_loop (parentTable desc : sqlbase.TableDescriptor)
  (parentIndex index : sqlbase.IndexDescriptor) (fields : tree.NameList)
  (ids : list sqlbase.ColumnID) (i : nat) : result unit :=
  match ids with
  | [] => Ok tt
  | targetColID :: ids' =>
      targetCol <- FindColumnByID parentTable targetColID ;;
      colID <- index_at (sqlbase.idx_ColumnIDs index) i ;;
      col <- FindColumnByID desc colID ;;
      field <- index_at fields i ;;
      if negb (eqs field (sqlbase.col_Name col))
      then Err (Errorf "declared columns must match index being interleaved" [])
      else
      if negb (ColumnType_Equal (sqlbase.col_Type col)
                                (sqlbase.col_Type targetCol))
      then Err (Errorf "interleaved columns must match parent" [])
      else
      dir <- index_at (sqlbase.idx_ColumnDirections index) i ;;
      parentDir <- index_at (sqlbase.idx_ColumnDirections parentIndex) i ;;
      if negb (Direction_eqb dir parentDir)
      then Err (Errorf "interleaved columns must match parent" [])
      else addInterleave_loop parentTable desc parentIndex index fields
             ids' (S i)
  end.

(** [addInterleave].  [index] points into [desc]; the result is [desc] and
    the index as the function leaves them, and the caller keeps the index at
    its place in the descriptor. *)
Definition addInterleave (desc : sqlbase.TableDescriptor)
  (index : sqlbase.IndexDescriptor) (interleave : tree.InterleaveDef)
  (sessionDB : string)
  : result (sqlbase.TableDescriptor * sqlbase.IndexDescriptor) :=
  match tree.idef_DropBehavior interleave with
  | tree.DropDefault =>
      tn <- NormalizeWithDatabaseName (tree.Parent interleave) sessionDB ;;
      parentTable <- MustGetTableDesc tn true ;;
      let parentIndex := sqlbase.PrimaryIndex parentTable in
      if negb (len (tree.Fields interleave) =?
               len (sqlbase.idx_ColumnIDs parentIndex))
      then Err (Errorf "interleaved columns must match parent" [])
      else
      if len (sqlbase.idx_ColumnIDs index) <? len (tree.Fields interleave)
      then Err (Errorf "declared columns must match index being interleaved" [])
      else
      _ <- addInterleave_loop parentTable desc parentIndex index
             (tree.Fields interleave) (sqlbase.idx_ColumnIDs parentIndex)
             0%nat ;;
      let ancestorPrefix :=
        sqlbase.Ancestors (sqlbase.idx_Interleave parentIndex) in
      let intl :=
        {| sqlbase.anc_TableID := sqlbase.ID_ parentTable;
           sqlbase.anc_IndexID := sqlbase.idx_ID parentIndex;
           sqlbase.anc_SharedPrefixLen :=
             addInterleave_prefixLen
               (len (sqlbase.idx_ColumnIDs parentIndex)) ancestorPrefix |} in
      let index :=
        sqlbase.idx_with_Interleave
          {| sqlbase.Ancestors := ancestorPrefix ++ [intl] |} index in
      Ok (sqlbase.with_State sqlbase.TableDescriptor_ADD desc, index)
  | b =>
      Err (Unimplemented (Some 7854) "unsupported shorthand %s"
             [DropBehavior_String b])
  end.

End Interleave.

(** ** Partitioning (create.go, lines 1257-1396) *)

(** [tree.PartitionByType] is a string type. *)
Definition PartitionByType_String (typ : tree.PartitionByType) : string :=
  match typ with
  | tree.PartitionByList => "LIST"
  | tree.PartitionByRange => "RANGE"
  end.

Section Partitioning.
Context {treeOps : TreeOps} {sqlbaseOps : SqlbaseOps}
  {encodingOps : EncodingOps}.

(** The loop of lines 1283-1323 over [tuple.Exprs]; [cols] is what is left of
    the partition columns and [value] the bytes encoded so far. *)
Fixpoint valueEncodePartitionTuple_loop (typ : tree.PartitionByType)
  (exprs : list tree.Expr) (cols : list sqlbase.ColumnDescriptor)
  (value : sqlbase.bytes) : result sqlbase.bytes :=
  match exprs with
  | [] => Ok value
  | expr :: exprs' =>
      match expr with
      | tree.DefaultVal =>
          match typ with
          | tree.PartitionByList =>
              valueEncodePartitionTuple_loop typ exprs' (tail cols)
                (EncodeNotNullValue value NoColumnID)
          | _ =>
              Err (Errorf "%s cannot be used with PARTITION BY %s"
                     [Expr_String expr; PartitionByType_String typ])
          end
      | tree.MaxVal =>
          match typ with
          | tree.PartitionByRange =>
              valueEncodePartitionTuple_loop typ exprs' (tail cols)
                (EncodeNotNullValue value NoColumnID)
          | _ =>
              Err (Errorf "%s cannot be used with PARTITION BY %s"
                     [Expr_String expr; PartitionByType_String typ])
          end
      | tree.Placeholder _ =>
          Err (Unimplemented (Some 19464)
                 "placeholders are not supported in PARTITION BY" [])
      | _ =>
          col <- index_at cols 0%nat ;;
          typedExpr <-
            (match TypeCheck expr (ToDatumType (sqlbase.col_Type col)) with
             | Ok t => Ok t
             | Err err => Err (Wrap err (Expr_String expr) [])
             end) ;;
          datum <-
            (match Eval typedExpr with
             | Ok d => Ok d
             | Err err => Err (Wrap err (TypedExpr_String typedExpr) [])
             end) ;;
          _ <- check (CheckColumnType col (ResolvedType datum)) ;;
          value <- EncodeTableValue value NoColumnID datum ;;
          valueEncodePartitionTuple_loop typ exprs' (tail cols) value
      end
  end.

(** [valueEncodePartitionTuple] *)
Definition valueEncodePartitionTuple (typ : tree.PartitionByType)
  (maybeTuple : tree.Expr) (cols : list sqlbase.ColumnDescriptor)
  : result sqlbase.bytes :=
  let maybeTuple := tree.StripParens maybeTuple in
  let tuple :=
    match maybeTuple with
    | tree.Tuple exprs => exprs
    | _ => [maybeTuple]
    end in
  if negb (len tuple =? len cols)
  then Err (Errorf "partition has %d columns but %d values were supplied"
              [pretty (len cols); pretty (len tuple)])
  else valueEncodePartitionTuple_loop typ tuple cols [].

(** The loop of lines 1341-1355: the columns of the partitioning, from
    position [i] of [partBy.Fields] on. *)
Fixpoint addPartitionedBy_cols (tableDesc : sqlbase.TableDescriptor)
  (indexDesc : sqlbase.IndexDescriptor) (colOffset : Z)
  (fields : tree.NameList) (i : Z)
  : result (list sqlbase.ColumnDescriptor) :=
  match fields with
  | [] => Ok []
  | field :: fields' =>
      if len (sqlbase.idx_ColumnNames indexDesc) <=? colOffset + i
      then Err (Errorf
             "declared partition columns must match index being partitioned" [])
      else
      name <- index_at (sqlbase.idx_ColumnNames indexDesc)
                (Z.to_nat (colOffset + i)) ;;
      col <- FindActiveColumnByName tableDesc name ;;
      if negb (eqs field (sqlbase.col_Name col))
      then Err (Errorf
             "declared partition columns must match index being partitioned" [])
      else
      cols <- addPartitionedBy_cols tableDesc indexDesc colOffset fields'
                (i + 1) ;;
      Ok (col :: cols)
  end.

(** The loop of lines 1361-1368 over the expressions of one list
    partition. *)
Fixpoint addPartitionedBy_values (pName : string)
  (cols : list sqlbase.ColumnDescriptor) (exprs : list tree.Expr)
  : result (list sqlbase.bytes) :=
  match exprs with
  | [] => Ok []
  | expr :: exprs' =>
      match valueEncodePartitionTuple tree.PartitionByList expr cols with
      | Err err => Err (Wrap err "PARTITION %s" [pName])
      | Ok encodedTuple =>
          values <- addPartitionedBy_values pName cols exprs' ;;
          Ok (encodedTuple :: values)
      end
  end.

(** The loop of lines 1379-1393 over the range partitions. *)
Fixpoint addPartitionedBy_ranges (cols : list sqlbase.ColumnDescriptor)
  (ranges : list tree.RangePartition)
  : result (list sqlbase.PartitioningDescriptor_Range) :=
  match ranges with
  | [] => Ok []
  | tree.Build_RangePartition name expr subpartition :: ranges' =>
      let pName := Name_Normalize name in
      match valueEncodePartitionTuple tree.PartitionByRange expr cols with
      | Err err => Err (Wrap err "PARTITION %s" [pName])
      | Ok encodedTuple =>
          match subpartition with
          | Some _ =>
              Err (Errorf "PARTITION %s: cannot subpartition a range partition"
                     [pName])
          | None =>
              ps <- addPartitionedBy_ranges cols ranges' ;;
              Ok ({| sqlbase.range_Name := pName;
                     sqlbase.range_UpperBound := encodedTuple |} :: ps)
          end
      end
  end.

(** [addPartitionedBy].  [partDesc] is the descriptor that the pointer of the
    source designates; the result is its value on return. *)
Fixpoint addPartitionedBy (tableDesc : sqlbase.TableDescriptor)
  (indexDesc : sqlbase.IndexDescriptor)
  (partDesc : sqlbase.PartitioningDescriptor) (partBy : tree.PartitionBy)
  (colOffset : Z) {struct partBy} : result sqlbase.PartitioningDescriptor :=
  match partBy, partDesc with
  | tree.Build_PartitionBy fields listParts rangeParts,
    sqlbase.Build_PartitioningDescriptor _ partList partRange =>
      let numColumns := to_uint32 (len fields) in
      cols <- addPartitionedBy_cols tableDesc indexDesc colOffset fields 0 ;;
      newList <-
        (fix lists (ls : list tree.ListPartition)
           : result (list sqlbase.PartitioningDescriptor_List) :=
           match ls with
           | [] => Ok []
           | tree.Build_ListPartition name exprs subpartition :: ls' =>
               let pName := Name_Normalize name in
               values <- addPartitionedBy_values pName cols exprs ;;
               sub <-
                 (match subpartition with
                  | Some s =>
                      addPartitionedBy tableDesc indexDesc
                        sqlbase.PartitioningDescriptor_zero s
                        (colOffset + numColumns)
                  | None => Ok sqlbase.PartitioningDescriptor_zero
                  end) ;;
               ps <- lists ls' ;;
               Ok (sqlbase.Build_PartitioningDescriptor_List pName values sub
                   :: ps)
           end) listParts ;;
      newRange <- addPartitionedBy_ranges cols rangeParts ;;
      Ok (sqlbase.Build_PartitioningDescriptor numColumns
            (partList ++ newList) (partRange ++ newRange))
  end.

End Partitioning.

(** ** Constraint hoisting (create.go, lines 687-720) *)

(** One turn of the loop of [HoistConstraints] on the definition [d]: the
    definition as the loop leaves it in place, and the definitions it
    appends to [n.Defs]. *)
Definition HoistConstraints_def (d : tree.TableDef)
  : tree.TableDef * list tree.TableDef :=
  match d with
  | tree.ColumnDef col =>
      let checks :=
        map (fun checkExpr =>
               tree.CheckConstraintDef
                 {| tree.ck_Expr := tree.cc_Expr checkExpr;
                    tree.ck_Name := tree.cc_ConstraintName checkExpr |})
            (tree.col_CheckExprs col) in
      let col1 := tree.col_with_CheckExprs [] col in
      if tree.HasFKConstraint col1
      then
        let refs := tree.col_References col1 in
        let targetCol :=
          if negb (eqs (tree.ref_Col refs) "") then [tree.ref_Col refs]
          else [] in
        let fk :=
          {| tree.fk_Table := tree.ref_Table refs;
             tree.fk_FromCols := [tree.col_Name col1];
             tree.fk_ToCols := targetCol;
             tree.fk_Name := tree.ref_ConstraintName refs;
             tree.fk_Actions := tree.ref_Actions refs |} in
        (tree.ColumnDef
           (tree.col_with_References_Table
              {| tree.TableNameReference := None |} col1),
         checks ++ [tree.ForeignKeyConstraintDef fk])
      else (tree.ColumnDef col1, checks)
  | _ => (d, [])
  end.

(** The loop over the definitions that [n.Defs] holds when the loop starts:
    those definitions as rewritten, and everything appended. *)
Fixpoint HoistConstraints_loop (defs : list tree.TableDef)
  : list tree.TableDef * list tree.TableDef :=
  match defs with
  | [] => ([], [])
  | d :: defs' =>
      let '(d1, added) := HoistConstraints_def d in
      let '(rest, added') := HoistConstraints_loop defs' in
      (d1 :: rest, added ++ added')
  end.

(** [HoistConstraints]: the statement as the function leaves it. *)
Definition HoistConstraints (n : tree.CreateTable) : tree.CreateTable :=
  let '(defs, added) := HoistConstraints_loop (tree.ct_Defs n) in
  tree.ct_with_Defs (defs ++ added) n.

(** ** Check constraints (create.go, lines 1746-1871) *)

(** [types.Bool] *)
Definition types_Bool : tree.T := "bool".

(** The search of lines 1856-1864 for a free name [name ++ i], from [i] on. *)
Fixpoint makeCheckConstraint_suffix (fuel : nat) (name : string)
  (inuseNames : gset string) (i : Z) : option string :=
  match fuel with
  | O => None
  | S fuel' =>
      let appended := name +:+ pretty i in
      if bool_decide (appended ∈ inuseNames)
      then makeCheckConstraint_suffix fuel' name inuseNames (i + 1)
      else Some appended
  end.

(** A Go map used as a set; [None] is the nil map, in which every lookup
    fails and nothing is stored. *)
Definition nameSet : Type := option (gset string).

Definition nameSet_has (name : string) (s : nameSet) : bool :=
  match s with
  | Some names => bool_decide (name ∈ names)
  | None => false
  end.

Definition nameSet_add (name : string) (s : nameSet) : nameSet :=
  match s with
  | Some names => Some ({[name]} ∪ names)
  | None => None
  end.

Definition nameSet_size (s : nameSet) : nat :=
  match s with
  | Some names => size names
  | None => 0
  end.

Section CheckConstraints.
Context {treeOps : TreeOps} {sqlbaseOps : SqlbaseOps}.

(** [preFn] of [makeCheckConstraint]: the error or [(recurse, newExpr)], and
    the name buffer. *)
Definition preFn (desc : sqlbase.TableDescriptor)
  (d : tree.CheckConstraintTableDef) (generateName : bool)
  (nameBuf : string) (expr : tree.Expr)
  : result (bool * tree.Expr * string) :=
  match expr with
  | tree.VarName vBase =>
      v <- NormalizeVarName vBase ;;
      match v with
      | tree.ColumnItem _ columnName =>
          match FindActiveColumnByName desc columnName with
          | Err _ =>
              Err (Errorf "column %q not found for constraint %q"
                     [columnName; Expr_String (tree.ck_Expr d)])
          | Ok col =>
              Ok (false,
                  tree.dummyColumnItem (ToDatumType (sqlbase.col_Type col)),
                  if generateName
                  then nameBuf +:+ "_" +:+ sqlbase.col_Name col
                  else nameBuf)
          end
      | tree.OtherVarName => Ok (true, expr, nameBuf)
      end
  | _ => Ok (true, expr, nameBuf)
  end.

(** Modelled from the spec: [tree.SimpleVisit(d.Expr, preFn)], the walk of
    the check expression.  [preFn] is applied to each node before its
    children; where it asks to recurse (the node is then unchanged) the
    children are walked from left to right, and the walk stops at the first
    error.  The result is the rewritten expression and the name buffer. *)
Fixpoint SimpleVisit_preFn (desc : sqlbase.TableDescriptor)
  (d : tree.CheckConstraintTableDef) (generateName : bool)
  (expr : tree.Expr) (nameBuf : string) {struct expr}
  : result (tree.Expr * string) :=
  let walkList :=
    fix walkList (es : list tree.Expr) (nameBuf : string)
      : result (list tree.Expr * string) :=
      match es with
      | [] => Ok ([], nameBuf)
      | e :: es' =>
          r <- SimpleVisit_preFn desc d generateName e nameBuf ;;
          rs <- walkList es' (snd r) ;;
          Ok (fst r :: fst rs, snd rs)
      end in
  r <- preFn desc d generateName nameBuf expr ;;
  let '(recurse, newExpr, nameBuf) := r in
  if recurse
  then
    match expr with
    | tree.ParenExpr e =>
        r <- SimpleVisit_preFn desc d generateName e nameBuf ;;
        Ok (tree.ParenExpr (fst r), snd r)
    | tree.Tuple es =>
        rs <- walkList es nameBuf ;;
        Ok (tree.Tuple (fst rs), snd rs)
    | tree.Node label es =>
        rs <- walkList es nameBuf ;;
        Ok (tree.Node label (fst rs), snd rs)
    | _ => Ok (newExpr, nameBuf)
    end
  else Ok (newExpr, nameBuf).

(** [makeCheckConstraint]: the constraint, and [inuseNames] as the function
    leaves it. *)
Definition makeCheckConstraint (desc : sqlbase.TableDescriptor)
  (d : tree.CheckConstraintTableDef) (inuseNames : nameSet)
  : result (sqlbase.TableDescriptor_CheckConstraint * nameSet) :=
  let name := tree.ck_Name d in
  let generateName := eqs name "" in
  let nameBuf := if generateName then "check" else "" in
  r <- SimpleVisit_preFn desc d generateName (tree.ck_Expr d) nameBuf ;;
  let '(expr, nameBuf) := r in
  _ <- check (AssertNoAggregationOrWindowing expr "CHECK expressions") ;;
  _ <- check (SanitizeVarFreeExpr expr types_Bool "CHECK") ;;
  r <-
    (if generateName
     then
       let name := nameBuf in
       name <-
         (if nameSet_has name inuseNames
          then
            match makeCheckConstraint_suffix (S (nameSet_size inuseNames))
                    name (default ∅ inuseNames) 1 with
            | Some appended => Ok appended
            | None => Err (Panic "the search for a free name did not end")
            end
          else Ok name) ;;
       Ok (name, nameSet_add name inuseNames)
     else Ok (name, inuseNames)) ;;
  let '(name, inuseNames) := r in
  Ok ({| sqlbase.ck_Expr := Serialize (tree.ck_Expr d);
         sqlbase.ck_Name := name |}, inuseNames).

End CheckConstraints.

(** ** Building the table descriptor (create.go, lines 1398-1413 and
    1513-1719) *)

(** [pgerror.CodeFeatureNotSupportedError] *)
Definition CodeFeatureNotSupportedError : string := "0A000".

Section MakeTableDesc.
Context {treeOps : TreeOps} {sqlbaseOps : SqlbaseOps} {catalog : Catalog}
  {encodingOps : EncodingOps}.

(** [initTableDescriptor] *)
Definition initTableDescriptor (id parentID : sqlbase.ID) (name : string)
  (creationTime : Z) (privileges : string) : sqlbase.TableDescriptor :=
  {| sqlbase.Name := name; sqlbase.ID_ := id; sqlbase.ParentID := parentID;
     sqlbase.Version := 1;
     sqlbase.FormatVersion := InterleavedFormatVersion;
     sqlbase.ModificationTime := creationTime;
     sqlbase.Privileges := privileges;
     sqlbase.State := sqlbase.TableDescriptor_PUBLIC;
     sqlbase.Columns := []; sqlbase.Families := [];
     sqlbase.PrimaryIndex := sqlbase.IndexDescriptor_zero;
     sqlbase.Indexes := []; sqlbase.Mutations := []; sqlbase.Checks := [];
     sqlbase.NextColumnID := 0; sqlbase.NextIndexID := 0;
     sqlbase.NextMutationID := 0 |}.

(** The first pass of [MakeTableDesc] (lines 1533-1564): the columns. *)
Fixpoint MakeTableDesc_columns (desc : sqlbase.TableDescriptor)
  (defs : list tree.TableDef) : result sqlbase.TableDescriptor :=
  match defs with
  | [] => Ok desc
  | tree.ColumnDef d :: defs' =>
      if negb (IsVirtualTable desc) && IsTVector (tree.col_Type d)
      then Err (PgErrorf CodeFeatureNotSupportedError
                  "VECTOR column types are unsupported" [])
      else
      r <- MakeColumnDefDescs d ;;
      let '(col, idx) := r in
      let desc := AddColumn desc col in
      desc <- (match idx with
               | Some idx => AddIndex desc idx (tree.col_PrimaryKey d)
               | None => Ok desc
               end) ;;
      desc <- (if tree.HasColumnFamily d
               then AddColumnToFamilyMaybeCreate desc (sqlbase.col_Name col)
                      (tree.fam_Name (tree.col_Family d)) true true
               else Ok desc) ;;
      MakeTableDesc_columns desc defs'
  | _ :: defs' => MakeTableDesc_columns desc defs'
  end.

(** The index of an [IndexTableDef], as lines 1573-1586 and 1594-1608 build
    it. *)
Definition MakeTableDesc_index (desc : sqlbase.TableDescriptor)
  (d : tree.IndexTableDef) (unique : bool) : result sqlbase.IndexDescriptor :=
  let idx :=
    sqlbase.idx_with_Unique unique
      {| sqlbase.idx_Name := tree.idx_Name d;
         sqlbase.idx_ID := 0;
         sqlbase.idx_Unique := false;
         sqlbase.idx_ColumnNames := [];
         sqlbase.idx_ColumnDirections := [];
         sqlbase.idx_StoreColumnNames := tree.idx_Storing d;
         sqlbase.idx_ColumnIDs := [];
         sqlbase.idx_ForeignKey := sqlbase.ForeignKeyReference_zero;
         sqlbase.idx_ReferencedBy := [];
         sqlbase.idx_Interleave := {| sqlbase.Ancestors := [] |};
         sqlbase.idx_InterleavedBy := [];
         sqlbase.idx_Partitioning := sqlbase.PartitioningDescriptor_zero |} in
  idx <- FillColumns idx (tree.idx_Columns d) ;;
  match tree.idx_PartitionBy d with
  | Some partBy =>
      part <- addPartitionedBy desc idx (sqlbase.idx_Partitioning idx)
                partBy 0 ;;
      Ok (sqlbase.idx_with_Partitioning part idx)
  | None => Ok idx
  end.

Definition errInterleavedIndex : error :=
  Unimplemented (Some 9148) "use CREATE INDEX to make interleaved indexes" [].

(** The second pass (lines 1566-1628): the indexes.  The second component is
    [primaryIndexColumnSet], [None] while it is nil. *)
Fixpoint MakeTableDesc_indexes (desc : sqlbase.TableDescriptor)
  (primaryIndexColumnSet : option (gset string)) (defs : list tree.TableDef)
  : result (sqlbase.TableDescriptor * option (gset string)) :=
  match defs with
  | [] => Ok (desc, primaryIndexColumnSet)
  | tree.IndexDef d :: defs' =>
      idx <- MakeTableDesc_index desc d false ;;
      desc <- AddIndex desc idx false ;;
      match tree.idx_Interleave d with
      | Some _ => Err errInterleavedIndex
      | None => MakeTableDesc_indexes desc primaryIndexColumnSet defs'
      end
  | tree.UniqueConstraintDef u :: defs' =>
      let d := tree.uniq_IndexTableDef u in
      idx <- MakeTableDesc_index desc d true ;;
      desc <- AddIndex desc idx (tree.uniq_PrimaryKey u) ;;
      let primaryIndexColumnSet :=
        if tree.uniq_PrimaryKey u
        then Some (list_to_set (map tree.Column (tree.idx_Columns d)))
        else primaryIndexColumnSet in
      match tree.idx_Interleave d with
      | Some _ => Err errInterleavedIndex
      | None => MakeTableDesc_indexes desc primaryIndexColumnSet defs'
      end
  | _ :: defs' => MakeTableDesc_indexes desc primaryIndexColumnSet defs'
  end.

(** Lines 1630-1637: the columns of the primary key are not nullable. *)
Definition MakeTableDesc_notNull (primaryIndexColumnSet : option (gset string))
  (desc : sqlbase.TableDescriptor) : sqlbase.TableDescriptor :=
  match primaryIndexColumnSet with
  | Some names =>
      sqlbase.with_Columns
        (map (fun c =>
                if bool_decide (sqlbase.col_Name c ∈ names)
                then sqlbase.col_with_Nullable false c else c)
             (sqlbase.Columns desc))
        desc
  | None => desc
  end.

(** The third pass (lines 1642-1650): the declared families. *)
Fixpoint MakeTableDesc_families (desc : sqlbase.TableDescriptor)
  (defs : list tree.TableDef) : sqlbase.TableDescriptor :=
  match defs with
  | [] => desc
  | tree.FamilyDef d :: defs' =>
      MakeTableDesc_families
        (AddFamily desc
           {| sqlbase.fam_Name := tree.famdef_Name d;
              sqlbase.fam_ID := 0;
              sqlbase.fam_ColumnNames := tree.famdef_Columns d |})
        defs'
  | _ :: defs' => MakeTableDesc_families desc defs'
  end.

(** The fourth pass (lines 1677-1697): check constraints and foreign keys.
    The state is the descriptor, the [affected] map and [generatedNames]. *)
Fixpoint MakeTableDesc_constraints (desc : sqlbase.TableDescriptor)
  (affected : gmap Z sqlbase.TableDescriptor) (generatedNames : gset string)
  (defs : list tree.TableDef)
  : result (sqlbase.TableDescriptor * gmap Z sqlbase.TableDescriptor) :=
  match defs with
  | [] => Ok (desc, affected)
  | tree.CheckConstraintDef d :: defs' =>
      r <- makeCheckConstraint desc d (Some generatedNames) ;;
      let '(ck, names) := r in
      MakeTableDesc_constraints
        (sqlbase.with_Checks (sqlbase.Checks desc ++ [ck]) desc)
        affected (default generatedNames names) defs'
  | tree.ForeignKeyConstraintDef d :: defs' =>
      r <- resolveFK desc d affected sqlbase.ConstraintValidity_Validated ;;
      MakeTableDesc_constraints (fr_tbl r) (fr_backrefs r) generatedNames
        defs'
  | _ :: defs' =>
      MakeTableDesc_constraints desc affected generatedNames defs'
  end.

(** The inner loop of lines 1708-1714: the first [n] columns of the index,
    from position [i] on. *)
Fixpoint MakeTableDesc_fkCols (idx : sqlbase.IndexDescriptor) (n : nat)
  (i : nat) (colsInFKs : gset Z) : result (gset Z) :=
  match n with
  | O => Ok colsInFKs
  | S n' =>
      id <- index_at (sqlbase.idx_ColumnIDs idx) i ;;
      if bool_decide (id ∈ colsInFKs)
      then
        name <- index_at (sqlbase.idx_ColumnNames idx) i ;;
        Err (Errorf
               "column %q cannot be used by multiple foreign key constraints"
               [name])
      else MakeTableDesc_fkCols idx n' (S i) ({[id]} ∪ colsInFKs)
  end.

(** Lines 1699-1716: the loop over [desc.Indexes]. *)
Fixpoint MakeTableDesc_fkIndexes (idxs : list sqlbase.IndexDescriptor)
  (colsInFKs : gset Z) : result (gset Z) :=
  match idxs with
  | [] => Ok colsInFKs
  | idx :: idxs' =>
      if IsSet (sqlbase.idx_ForeignKey idx)
      then
        let numCols :=
          if 0 <? sqlbase.fk_SharedPrefixLen (sqlbase.idx_ForeignKey idx)
          then sqlbase.fk_SharedPrefixLen (sqlbase.idx_ForeignKey idx)
          else len (sqlbase.idx_ColumnIDs idx) in
        colsInFKs <-
          MakeTableDesc_fkCols idx (Z.to_nat numCols) 0%nat colsInFKs ;;
        MakeTableDesc_fkIndexes idxs' colsInFKs
      else MakeTableDesc_fkIndexes idxs' colsInFKs
  end.

(** [MakeTableDesc], from the point where the structural elements are in
    place and the ids allocated (line 1671) to its end: the constraints, the
    check that no column is used by several foreign keys, and the last
    [AllocateIDs]. *)
Definition MakeTableDesc_finish (desc : sqlbase.TableDescriptor)
  (affected : gmap Z sqlbase.TableDescriptor) (defs : list tree.TableDef)
  : result (sqlbase.TableDescriptor * gmap Z sqlbase.TableDescriptor) :=
  r <- MakeTableDesc_constraints desc affected ∅ defs ;;
  let '(desc, affected) := r in
  _ <- MakeTableDesc_fkIndexes (sqlbase.Indexes desc) ∅ ;;
  desc <- AllocateIDs desc ;;
  Ok (desc, affected).

(** [MakeTableDesc] *)
Definition MakeTableDesc (n : tree.CreateTable) (parentID id : sqlbase.ID)
  (creationTime : Z) (privileges : string)
  (affected : gmap Z sqlbase.TableDescriptor) (sessionDB : string)
  : result (sqlbase.TableDescriptor * gmap Z sqlbase.TableDescriptor) :=
  tableName <- Normalize (tree.ct_Table n) ;;
  let desc :=
    initTableDescriptor id parentID (tree.Table tableName) creationTime
      privileges in
  desc <- MakeTableDesc_columns desc (tree.ct_Defs n) ;;
  r <- MakeTableDesc_indexes desc None (tree.ct_Defs n) ;;
  let '(desc, primaryIndexColumnSet) := r in
  let desc := MakeTableDesc_notNull primaryIndexColumnSet desc in
  let desc := MakeTableDesc_families desc (tree.ct_Defs n) in
  desc <- AllocateIDs desc ;;
  desc <-
    (match tree.ct_Interleave n with
     | Some interleave =>
         r <- addInterleave desc (sqlbase.PrimaryIndex desc) interleave
                sessionDB ;;
         Ok (sqlbase.with_PrimaryIndex (snd r) (fst r))
     | None => Ok desc
     end) ;;
  desc <-
    (match tree.ct_PartitionBy n with
     | Some partBy =>
         part <- addPartitionedBy desc (sqlbase.PrimaryIndex desc)
                   (sqlbase.idx_Partitioning (sqlbase.PrimaryIndex desc))
                   partBy 0 ;;
         Ok (sqlbase.with_PrimaryIndex
               (sqlbase.idx_with_Partitioning part (sqlbase.PrimaryIndex desc))
               desc)
     | None => Ok desc
     end) ;;
  MakeTableDesc_finish desc affected (tree.ct_Defs n).

End MakeTableDesc.

(** ** CREATE INDEX (create.go, lines 126-234, with [saveNonmutationAndNotify]
    and [finalizeInterleave], lines 1125-1137 and 1214-1255) *)

Record createIndexNode : Type := {
  cin_n : tree.CreateIndex;
  cin_tableDesc : sqlbase.TableDescriptor
}.

Definition EventLogCreateIndex : string := "create_index".

Section CreateIndex.
Context {treeOps : TreeOps} {sqlbaseOps : SqlbaseOps} {catalog : Catalog}
  {encodingOps : EncodingOps} {plannerOps : PlannerOps}.

(** [planner.saveNonmutationAndNotify] *)
Definition saveNonmutationAndNotify (p : planner)
  (td : sqlbase.TableDescriptor)
  : result (sqlbase.TableDescriptor * planner) :=
  td <- SetUpVersion td ;;
  _ <- check (ValidateTable td) ;;
  p <- writeTableDesc p td ;;
  Ok (td, notifySchemaChange p td sqlbase.InvalidMutationID).

(** [planner.finalizeInterleave]: [desc] as the function leaves it. *)
Definition finalizeInterleave (p : planner) (desc : sqlbase.TableDescriptor)
  (index : sqlbase.IndexDescriptor)
  : result (sqlbase.TableDescriptor * planner) :=
  match last (sqlbase.Ancestors (sqlbase.idx_Interleave index)) with
  | None => Ok (desc, p)
  | Some ancestor =>
      let self := sqlbase.anc_TableID ancestor =? sqlbase.ID_ desc in
      ancestorTable <-
        (if self then Ok desc
         else GetTableDescFromID p (sqlbase.anc_TableID ancestor)) ;;
      ancestorTable <-
        UpdateIndexByID ancestorTable (sqlbase.anc_IndexID ancestor)
          (fun ancestorIndex =>
             sqlbase.idx_with_InterleavedBy
               (sqlbase.idx_InterleavedBy ancestorIndex ++
                [{| sqlbase.fk_Table := sqlbase.ID_ desc;
                    sqlbase.fk_Index := sqlbase.idx_ID index;
                    sqlbase.fk_Name := "";
                    sqlbase.fk_Validity :=
                      sqlbase.ConstraintValidity_Validated;
                    sqlbase.fk_SharedPrefixLen := 0;
                    sqlbase.fk_OnDelete :=
                      sqlbase.ForeignKeyReference_NO_ACTION;
                    sqlbase.fk_OnUpdate :=
                      sqlbase.ForeignKeyReference_NO_ACTION |}])
               ancestorIndex) ;;
      r <- saveNonmutationAndNotify p ancestorTable ;;
      let '(ancestorTable, p) := r in
      let desc := if self then ancestorTable else desc in
      match sqlbase.State desc with
      | sqlbase.TableDescriptor_ADD =>
          saveNonmutationAndNotify p
            (sqlbase.with_State sqlbase.TableDescriptor_PUBLIC desc)
      | _ => Ok (desc, p)
      end
  end.

(** [createIndexNode.Start], from line 164 on: the index is built, added as
    a mutation, and the schema change is recorded. *)
Definition createIndexNode_Start_create (n : createIndexNode) (p : planner)
  : result (createIndexNode * planner) :=
  let stmt := cin_n n in
  let tableDesc := cin_tableDesc n in
  let indexDesc :=
    {| sqlbase.idx_Name := tree.ci_Name stmt;
       sqlbase.idx_ID := 0;
       sqlbase.idx_Unique := tree.ci_Unique stmt;
       sqlbase.idx_ColumnNames := [];
       sqlbase.idx_ColumnDirections := [];
       sqlbase.idx_StoreColumnNames := tree.ci_Storing stmt;
       sqlbase.idx_ColumnIDs := [];
       sqlbase.idx_ForeignKey := sqlbase.ForeignKeyReference_zero;
       sqlbase.idx_ReferencedBy := [];
       sqlbase.idx_Interleave := {| sqlbase.Ancestors := [] |};
       sqlbase.idx_InterleavedBy := [];
       sqlbase.idx_Partitioning := sqlbase.PartitioningDescriptor_zero |} in
  indexDesc <- FillColumns indexDesc (tree.ci_Columns stmt) ;;
  indexDesc <-
    (match tree.ci_PartitionBy stmt with
     | Some partBy =>
         part <- addPartitionedBy tableDesc indexDesc
                   (sqlbase.idx_Partitioning indexDesc) partBy 0 ;;
         Ok (sqlbase.idx_with_Partitioning part indexDesc)
     | None => Ok indexDesc
     end) ;;
  let mutationIdx := length (sqlbase.Mutations tableDesc) in
  tableDesc <- AddIndexMutation tableDesc indexDesc
                 sqlbase.DescriptorMutation_ADD ;;
  tableDesc <- AllocateIDs tableDesc ;;
  r <-
    (match tree.ci_Interleave stmt with
     | Some interleave =>
         m <- index_at (sqlbase.Mutations tableDesc) mutationIdx ;;
         r <- addInterleave tableDesc (sqlbase.mut_Index m) interleave
                (Database (p_session p)) ;;
         let '(tableDesc, index) := r in
         let tableDesc :=
           sqlbase.with_Mutations
             (<[mutationIdx := sqlbase.mut_with_Index index m]>
                (sqlbase.Mutations tableDesc))
             tableDesc in
         finalizeInterleave p tableDesc index
     | None => Ok (tableDesc, p)
     end) ;;
  let '(tableDesc, p) := r in
  r <- createSchemaChangeJob p tableDesc (CreateIndex_AsString stmt) ;;
  let '(tableDesc, mutationID, p) := r in
  p <- writeTableDesc p tableDesc ;;
  p <- InsertEventRecord p EventLogCreateIndex (sqlbase.ID_ tableDesc)
         [sqlbase.Name tableDesc; tree.ci_Name stmt; CreateIndex_String stmt;
          User (p_session p); pretty (to_uint32 mutationID)] ;;
  let p := notifySchemaChange p tableDesc mutationID in
  Ok ({| cin_n := stmt; cin_tableDesc := tableDesc |}, p).

(** [createIndexNode.Start]: the node and the planner as the function leaves
    them when it returns nil. *)
Definition createIndexNode_Start (n : createIndexNode) (p : planner)
  : result (createIndexNode * planner) :=
  let name := tree.ci_Name (cin_n n) in
  match FindIndexByName (cin_tableDesc n) name with
  | Ok (_, dropped) =>
      if dropped
      then Err (Errorf "index %q being dropped, try again later" [name])
      else if tree.ci_IfNotExists (cin_n n)
           then Ok (n, p)
           else createIndexNode_Start_create n p
  | Err _ => createIndexNode_Start_create n p
  end.

End CreateIndex.

(** ** CREATE USER and ALTER USER ... WITH PASSWORD (create.go, lines
    236-449) *)

(** [userAuthInfo]: the outcome of the [name] function, and of the
    [password] function when there is one. *)
Record userAuthInfo : Type := {
  ua_name : result string;
  ua_password : option (result string)
}.

Record createUserNode : Type := {
  cun_ifNotExists : bool;
  cun_rowsAffected : Z;
  cun_userAuthInfo : userAuthInfo
}.

Record alterUserSetPasswordNode : Type := {
  aun_userAuthInfo : userAuthInfo;
  aun_ifExists : bool;
  aun_rowsAffected : Z
}.

Definition errNoUserNameSpecified : error := Errorf "no username specified" [].

Definition usernameHelp : string :=
  "usernames are case insensitive, must start with a letter " +:+
  "or underscore, may contain letters, digits or underscores, and must not exceed 63 characters".

Section Users.
Context {treeOps : TreeOps} {plannerOps : PlannerOps}.

(** [NormalizeAndValidateUsername] *)
Definition NormalizeAndValidateUsername (username : string) : result string :=
  let username := Name_Normalize username in
  if negb (usernameRE_MatchString username)
  then Err (Errorf "username %q invalid; %s" [username; usernameHelp])
  else if blacklistedUsernames username
  then Err (Errorf "username %q reserved" [username])
  else Ok username.

(** [userAuthInfo.resolve]: the user name and the hashed password, [None]
    for the nil slice. *)
Definition resolve (ua : userAuthInfo)
  : result (string * option sqlbase.bytes) :=
  name <- ua_name ua ;;
  if eqs name "" then Err errNoUserNameSpecified else
  normalizedUsername <- NormalizeAndValidateUsername name ;;
  hashedPassword <-
    (match ua_password ua with
     | Some password =>
         resolvedPassword <- password ;;
         if eqs resolvedPassword "" then Err ErrEmptyPassword else
         hashed <- HashPassword resolvedPassword ;;
         Ok (Some hashed)
     | None => Ok None
     end) ;;
  Ok (normalizedUsername, hashedPassword).

Definition cun_with_rowsAffected (v : Z) (n : createUserNode)
  : createUserNode :=
  {| cun_ifNotExists := cun_ifNotExists n; cun_rowsAffected := v;
     cun_userAuthInfo := cun_userAuthInfo n |}.

Definition aun_with_rowsAffected (v : Z) (n : alterUserSetPasswordNode)
  : alterUserSetPasswordNode :=
  {| aun_userAuthInfo := aun_userAuthInfo n; aun_ifExists := aun_ifExists n;
     aun_rowsAffected := v |}.

(** [createUserNode.Start]: the node and the planner as the function leaves
    them, and the error it returns ([None] for nil). *)
Definition createUserNode_Start (n : createUserNode) (p : planner)
  : createUserNode * planner * option error :=
  match resolve (cun_userAuthInfo n) with
  | Err err => (n, p, Some err)
  | Ok (normalizedUsername, hashedPassword) =>
      let '(rowsAffected, err, p) :=
        ExecuteStatementInTransaction p "create-user"
          "INSERT INTO system.users VALUES ($1, $2);"
          normalizedUsername hashedPassword in
      let n := cun_with_rowsAffected rowsAffected n in
      match err with
      | Some err =>
          if IsUniquenessConstraintViolationError err
          then
            if cun_ifNotExists n
            then (cun_with_rowsAffected 0 n, p, None)
            else (n, p,
                  Some (Errorf "user %s already exists" [normalizedUsername]))
          else (n, p, Some err)
      | None =>
          if negb (cun_rowsAffected n =? 1)
          then (n, p,
                Some (Errorf
                  "%d rows affected by user creation; expected exactly one row affected"
                  [pretty (cun_rowsAffected n)]))
          else (n, p, None)
      end
  end.

(** [alterUserSetPasswordNode.Start] *)
Definition alterUserSetPasswordNode_Start (n : alterUserSetPasswordNode)
  (p : planner) : alterUserSetPasswordNode * planner * option error :=
  match resolve (aun_userAuthInfo n) with
  | Err err => (n, p, Some err)
  | Ok (normalizedUsername, hashedPassword) =>
      let '(rowsAffected, err, p) :=
        ExecuteStatementInTransaction p "create-user"
          ("UPDATE system.users SET " +:+ dquote +:+ "hashedPassword" +:+
           dquote +:+ " = $2 WHERE username = $1")
          normalizedUsername hashedPassword in
      let n := aun_with_rowsAffected rowsAffected n in
      match err with
      | Some err => (n, p, Some err)
      | None =>
          if (aun_rowsAffected n =? 0) && negb (aun_ifExists n)
          then (n, p,
                Some (Errorf "user %s does not exist" [normalizedUsername]))
          else (n, p, err)
      end
  end.

End Users.

(** ** A reference implementation of the interfaces

    The statements below hold for every implementation of the interfaces.
    To run the functions on concrete statements, the module [Sample] gives
    one implementation, over a catalog that is a list of tables. *)

Module Sample.

(** Modelled from the spec: the printer of expressions, which is also used
    as [tree.Serialize].  A node without children prints as its label, a
    node with two children as an infix operator. *)
Fixpoint Expr_String_impl (e : tree.Expr) : string :=
  match e with
  | tree.ParenExpr e => "(" +:+ Expr_String_impl e +:+ ")"
  | tree.Tuple es =>
      "(" +:+ fold_right (fun e s => Expr_String_impl e +:+ "," +:+ s) "" es
      +:+ ")"
  | tree.DefaultVal => "DEFAULT"
  | tree.MaxVal => "MAXVALUE"
  | tree.Placeholder name => "$" +:+ name
  | tree.VarName v =>
      fold_right (fun p s => p +:+ s) "" (tree.NameParts v)
  | tree.Node label [] => label
  | tree.Node label [l; r] =>
      Expr_String_impl l +:+ " " +:+ label +:+ " " +:+ Expr_String_impl r
  | tree.Node label es =>
      label +:+ "(" +:+
      fold_right (fun e s => Expr_String_impl e +:+ "," +:+ s) "" es +:+ ")"
  | tree.dummyColumnItem typ => "<" +:+ typ +:+ ">"
  end.

(** Modelled from the spec: a name of one part is a column, a name of two
    parts a column of a table. *)
Definition NormalizeVarName_impl (v : tree.UnresolvedName)
  : result tree.NormalizedVarName :=
  match tree.NameParts v with
  | [c] => Ok (tree.ColumnItem None c)
  | [t; c] => Ok (tree.ColumnItem (Some t) c)
  | _ => Ok tree.OtherVarName
  end.

Definition treeOps : TreeOps :=
  {| Datum := string;
     TypedExpr := tree.Expr;
     TypeCheck := fun e _ => Ok e;
     Eval := fun e => Ok (Expr_String_impl e);
     ResolvedType := fun _ => "int";
     Expr_String := Expr_String_impl;
     TypedExpr_String := Expr_String_impl;
     Serialize := Expr_String_impl;
     NormalizeVarName := NormalizeVarName_impl;
     Name_Normalize := fun n => n;
     TableName_String :=
       fun tn => tree.DatabaseName tn +:+ "." +:+ tree.Table tn;
     ReferenceAction_String := fun _ => "";
     DropBehavior_String := fun _ => "";
     Normalize :=
       fun nt =>
         match tree.TableNameReference nt with
         | Some tn => Ok tn
         | None => Err (External "empty table name")
         end;
     NormalizeWithDatabaseName :=
       fun nt _ =>
         match tree.TableNameReference nt with
         | Some tn => Ok tn
         | None => Err (External "empty table name")
         end;
     AssertNoAggregationOrWindowing := fun _ _ => None |}.

Definition encodingOps : EncodingOps :=
  {| NoColumnID := 0;
     EncodeNotNullValue := fun appendTo _ => appendTo ++ [Byte.x02] |}.

(** Modelled from the spec: a column is found by its name, or by its id,
    among the columns of the table. *)
Definition FindActiveColumnByName_impl (desc : sqlbase.TableDescriptor)
  (name : string) : result sqlbase.ColumnDescriptor :=
  match List.find (fun c => eqs (sqlbase.col_Name c) name)
          (sqlbase.Columns desc) with
  | Some c => Ok c
  | None => Err (External "column does not exist")
  end.

Fixpoint FindActiveColumnsByNames_impl (desc : sqlbase.TableDescriptor)
  (names : tree.NameList) : result (list sqlbase.ColumnDescriptor) :=
  match names with
  | [] => Ok []
  | n :: names' =>
      c <- FindActiveColumnByName_impl desc n ;;
      cs <- FindActiveColumnsByNames_impl desc names' ;;
      Ok (c :: cs)
  end.

Definition FindColumnByID_impl (desc : sqlbase.TableDescriptor)
  (id : sqlbase.ColumnID) : result sqlbase.ColumnDescriptor :=
  match List.find (fun c => sqlbase.col_ID c =? id) (sqlbase.Columns desc) with
  | Some c => Ok c
  | None => Err (External "column-id does not exist")
  end.

(** Modelled from the spec: an index is found by its name among the primary
    and the secondary indexes, none of which is being dropped. *)
Definition FindIndexByName_impl (desc : sqlbase.TableDescriptor) (name : string)
  : result (sqlbase.IndexDescriptor * bool) :=
  match List.find (fun i => eqs (sqlbase.idx_Name i) name)
          (sqlbase.PrimaryIndex desc :: sqlbase.Indexes desc) with
  | Some i => Ok (i, false)
  | None => Err (External "index does not exist")
  end.

Definition idx_with_IDs (id : sqlbase.IndexID) (ids : list sqlbase.ColumnID)
  (i : sqlbase.IndexDescriptor) : sqlbase.IndexDescriptor :=
  {| sqlbase.idx_Name := sqlbase.idx_Name i; sqlbase.idx_ID := id;
     sqlbase.idx_Unique := sqlbase.idx_Unique i;
     sqlbase.idx_ColumnNames := sqlbase.idx_ColumnNames i;
     sqlbase.idx_ColumnDirections := sqlbase.idx_ColumnDirections i;
     sqlbase.idx_StoreColumnNames := sqlbase.idx_StoreColumnNames i;
     sqlbase.idx_ColumnIDs := ids;
     sqlbase.idx_ForeignKey := sqlbase.idx_ForeignKey i;
     sqlbase.idx_ReferencedBy := sqlbase.idx_ReferencedBy i;
     sqlbase.idx_Interleave := sqlbase.idx_Interleave i;
     sqlbase.idx_InterleavedBy := sqlbase.idx_InterleavedBy i;
     sqlbase.idx_Partitioning := sqlbase.idx_Partitioning i |}.

Definition idx_with_Name (name : string) (i : sqlbase.IndexDescriptor)
  : sqlbase.IndexDescriptor :=
  {| sqlbase.idx_Name := name; sqlbase.idx_ID := sqlbase.idx_ID i;
     sqlbase.idx_Unique := sqlbase.idx_Unique i;
     sqlbase.idx_ColumnNames := sqlbase.idx_ColumnNames i;
     sqlbase.idx_ColumnDirections := sqlbase.idx_ColumnDirections i;
     sqlbase.idx_StoreColumnNames := sqlbase.idx_StoreColumnNames i;
     sqlbase.idx_ColumnIDs := sqlbase.idx_ColumnIDs i;
     sqlbase.idx_ForeignKey := sqlbase.idx_ForeignKey i;
     sqlbase.idx_ReferencedBy := sqlbase.idx_ReferencedBy i;
     sqlbase.idx_Interleave := sqlbase.idx_Interleave i;
     sqlbase.idx_InterleavedBy := sqlbase.idx_InterleavedBy i;
     sqlbase.idx_Partitioning := sqlbase.idx_Partitioning i |}.

Definition idx_with_columns (names : list string)
  (dirs : list sqlbase.IndexDescriptor_Direction)
  (i : sqlbase.IndexDescriptor) : sqlbase.IndexDescriptor :=
  {| sqlbase.idx_Name := sqlbase.idx_Name i; sqlbase.idx_ID := sqlbase.idx_ID i;
     sqlbase.idx_Unique := sqlbase.idx_Unique i;
     sqlbase.idx_ColumnNames := names;
     sqlbase.idx_ColumnDirections := dirs;
     sqlbase.idx_StoreColumnNames := sqlbase.idx_StoreColumnNames i;
     sqlbase.idx_ColumnIDs := sqlbase.idx_ColumnIDs i;
     sqlbase.idx_ForeignKey := sqlbase.idx_ForeignKey i;
     sqlbase.idx_ReferencedBy := sqlbase.idx_ReferencedBy i;
     sqlbase.idx_Interleave := sqlbase.idx_Interleave i;
     sqlbase.idx_InterleavedBy := sqlbase.idx_InterleavedBy i;
     sqlbase.idx_Partitioning := sqlbase.idx_Partitioning i |}.

(** Modelled from the spec: [AddIndex] stores the primary index, named
    primary unless the statement names it, and refuses a second one; it
    appends a secondary index. *)
Definition AddIndex_impl (desc : sqlbase.TableDescriptor)
  (idx : sqlbase.IndexDescriptor) (primary : bool)
  : result sqlbase.TableDescriptor :=
  if primary
  then
    if eqs (sqlbase.idx_Name (sqlbase.PrimaryIndex desc)) ""
    then Ok (sqlbase.with_PrimaryIndex
               (if eqs (sqlbase.idx_Name idx) ""
                then idx_with_Name "primary" idx else idx) desc)
    else Err (Errorf "multiple primary keys for table %q are not allowed"
                [sqlbase.Name desc])
  else Ok (sqlbase.with_Indexes (sqlbase.Indexes desc ++ [idx]) desc).

(** Modelled from the spec: [AllocateIDs] assigns monotonically increasing
    ids, starting at 1, to the columns and to the indexes that have none
    (the primary index first, then the secondary indexes in order), and
    fills the column ids of each index it numbers from the names of its
    columns. *)
Fixpoint allocateColumnIDs (cols : list sqlbase.ColumnDescriptor)
  (next : sqlbase.ColumnID)
  : list sqlbase.ColumnDescriptor * sqlbase.ColumnID :=
  match cols with
  | [] => ([], next)
  | c :: cols' =>
      if sqlbase.col_ID c =? 0
      then
        let '(rest, next') := allocateColumnIDs cols' (next + 1) in
        ({| sqlbase.col_Name := sqlbase.col_Name c; sqlbase.col_ID := next;
            sqlbase.col_Type := sqlbase.col_Type c;
            sqlbase.col_Nullable := sqlbase.col_Nullable c |} :: rest, next')
      else
        let '(rest, next') := allocateColumnIDs cols' next in
        (c :: rest, next')
  end.

Definition columnIDOf (cols : list sqlbase.ColumnDescriptor) (name : string)
  : sqlbase.ColumnID :=
  match List.find (fun c => eqs (sqlbase.col_Name c) name) cols with
  | Some c => sqlbase.col_ID c
  | None => 0
  end.

Fixpoint allocateIndexIDs (cols : list sqlbase.ColumnDescriptor)
  (idxs : list sqlbase.IndexDescriptor) (next : sqlbase.IndexID)
  : list sqlbase.IndexDescriptor * sqlbase.IndexID :=
  match idxs with
  | [] => ([], next)
  | i :: idxs' =>
      if sqlbase.idx_ID i =? 0
      then
        let '(rest, next') := allocateIndexIDs cols idxs' (next + 1) in
        (idx_with_IDs next
           (map (columnIDOf cols) (sqlbase.idx_ColumnNames i)) i :: rest,
         next')
      else
        let '(rest, next') := allocateIndexIDs cols idxs' next in
        (i :: rest, next')
  end.

Definition AllocateIDs_impl (desc : sqlbase.TableDescriptor)
  : result sqlbase.TableDescriptor :=
  let '(cols, nextCol) :=
    allocateColumnIDs (sqlbase.Columns desc)
      (Z.max 1 (sqlbase.NextColumnID desc)) in
  let '(idxs, nextIdx) :=
    allocateIndexIDs cols (sqlbase.PrimaryIndex desc :: sqlbase.Indexes desc)
      (Z.max 1 (sqlbase.NextIndexID desc)) in
  Ok {| sqlbase.Name := sqlbase.Name desc; sqlbase.ID_ := sqlbase.ID_ desc;
        sqlbase.ParentID := sqlbase.ParentID desc;
        sqlbase.Version := sqlbase.Version desc;
        sqlbase.FormatVersion := sqlbase.FormatVersion desc;
        sqlbase.ModificationTime := sqlbase.ModificationTime desc;
        sqlbase.Privileges := sqlbase.Privileges desc;
        sqlbase.State := sqlbase.State desc;
        sqlbase.Columns := cols;
        sqlbase.Families := sqlbase.Families desc;
        sqlbase.PrimaryIndex := hd (sqlbase.PrimaryIndex desc) idxs;
        sqlbase.Indexes := tail idxs;
        sqlbase.Mutations := sqlbase.Mutations desc;
        sqlbase.Checks := sqlbase.Checks desc;
        sqlbase.NextColumnID := nextCol;
        sqlbase.NextIndexID := nextIdx;
        sqlbase.NextMutationID := sqlbase.NextMutationID desc |}.

(** Modelled from the spec: [MakeColumnDefDescs] turns a column definition
    into a column descriptor and, for a column declared PRIMARY KEY or
    UNIQUE, a unique index on that column. *)
Definition MakeColumnDefDescs_impl (d : tree.ColumnTableDef)
  : result (sqlbase.ColumnDescriptor * option sqlbase.IndexDescriptor) :=
  let col :=
    {| sqlbase.col_Name := tree.col_Name d; sqlbase.col_ID := 0;
       sqlbase.col_Type :=
         {| sqlbase.SemanticType := if eqs (tree.col_Type d) "INT" then 1 else 7;
            sqlbase.Width := 0; sqlbase.Precision := 0 |};
       sqlbase.col_Nullable :=
         tree.col_Nullable d && negb (tree.col_PrimaryKey d) |} in
  Ok (col,
      if tree.col_PrimaryKey d || tree.col_Unique d
      then Some (idx_with_columns [tree.col_Name d]
                   [sqlbase.IndexDescriptor_ASC]
                   (sqlbase.idx_with_Unique true sqlbase.IndexDescriptor_zero))
      else None).

(** Modelled from the spec: [FillColumns] stores the names and the
    directions of the index elements. *)
Definition FillColumns_impl (idx : sqlbase.IndexDescriptor)
  (elems : list tree.IndexElem) : result sqlbase.IndexDescriptor :=
  Ok (idx_with_columns (map tree.Column elems)
        (map (fun e =>
                match tree.ie_Direction e with
                | tree.Descending => sqlbase.IndexDescriptor_DESC
                | _ => sqlbase.IndexDescriptor_ASC
                end) elems)
        idx).

Definition with_Version (v : Z) (t : sqlbase.TableDescriptor)
  : sqlbase.TableDescriptor :=
  {| sqlbase.Name := sqlbase.Name t; sqlbase.ID_ := sqlbase.ID_ t;
     sqlbase.ParentID := sqlbase.ParentID t;
     sqlbase.Version := v;
     sqlbase.FormatVersion := sqlbase.FormatVersion t;
     sqlbase.ModificationTime := sqlbase.ModificationTime t;
     sqlbase.Privileges := sqlbase.Privileges t;
     sqlbase.State := sqlbase.State t; sqlbase.Columns := sqlbase.Columns t;
     sqlbase.Families := sqlbase.Families t;
     sqlbase.PrimaryIndex := sqlbase.PrimaryIndex t;
     sqlbase.Indexes := sqlbase.Indexes t;
     sqlbase.Mutations := sqlbase.Mutations t;
     sqlbase.Checks := sqlbase.Checks t;
     sqlbase.NextColumnID := sqlbase.NextColumnID t;
     sqlbase.NextIndexID := sqlbase.NextIndexID t;
     sqlbase.NextMutationID := sqlbase.NextMutationID t |}.

Definition ColumnType_Equal_impl (a b : sqlbase.ColumnType) : bool :=
  (sqlbase.SemanticType a =? sqlbase.SemanticType b) &&
  (sqlbase.Width a =? sqlbase.Width b) &&
  (sqlbase.Precision a =? sqlbase.Precision b).

Definition sqlbaseOps : @SqlbaseOps treeOps :=
  {| FindActiveColumnByName := FindActiveColumnByName_impl;
     FindActiveColumnsByNames := FindActiveColumnsByNames_impl;
     FindColumnByID := FindColumnByID_impl;
     FindIndexByName := FindIndexByName_impl;
     IsSet := fun f => negb (sqlbase.fk_Table f =? 0);
     InterleavedFormatVersion := 3;
     ColumnType_Equal := ColumnType_Equal_impl;
     ToDatumType := fun t => pretty (sqlbase.SemanticType t);
     SemanticType_String := fun t => pretty t;
     ForeignKeyReferenceActionValue :=
       fun a =>
         match a with
         | tree.NoAction => sqlbase.ForeignKeyReference_NO_ACTION
         | tree.Restrict => sqlbase.ForeignKeyReference_RESTRICT
         | tree.SetNull => sqlbase.ForeignKeyReference_SET_NULL
         | tree.SetDefault => sqlbase.ForeignKeyReference_SET_DEFAULT
         | tree.Cascade => sqlbase.ForeignKeyReference_CASCADE
         end;
     IsVirtualTable := fun _ => false;
     AddColumn :=
       fun desc col =>
         sqlbase.with_Columns (sqlbase.Columns desc ++ [col]) desc;
     AddFamily := fun desc _ => desc;
     AddIndex := AddIndex_impl;
     AddIndexMutation := fun desc _ _ => Ok desc;
     AddColumnToFamilyMaybeCreate := fun desc _ _ _ _ => Ok desc;
     AllocateIDs := AllocateIDs_impl;
     ValidateTable := fun _ => None;
     UpdateIndexByID := fun desc _ _ => Ok desc;
     SetUpVersion := fun desc => Ok (with_Version (sqlbase.Version desc + 1) desc);
     FillColumns := FillColumns_impl;
     MakeColumnDefDescs := MakeColumnDefDescs_impl;
     IsTVector := fun _ => false;
     CheckColumnType := fun _ _ => None;
     EncodeTableValue := fun appendTo _ _ => Ok appendTo;
     SanitizeVarFreeExpr := fun _ _ _ => None |}.

(** The catalog that holds the tables of the list [tables]. *)
Definition getTableDesc_impl (tables : list sqlbase.TableDescriptor)
  (name : tree.TableName) : result (option sqlbase.TableDescriptor) :=
  Ok (List.find (fun t => eqs (sqlbase.Name t) (tree.Table name)) tables).

Definition catalog (tables : list sqlbase.TableDescriptor) : Catalog :=
  {| getTableDesc := getTableDesc_impl tables;
     MustGetTableDesc :=
       fun name _ =>
         match List.find (fun t => eqs (sqlbase.Name t) (tree.Table name))
                 tables with
         | Some t => Ok t
         | None => Err (External "table does not exist")
         end |}.

(** The planner's collaborators: the caller is the superuser when the user of
    the session is root; the executor reports [rows] rows and the error
    [err]. *)
Definition plannerOps (rows : Z) (err : option error) : PlannerOps :=
  {| RequireSuperUser :=
       fun p action =>
         if eqs (User (p_session p)) "root" then None
         else Some (Errorf "only %s is allowed to %s" ["root"; action]);
     createSchemaChangeJob :=
       fun p desc stmt =>
         Ok (desc, sqlbase.NextMutationID desc,
             emit (SchemaChangeJobCreated (sqlbase.ID_ desc) stmt
                     (sqlbase.NextMutationID desc)) p);
     writeTableDesc := fun p desc => Ok (emit (TableDescWritten desc) p);
     InsertEventRecord :=
       fun p kind target info =>
         Ok (emit (EventRecordInserted kind target info) p);
     notifySchemaChange :=
       fun p desc id => emit (SchemaChangeNotified (sqlbase.ID_ desc) id) p;
     GetTableDescFromID := fun _ _ => Err (External "not found");
     CreateIndex_AsString := fun n => "CREATE INDEX " +:+ tree.ci_Name n;
     CreateIndex_String := fun n => "CREATE INDEX " +:+ tree.ci_Name n;
     ExecuteStatementInTransaction :=
       fun p opName stmt username hashedPassword =>
         (rows, err,
          emit (StatementExecuted opName stmt username hashedPassword) p);
     IsUniquenessConstraintViolationError :=
       fun e => match e with PgErrorf "23505" _ _ => true | _ => false end;
     usernameRE_MatchString := fun s => negb (eqs s "");
     blacklistedUsernames := fun s => eqs s "node";
     HashPassword := fun _ => Ok [Byte.x24];
     ErrEmptyPassword := Errorf "empty passwords are not permitted" [] |}.

End Sample.

(** ** Notions used in the statements *)

(** The columns [cols] are exactly the key columns of [idx]. *)
Definition exactMatch (cols : list sqlbase.ColumnDescriptor)
  (idx : sqlbase.IndexDescriptor) : Prop :=
  sqlbase.idx_ColumnIDs idx = map sqlbase.col_ID cols.

(** The columns [cols] are the first key columns of [idx]. *)
Definition prefixMatch (cols : list sqlbase.ColumnDescriptor)
  (idx : sqlbase.IndexDescriptor) : Prop :=
  exists rest, sqlbase.idx_ColumnIDs idx = map sqlbase.col_ID cols ++ rest.

(** The options of a CREATE DATABASE that the planner accepts. *)
Definition templateAccepted (tmpl : string) : Prop :=
  tmpl = "" \/ EqualFold tmpl "template0" = true.

Definition encodingAccepted (enc : string) : Prop :=
  enc = "" \/ EqualFold enc "UTF8" = true \/ EqualFold enc "UTF-8" = true \/
  EqualFold enc "UNICODE" = true.

Definition localeAccepted (loc : string) : Prop :=
  loc = "" \/ loc = "C" \/ loc = "C.UTF-8".

(** [idx], at position [i] of [idxs], is the first index of the list that
    [cols] prefix-match. *)
Definition firstPrefixMatch (cols : list sqlbase.ColumnDescriptor)
  (idxs : list sqlbase.IndexDescriptor) (i : nat)
  (idx : sqlbase.IndexDescriptor) : Prop :=
  idxs !! i = Some idx /\ prefixMatch cols idx /\
  forall j idx', (j < i)%nat -> idxs !! j = Some idx' ->
    ~ prefixMatch cols idx'.

(** ** Concrete statements and tables *)

Module Examples.

Definition intType : sqlbase.ColumnType :=
  {| sqlbase.SemanticType := 1; sqlbase.Width := 0; sqlbase.Precision := 0 |}.

Definition column (name : string) (id : Z) : sqlbase.ColumnDescriptor :=
  {| sqlbase.col_Name := name; sqlbase.col_ID := id;
     sqlbase.col_Type := intType; sqlbase.col_Nullable := true |}.

Definition index (name : string) (id : Z) (unique : bool)
  (cols : list sqlbase.ColumnDescriptor) : sqlbase.IndexDescriptor :=
  {| sqlbase.idx_Name := name; sqlbase.idx_ID := id;
     sqlbase.idx_Unique := unique;
     sqlbase.idx_ColumnNames := map sqlbase.col_Name cols;
     sqlbase.idx_ColumnDirections :=
       map (fun _ => sqlbase.IndexDescriptor_ASC) cols;
     sqlbase.idx_StoreColumnNames := [];
     sqlbase.idx_ColumnIDs := map sqlbase.col_ID cols;
     sqlbase.idx_ForeignKey := sqlbase.ForeignKeyReference_zero;
     sqlbase.idx_ReferencedBy := [];
     sqlbase.idx_Interleave := {| sqlbase.Ancestors := [] |};
     sqlbase.idx_InterleavedBy := [];
     sqlbase.idx_Partitioning := sqlbase.PartitioningDescriptor_zero |}.

Definition table (name : string) (id : Z)
  (cols : list sqlbase.ColumnDescriptor) (primary : sqlbase.IndexDescriptor)
  (indexes : list sqlbase.IndexDescriptor) : sqlbase.TableDescriptor :=
  {| sqlbase.Name := name; sqlbase.ID_ := id; sqlbase.ParentID := 50;
     sqlbase.Version := 1; sqlbase.FormatVersion := 3;
     sqlbase.ModificationTime := 0; sqlbase.Privileges := "";
     sqlbase.State := sqlbase.TableDescriptor_PUBLIC;
     sqlbase.Columns := cols; sqlbase.Families := [];
     sqlbase.PrimaryIndex := primary; sqlbase.Indexes := indexes;
     sqlbase.Mutations := []; sqlbase.Checks := [];
     sqlbase.NextColumnID := len cols + 1;
     sqlbase.NextIndexID := len indexes + 2;
     sqlbase.NextMutationID := 1 |}.

Definition tableName (name : string) : tree.NormalizableTableName :=
  {| tree.TableNameReference :=
       Some {| tree.DatabaseName := "db"; tree.Table := name |} |}.

Definition noActions : tree.ReferenceActions :=
  {| tree.Delete := tree.NoAction; tree.Update := tree.NoAction |}.

Definition foreignKey (from : list string) (target : string)
  (to : list string) : tree.ForeignKeyConstraintTableDef :=
  {| tree.fk_Name := ""; tree.fk_Table := tableName target;
     tree.fk_FromCols := from; tree.fk_ToCols := to;
     tree.fk_Actions := noActions |}.

(** A foreign key that is set, on the index 1 of table 60. *)
Definition someFK : sqlbase.ForeignKeyReference :=
  {| sqlbase.fk_Table := 60; sqlbase.fk_Index := 1;
     sqlbase.fk_Name := "fk_a_ref_q";
     sqlbase.fk_Validity := sqlbase.ConstraintValidity_Validated;
     sqlbase.fk_SharedPrefixLen := 1;
     sqlbase.fk_OnDelete := sqlbase.ForeignKeyReference_NO_ACTION;
     sqlbase.fk_OnUpdate := sqlbase.ForeignKeyReference_NO_ACTION |}.

(** Table p (x INT PRIMARY KEY), table q (x INT, y INT, PRIMARY KEY (x, y)). *)
Definition p : sqlbase.TableDescriptor :=
  table "p" 51 [column "x" 1] (index "primary" 1 true [column "x" 1]) [].

Definition q : sqlbase.TableDescriptor :=
  table "q" 60 [column "x" 1; column "y" 2]
    (index "primary" 1 true [column "x" 1; column "y" 2]) [].

(** Table t (a INT PRIMARY KEY, b INT) with an index on (b). *)
Definition t : sqlbase.TableDescriptor :=
  table "t" 52 [column "a" 1; column "b" 2]
    (index "primary" 1 true [column "a" 1])
    [index "t_b_idx" 2 false [column "b" 2]].

(** Table t whose primary index on (a) carries a foreign key already, with
    a secondary index on (a) that carries none. *)
Definition t_taken : sqlbase.TableDescriptor :=
  table "t" 52 [column "a" 1; column "b" 2]
    (sqlbase.idx_with_ForeignKey someFK
       (index "primary" 1 true [column "a" 1]))
    [index "t_a_idx" 2 false [column "a" 1]].

(** Table parent (pid INT PRIMARY KEY), and the table of
    CREATE TABLE child (pid INT, cid INT, PRIMARY KEY (pid, cid))
    INTERLEAVE IN PARENT parent (pid). *)
Definition parent : sqlbase.TableDescriptor :=
  table "parent" 53 [column "pid" 1]
    (index "primary" 1 true [column "pid" 1]) [].

Definition child : sqlbase.TableDescriptor :=
  table "child" 54 [column "pid" 1; column "cid" 2]
    (index "primary" 1 true [column "pid" 1; column "cid" 2]) [].

Definition interleaveInParent : tree.InterleaveDef :=
  {| tree.Parent := tableName "parent"; tree.Fields := ["pid"];
     tree.idef_DropBehavior := tree.DropDefault |}.

Definition columnDef (name : string) : tree.ColumnTableDef :=
  {| tree.col_Name := name; tree.col_Type := "INT";
     tree.col_Nullable := true; tree.col_PrimaryKey := false;
     tree.col_Unique := false; tree.col_DefaultExpr := None;
     tree.col_CheckExprs := [];
     tree.col_References :=
       {| tree.ref_Table := {| tree.TableNameReference := None |};
          tree.ref_Col := ""; tree.ref_ConstraintName := "";
          tree.ref_Actions := noActions |};
     tree.col_Family :=
       {| tree.fam_Name := ""; tree.fam_Create := false;
          tree.fam_IfNotExists := false |} |}.

Definition primaryKey (cols : list string) : tree.UniqueConstraintTableDef :=
  {| tree.uniq_IndexTableDef :=
       {| tree.idx_Name := "";
          tree.idx_Columns :=
            map (fun c => {| tree.Column := c;
                             tree.ie_Direction := tree.DefaultDirection |})
                cols;
          tree.idx_Storing := []; tree.idx_Interleave := None;
          tree.idx_PartitionBy := None |};
     tree.uniq_PrimaryKey := true |}.

Definition createTable (name : string) (defs : tree.TableDefs)
  : tree.CreateTable :=
  {| tree.ct_IfNotExists := false; tree.ct_Table := tableName name;
     tree.ct_Interleave := None; tree.ct_PartitionBy := None;
     tree.ct_Defs := defs; tree.ct_AsSource := None;
     tree.ct_AsColumnNames := [] |}.

(** CREATE TABLE t (a INT, b INT, c INT, PRIMARY KEY (a, b),
      FOREIGN KEY (a) REFERENCES p (x),
      FOREIGN KEY (a, c) REFERENCES q (x, y)) *)
Definition createTable_two_fks : tree.CreateTable :=
  createTable "t"
    [tree.ColumnDef (columnDef "a"); tree.ColumnDef (columnDef "b");
     tree.ColumnDef (columnDef "c");
     tree.UniqueConstraintDef (primaryKey ["a"; "b"]);
     tree.ForeignKeyConstraintDef (foreignKey ["a"] "p" ["x"]);
     tree.ForeignKeyConstraintDef (foreignKey ["a"; "c"] "q" ["x"; "y"])].

(** The expressions a > 0 and a < 10. *)
Definition var (name : string) : tree.Expr :=
  tree.VarName {| tree.NameParts := [name] |}.

Definition a_gt_0 : tree.Expr := tree.Node ">" [var "a"; tree.Node "0" []].
Definition a_lt_10 : tree.Expr := tree.Node "<" [var "a"; tree.Node "10" []].

Definition check (name : string) (e : tree.Expr) : tree.TableDef :=
  tree.CheckConstraintDef {| tree.ck_Name := name; tree.ck_Expr := e |}.

(** CREATE TABLE t (a INT, CHECK (a > 0), CHECK (a < 10)) *)
Definition createTable_two_checks : tree.CreateTable :=
  createTable "t"
    [tree.ColumnDef (columnDef "a"); check "" a_gt_0; check "" a_lt_10].

(** CREATE TABLE t (a INT, CONSTRAINT check_a CHECK (a > 0), CHECK (a < 10)) *)
Definition createTable_named_check : tree.CreateTable :=
  createTable "t"
    [tree.ColumnDef (columnDef "a"); check "check_a" a_gt_0;
     check "" a_lt_10].

(** CREATE TABLE foo (a INT CHECK (a > 0) REFERENCES bar (a)) *)
Definition createTable_inline : tree.CreateTable :=
  createTable "foo"
    [tree.ColumnDef
       (tree.col_with_CheckExprs
          [{| tree.cc_Expr := a_gt_0; tree.cc_ConstraintName := "" |}]
          (tree.col_with_References_Table (tableName "bar")
             {| tree.col_Name := "a"; tree.col_Type := "INT";
                tree.col_Nullable := true; tree.col_PrimaryKey := false;
                tree.col_Unique := false; tree.col_DefaultExpr := None;
                tree.col_CheckExprs := [];
                tree.col_References :=
                  {| tree.ref_Table := {| tree.TableNameReference := None |};
                     tree.ref_Col := "a"; tree.ref_ConstraintName := "";
                     tree.ref_Actions := noActions |};
                tree.col_Family :=
                  {| tree.fam_Name := ""; tree.fam_Create := false;
                     tree.fam_IfNotExists := false |} |}))].

(** CREATE INDEX [IF NOT EXISTS] t_b_idx ON t (b), on the table t above,
    which has an index of that name. *)
Definition createIndex_t_b (ifNotExists : bool) : createIndexNode :=
  {| cin_n :=
       {| tree.ci_Name := "t_b_idx"; tree.ci_Table := tableName "t";
          tree.ci_Unique := false; tree.ci_IfNotExists := ifNotExists;
          tree.ci_Columns :=
            [{| tree.Column := "b";
                tree.ie_Direction := tree.DefaultDirection |}];
          tree.ci_Storing := []; tree.ci_Interleave := None;
          tree.ci_PartitionBy := None |};
     cin_tableDesc := t |}.

(** CREATE DATABASE db1 ENCODING = enc *)
Definition createDatabase_db1 (enc : string) : tree.CreateDatabase :=
  {| tree.cd_IfNotExists := false; tree.cd_Name := "db1";
     tree.cd_Template := ""; tree.cd_Encoding := enc;
     tree.cd_Collate := ""; tree.cd_CType := "" |}.

(** The session of root, before any effect; the statements
    CREATE USER alice and ALTER USER alice WITH PASSWORD 'secret'. *)
Definition rootPlanner : planner :=
  {| p_session := {| User := "root"; Database := "db" |}; p_effects := [] |}.

Definition createUser_alice : createUserNode :=
  {| cun_ifNotExists := false; cun_rowsAffected := 0;
     cun_userAuthInfo := {| ua_name := Ok "alice"; ua_password := None |} |}.

Definition alterUser_alice : alterUserSetPasswordNode :=
  {| aun_userAuthInfo :=
       {| ua_name := Ok "alice"; ua_password := Some (Ok "secret") |};
     aun_ifExists := false; aun_rowsAffected := 0 |}.

End Examples.

(** The sum of the [SharedPrefixLen] of a list of ancestors. *)
Definition sharedPrefixSum
  (ancestors : list sqlbase.InterleaveDescriptor_Ancestor) : Z :=
  foldr Z.add 0 (map sqlbase.anc_SharedPrefixLen ancestors).

(** Position [i] of an interleave declaration agrees with the child index and
    with the primary index of the parent: the declared field is the name of
    the column of the child index at [i], the type of that column equals the
    type of the parent's column at [i], and the two directions are the
    same. *)
Definition interleaveFieldMatches {treeOps : TreeOps}
  {sqlbaseOps : SqlbaseOps}
  (parentTable desc : sqlbase.TableDescriptor)
  (parentIndex index : sqlbase.IndexDescriptor) (fields : tree.NameList)
  (i : nat) : Prop :=
  exists field colID col targetColID targetCol dir,
    fields !! i = Some field /\
    sqlbase.idx_ColumnIDs index !! i = Some colID /\
    FindColumnByID desc colID = Ok col /\
    sqlbase.idx_ColumnIDs parentIndex !! i = Some targetColID /\
    FindColumnByID parentTable targetColID = Ok targetCol /\
    field = sqlbase.col_Name col /\
    ColumnType_Equal (sqlbase.col_Type col) (sqlbase.col_Type targetCol)
      = true /\
    sqlbase.idx_ColumnDirections index !! i = Some dir /\
    sqlbase.idx_ColumnDirections parentIndex !! i = Some dir.

(** The tuple that [valueEncodePartitionTuple] encodes: the expression
    without its enclosing parentheses if that is a tuple, else the 1-tuple
    of it. *)
Definition partitionTuple (maybeTuple : tree.Expr) : list tree.Expr :=
  match tree.StripParens maybeTuple with
  | tree.Tuple exprs => exprs
  | e => [e]
  end.

Definition isTuple (e : tree.Expr) : bool :=
  match e with tree.Tuple _ => true | _ => false end.

Definition failed {A : Type} (r : result A) : Prop := exists e, r = Err e.

(** The reserved encoding: the NOT NULL value tag with no column id,
    appended to [value]. *)
Definition notNullTag {encodingOps : EncodingOps} (value : sqlbase.bytes)
  : sqlbase.bytes :=
  EncodeNotNullValue value NoColumnID.

(** The columns that the check of [MakeTableDesc] counts for the foreign key
    of the index [idx]: the first [SharedPrefixLen] columns of the index
    when that is positive, else all its columns. *)
Definition foreignKeyColumns (idx : sqlbase.IndexDescriptor)
  : list sqlbase.ColumnID :=
  let n := sqlbase.fk_SharedPrefixLen (sqlbase.idx_ForeignKey idx) in
  if 0 <? n then take (Z.to_nat n) (sqlbase.idx_ColumnIDs idx)
  else sqlbase.idx_ColumnIDs idx.

(** The statements of the user catalog. *)
Definition createUserStmt : string :=
  "INSERT INTO system.users VALUES ($1, $2);".

Definition alterUserStmt : string :=
  "UPDATE system.users SET " +:+ dquote +:+ "hashedPassword" +:+ dquote +:+
  " = $2 WHERE username = $1".

(** The variable names of an expression, in the order in which the walk
    meets them. *)
Fixpoint varNames (e : tree.Expr) : list tree.UnresolvedName :=
  match e with
  | tree.VarName v => [v]
  | tree.ParenExpr e => varNames e
  | tree.Tuple es | tree.Node _ es => flat_map varNames es
  | _ => []
  end.

(** The column of the table that a variable name refers to, when it is a
    column item whose column is found. *)
Definition columnOf {treeOps : TreeOps} {sqlbaseOps : SqlbaseOps}
  (desc : sqlbase.TableDescriptor) (v : tree.UnresolvedName)
  : option sqlbase.ColumnDescriptor :=
  match NormalizeVarName v with
  | Ok (tree.ColumnItem _ columnName) =>
      match FindActiveColumnByName desc columnName with
      | Ok col => Some col
      | Err _ => None
      end
  | _ => None
  end.

(** [_col1_col2...] for a list of columns. *)
Definition underscored (cols : list sqlbase.ColumnDescriptor) : string :=
  foldr (fun col s => "_" +:+ sqlbase.col_Name col +:+ s) "" cols.

(** The name synthesized for an unnamed check constraint, before any
    suffix: check, followed by _col for each referenced column. *)
Definition checkName {treeOps : TreeOps} {sqlbaseOps : SqlbaseOps}
  (desc : sqlbase.TableDescriptor) (e : tree.Expr) : string :=
  "check" +:+ underscored (omap (columnOf desc) (varNames e)).

(** [name] is [base] made unique among [inuse]: [base] itself when it is not
    in use, else [base] followed by the smallest number from 1 on that gives
    a name not in use. *)
Definition freshCheckName (base : string) (inuse : nameSet) (name : string)
  : Prop :=
  nameSet_has name inuse = false /\
  ((nameSet_has base inuse = false /\ name = base) \/
   (nameSet_has base inuse = true /\
    exists i, 1 <= i /\ name = base +:+ pretty i /\
      forall j, 1 <= j < i -> nameSet_has (base +:+ pretty j) inuse = true)).

(** A definition that carries no inline constraint: every definition that is
    not a column, and a column whose list of check expressions is empty and
    whose inline [References.Table] is not set. *)
Definition hoisted (d : tree.TableDef) : Prop :=
  match d with
  | tree.ColumnDef col =>
      tree.col_CheckExprs col = [] /\
      tree.TableNameReference (tree.ref_Table (tree.col_References col)) = None
  | _ => True
  end.
(** ** Fields of the partitioning types *)

(** The fields of [tree.PartitionBy], [tree.ListPartition] and
    [tree.RangePartition]. *)
Definition PartitionBy_Fields (p : tree.PartitionBy) : tree.NameList :=
  match p with tree.Build_PartitionBy fields _ _ => fields end.

Definition PartitionBy_List (p : tree.PartitionBy)
  : list tree.ListPartition :=
  match p with tree.Build_PartitionBy _ listParts _ => listParts end.

Definition PartitionBy_Range (p : tree.PartitionBy)
  : list tree.RangePartition :=
  match p with tree.Build_PartitionBy _ _ rangeParts => rangeParts end.

Definition ListPartition_Name (l : tree.ListPartition) : tree.Name :=
  match l with tree.Build_ListPartition name _ _ => name end.

Definition ListPartition_Exprs (l : tree.ListPartition) : list tree.Expr :=
  match l with tree.Build_ListPartition _ exprs _ => exprs end.

Definition ListPartition_Subpartition (l : tree.ListPartition)
  : option tree.PartitionBy :=
  match l with tree.Build_ListPartition _ _ sub => sub end.

Definition RangePartition_Name (r : tree.RangePartition) : tree.Name :=
  match r with tree.Build_RangePartition name _ _ => name end.

Definition RangePartition_Expr (r : tree.RangePartition) : tree.Expr :=
  match r with tree.Build_RangePartition _ expr _ => expr end.

Definition RangePartition_Subpartition (r : tree.RangePartition)
  : option tree.PartitionBy :=
  match r with tree.Build_RangePartition _ _ sub => sub end.

(** The fields of [sqlbase.PartitioningDescriptor] and
    [sqlbase.PartitioningDescriptor_List]. *)
Definition PartitioningDescriptor_NumColumns
  (p : sqlbase.PartitioningDescriptor) : Z :=
  match p with sqlbase.Build_PartitioningDescriptor n _ _ => n end.

Definition PartitioningDescriptor_List (p : sqlbase.PartitioningDescriptor)
  : list sqlbase.PartitioningDescriptor_List :=
  match p with sqlbase.Build_PartitioningDescriptor _ l _ => l end.

Definition PartitioningDescriptor_Range (p : sqlbase.PartitioningDescriptor)
  : list sqlbase.PartitioningDescriptor_Range :=
  match p with sqlbase.Build_PartitioningDescriptor _ _ r => r end.

Definition PartitioningDescriptor_List_Name
  (l : sqlbase.PartitioningDescriptor_List) : string :=
  match l with sqlbase.Build_PartitioningDescriptor_List name _ _ => name end.

Definition PartitioningDescriptor_List_Values
  (l : sqlbase.PartitioningDescriptor_List) : list sqlbase.bytes :=
  match l with sqlbase.Build_PartitioningDescriptor_List _ values _ => values end.

Definition PartitioningDescriptor_List_Subpartitioning
  (l : sqlbase.PartitioningDescriptor_List) : sqlbase.PartitioningDescriptor :=
  match l with sqlbase.Build_PartitioningDescriptor_List _ _ sub => sub end.

(** PARTITION BY LIST (a) (PARTITION p1 VALUES IN (DEFAULT)) *)
Definition partitionByList_a : tree.PartitionBy :=
  tree.Build_PartitionBy ["a"]
    [tree.Build_ListPartition "p1" [tree.DefaultVal] None] [].

(** ** Notions used in the further properties *)

(** The CHECK definitions of a list of table definitions, in order. *)
Definition checkDefs (defs : list tree.TableDef)
  : list tree.CheckConstraintTableDef :=
  omap (fun d => match d with
                 | tree.CheckConstraintDef c => Some c
                 | _ => None
                 end) defs.

(** The names among [cks] that were generated: those of the constraints
    whose definition, at the same position of [ds], has no name. *)
Definition generatedCheckNames (ds : list tree.CheckConstraintTableDef)
  (cks : list sqlbase.TableDescriptor_CheckConstraint) : list string :=
  omap (fun p => if eqs (tree.ck_Name (fst p)) ""
                 then Some (sqlbase.ck_Name (snd p)) else None)
       (zip ds cks).

(** [i'] is the index [i] with back-references added: the two agree but for
    [ReferencedBy], which in [i'] extends that of [i]. *)
Definition indexBackrefsAdded (i i' : sqlbase.IndexDescriptor) : Prop :=
  sqlbase.idx_with_ReferencedBy (sqlbase.idx_ReferencedBy i) i' = i /\
  sqlbase.idx_ReferencedBy i `prefix_of` sqlbase.idx_ReferencedBy i'.

(** [t'] is the table [t] with back-references added to its indexes, and
    nothing else changed. *)
Definition backrefsAdded (t t' : sqlbase.TableDescriptor) : Prop :=
  sqlbase.with_Indexes (sqlbase.Indexes t)
    (sqlbase.with_PrimaryIndex (sqlbase.PrimaryIndex t) t') = t /\
  indexBackrefsAdded (sqlbase.PrimaryIndex t) (sqlbase.PrimaryIndex t') /\
  Forall2 indexBackrefsAdded (sqlbase.Indexes t) (sqlbase.Indexes t').


(** * Properties *)

(** ** The error monad *)

Lemma bind_ok {A B : Type} (r : result A) (k : A -> result B) (b : B) :
  bind r k = Ok b -> exists a, r = Ok a /\ k a = Ok b.
Proof. destruct r as [a|e]; simpl; intros Hk; [eauto | discriminate]. Qed.

Lemma check_ok (e : option error) : check e = Ok tt <-> e = None.
Proof. destruct e; simpl; split; intros Hc; congruence. Qed.

Lemma eqs_true (a b : string) : eqs a b = true <-> a = b.
Proof. unfold eqs. apply bool_decide_eq_true. Qed.

Lemma eqs_false (a b : string) : eqs a b = false <-> a <> b.
Proof. unfold eqs. apply bool_decide_eq_false. Qed.

Lemma eqs_refl (a : string) : eqs a a = true.
Proof. by apply eqs_true. Qed.

(** ** CREATE DATABASE *)

Section CreateDatabaseProperties.
Context {plannerOps : PlannerOps}.

Lemma templateAccepted_dec (tmpl : string) :
  negb (eqs tmpl "") && negb (EqualFold tmpl "template0") = false <->
  templateAccepted tmpl.
Proof.
  unfold templateAccepted. destruct (eqs tmpl "") eqn:He; simpl.
  - apply eqs_true in He. tauto.
  - apply eqs_false in He. destruct (EqualFold tmpl "template0"); simpl;
      intuition congruence.
Qed.

Lemma encodingAccepted_dec (enc : string) :
  negb (eqs enc "") &&
  negb (EqualFold enc "UTF8" || EqualFold enc "UTF-8" ||
        EqualFold enc "UNICODE") = false <->
  encodingAccepted enc.
Proof.
  unfold encodingAccepted. destruct (eqs enc "") eqn:He; simpl.
  - apply eqs_true in He. tauto.
  - apply eqs_false in He.
    destruct (EqualFold enc "UTF8"), (EqualFold enc "UTF-8"),
      (EqualFold enc "UNICODE"); simpl; intuition congruence.
Qed.

Lemma localeAccepted_dec (loc : string) :
  negb (eqs loc "") && (negb (eqs loc "C") && negb (eqs loc "C.UTF-8")) = false
  <-> localeAccepted loc.
Proof.
  unfold localeAccepted.
  destruct (eqs loc "") eqn:H0; destruct (eqs loc "C") eqn:H1;
    destruct (eqs loc "C.UTF-8") eqn:H2; simpl;
    rewrite ?eqs_true, ?eqs_false in *; intuition congruence.
Qed.

(** C8.  [CreateDatabase] returns a plan node, which holds the statement,
    exactly when the name is not empty, the template is absent or
    case-insensitively template0, the encoding is absent or one of UTF8,
    UTF-8, UNICODE case-insensitively, collate and ctype are each absent, C
    or C.UTF-8, and the caller is the superuser; in every other case it
    returns an error and no node.  The encoding LATIN1 is rejected with the
    message "unsupported encoding: LATIN1". *)
Theorem CreateDatabase_accepts (p : planner) (n : tree.CreateDatabase) :
  (CreateDatabase p n = Ok {| cdn_n := n |} <->
     tree.cd_Name n <> "" /\
     templateAccepted (tree.cd_Template n) /\
     encodingAccepted (tree.cd_Encoding n) /\
     localeAccepted (tree.cd_Collate n) /\
     localeAccepted (tree.cd_CType n) /\
     RequireSuperUser p "CREATE DATABASE" = None) /\
  (forall node, CreateDatabase p n = Ok node -> node = {| cdn_n := n |}) /\
  (CreateDatabase p n = Ok {| cdn_n := n |} \/
   exists e, CreateDatabase p n = Err e) /\
  (tree.cd_Name n <> "" -> templateAccepted (tree.cd_Template n) ->
   tree.cd_Encoding n = "LATIN1" ->
   exists e, CreateDatabase p n = Err e /\
             Error e = "unsupported encoding: LATIN1").
Proof.
  assert (Hiff : CreateDatabase p n = Ok {| cdn_n := n |} <->
     tree.cd_Name n <> "" /\
     templateAccepted (tree.cd_Template n) /\
     encodingAccepted (tree.cd_Encoding n) /\
     localeAccepted (tree.cd_Collate n) /\
     localeAccepted (tree.cd_CType n) /\
     RequireSuperUser p "CREATE DATABASE" = None).
  { unfold CreateDatabase.
    rewrite <- templateAccepted_dec, <- encodingAccepted_dec,
      <- !localeAccepted_dec, <- eqs_false.
    destruct (eqs (tree.cd_Name n) ""); [intuition discriminate|].
    destruct (negb (eqs (tree.cd_Template n) "") && _);
      simpl; [intuition discriminate|].
    destruct (negb (eqs (tree.cd_Encoding n) "") && _);
      simpl; [intuition discriminate|].
    destruct (negb (eqs (tree.cd_Collate n) "") && _);
      simpl; [intuition discriminate|].
    destruct (negb (eqs (tree.cd_CType n) "") && _);
      simpl; [intuition discriminate|].
    destruct (RequireSuperUser p "CREATE DATABASE"); simpl;
      intuition discriminate. }
  assert (Hnode : forall node,
            CreateDatabase p n = Ok node -> node = {| cdn_n := n |}).
  { unfold CreateDatabase. intros node.
    repeat match goal with
           | |- context [if ?b then _ else _] => destruct b; simpl
           end; try discriminate.
    destruct (RequireSuperUser p "CREATE DATABASE"); simpl;
      [discriminate | congruence]. }
  split; [exact Hiff|]. split; [exact Hnode|]. split.
  - destruct (CreateDatabase p n) as [node|e] eqn:Hr.
    + left. f_equal. by apply Hnode.
    + right. eauto.
  - intros Hname Htmpl Henc.
    apply eqs_false in Hname. apply templateAccepted_dec in Htmpl.
    unfold CreateDatabase. rewrite Hname, Htmpl, Henc. simpl.
    eexists; split; reflexivity.
Qed.

End CreateDatabaseProperties.

(** C8 at CREATE DATABASE db1 ENCODING = 'UTF-8' as root, which is planned,
    and at ENCODING = 'LATIN1', which is rejected. *)
Lemma CreateDatabase_accepts_witness :
  (CreateDatabase (plannerOps := Sample.plannerOps 0 None)
     Examples.rootPlanner (Examples.createDatabase_db1 "UTF-8") =
     Ok {| cdn_n := Examples.createDatabase_db1 "UTF-8" |}) /\
  (exists e,
     CreateDatabase (plannerOps := Sample.plannerOps 0 None)
       Examples.rootPlanner (Examples.createDatabase_db1 "LATIN1") = Err e /\
     Error e = "unsupported encoding: LATIN1").
Proof.
  split.
  - apply (proj1 (CreateDatabase_accepts
                    (plannerOps := Sample.plannerOps 0 None)
                    Examples.rootPlanner
                    (Examples.createDatabase_db1 "UTF-8"))).
    unfold templateAccepted, encodingAccepted, localeAccepted. simpl.
    repeat split; auto.
  - apply (proj2 (proj2 (proj2 (CreateDatabase_accepts
                    (plannerOps := Sample.plannerOps 0 None)
                    Examples.rootPlanner
                    (Examples.createDatabase_db1 "LATIN1")))));
      [done | by left | done].
Defined.

(** ** Matching columns against an index *)

Lemma len_eqb {A B : Type} (l : list A) (l' : list B) :
  (len l =? len l') = true <-> length l = length l'.
Proof. unfold len. rewrite Z.eqb_eq. lia. Qed.

Lemma matchesIndex_loop_prefix (cols : list sqlbase.ColumnDescriptor)
  (ids : list sqlbase.ColumnID) :
  matchesIndex_loop cols ids = true <->
  exists rest, ids = map sqlbase.col_ID cols ++ rest.
Proof.
  revert ids. induction cols as [|c cols IH]; intros ids; simpl.
  - split; [eauto | done].
  - destruct ids as [|i ids].
    + split; [done | intros [rest Hrest]; discriminate].
    + destruct (sqlbase.col_ID c =? i) eqn:Hci; simpl.
      * apply Z.eqb_eq in Hci. subst i. rewrite IH.
        split; intros [rest Hrest]; exists rest; simpl in *; congruence.
      * apply Z.eqb_neq in Hci.
        split; [done | intros [rest Hrest]; simpl in Hrest; congruence].
Qed.

Lemma matchesIndex_prefix (cols : list sqlbase.ColumnDescriptor)
  (idx : sqlbase.IndexDescriptor) :
  matchesIndex cols idx matchPrefix = true <-> prefixMatch cols idx.
Proof.
  unfold matchesIndex, prefixMatch, matchPrefix. simpl.
  rewrite orb_false_r.
  destruct (len (sqlbase.idx_ColumnIDs idx) <? len cols) eqn:Hlen.
  - apply Z.ltb_lt in Hlen. unfold len in Hlen.
    split; [done | intros [rest Hrest]].
    rewrite Hrest, length_app, length_map in Hlen. lia.
  - apply matchesIndex_loop_prefix.
Qed.

Lemma matchesIndex_exact (cols : list sqlbase.ColumnDescriptor)
  (idx : sqlbase.IndexDescriptor) :
  matchesIndex cols idx matchExact = true <-> exactMatch cols idx.
Proof.
  unfold matchesIndex, exactMatch, matchExact. simpl.
  destruct (len (sqlbase.idx_ColumnIDs idx) <? len cols) eqn:Hlt; simpl.
  - apply Z.ltb_lt in Hlt. unfold len in Hlt.
    split; [done | intros Hids].
    rewrite Hids, length_map in Hlt. lia.
  - destruct (len cols =? len (sqlbase.idx_ColumnIDs idx)) eqn:Heq; simpl.
    + apply len_eqb in Heq. rewrite matchesIndex_loop_prefix.
      split.
      * intros [rest Hrest]. rewrite Hrest in Heq |- *.
        rewrite length_app, length_map in Heq.
        destruct rest; [by rewrite app_nil_r | simpl in Heq; lia].
      * intros Hids. exists []. by rewrite app_nil_r.
    + split; [done | intros Hids].
      rewrite Hids in Heq. unfold len in Heq.
      rewrite length_map, Z.eqb_refl in Heq. discriminate.
Qed.

Lemma matchesIndex_exact_false (cols : list sqlbase.ColumnDescriptor)
  (idx : sqlbase.IndexDescriptor) :
  matchesIndex cols idx matchExact = false <-> ~ exactMatch cols idx.
Proof.
  rewrite <- matchesIndex_exact.
  destruct (matchesIndex cols idx matchExact); intuition congruence.
Qed.

Lemma matchesIndex_prefix_false (cols : list sqlbase.ColumnDescriptor)
  (idx : sqlbase.IndexDescriptor) :
  matchesIndex cols idx matchPrefix = false <-> ~ prefixMatch cols idx.
Proof.
  rewrite <- matchesIndex_prefix.
  destruct (matchesIndex cols idx matchPrefix); intuition congruence.
Qed.

Lemma exactMatch_length (cols : list sqlbase.ColumnDescriptor)
  (idx : sqlbase.IndexDescriptor) :
  exactMatch cols idx -> length (sqlbase.idx_ColumnIDs idx) = length cols.
Proof. unfold exactMatch. intros ->. apply length_map. Qed.

Lemma exactMatch_prefixMatch (cols : list sqlbase.ColumnDescriptor)
  (idx : sqlbase.IndexDescriptor) :
  exactMatch cols idx <->
  prefixMatch cols idx /\
  length (sqlbase.idx_ColumnIDs idx) = length cols.
Proof.
  split.
  - intros Hex. split; [|by apply exactMatch_length].
    exists []. rewrite app_nil_r. exact Hex.
  - intros [[rest Hrest] Hlen]. unfold exactMatch.
    rewrite Hrest, length_app, length_map in Hlen.
    destruct rest; [by rewrite app_nil_r in Hrest | simpl in Hlen; lia].
Qed.

(** ** The target index of a foreign key *)

Section TargetIndex.
Context {treeOps : TreeOps} {sqlbaseOps : SqlbaseOps} {catalog : Catalog}.

Lemma resolveFK_findUnique_Some (targetCols : list sqlbase.ColumnDescriptor)
  (idxs : list sqlbase.IndexDescriptor) (i k : nat) :
  resolveFK_findUnique targetCols idxs i = Some k ->
  exists j idx,
    k = (i + j)%nat /\ idxs !! j = Some idx /\
    sqlbase.idx_Unique idx = true /\ exactMatch targetCols idx /\
    forall j' idx', (j' < j)%nat -> idxs !! j' = Some idx' ->
      ~ (sqlbase.idx_Unique idx' = true /\ exactMatch targetCols idx').
Proof.
  revert i. induction idxs as [|idx idxs IH]; intros i; simpl; [done|].
  destruct (sqlbase.idx_Unique idx && matchesIndex targetCols idx matchExact)
    eqn:Hm.
  - intros [= <-]. apply andb_true_iff in Hm as [Hu Hx].
    apply matchesIndex_exact in Hx.
    exists 0%nat, idx. repeat split; auto with lia.
  - intros Hk. destruct (IH _ Hk) as (j & idx0 & -> & Hj & Hu & Hx & Hmin).
    exists (S j), idx0. repeat split; auto with lia.
    intros [|j'] idx' Hlt; simpl.
    + intros [= <-] [Hu' Hx']. apply matchesIndex_exact in Hx'.
      rewrite Hu', Hx' in Hm. discriminate.
    + apply Hmin. lia.
Qed.

Lemma resolveFK_findUnique_None (targetCols : list sqlbase.ColumnDescriptor)
  (idxs : list sqlbase.IndexDescriptor) (i : nat) :
  resolveFK_findUnique targetCols idxs i = None ->
  forall idx, idx ∈ idxs ->
    ~ (sqlbase.idx_Unique idx = true /\ exactMatch targetCols idx).
Proof.
  revert i. induction idxs as [|idx0 idxs IH]; intros i; simpl.
  - intros _ idx Hin. by apply elem_of_nil in Hin.
  - destruct (sqlbase.idx_Unique idx0 &&
              matchesIndex targetCols idx0 matchExact) eqn:Hm; [done|].
    intros Hnone idx Hin [Hu Hx].
    apply elem_of_cons in Hin as [-> | Hin].
    + apply matchesIndex_exact in Hx. rewrite Hu, Hx in Hm. discriminate.
    + by apply (IH _ Hnone idx Hin).
Qed.

Lemma resolveFK_columns_of_ok (tbl : sqlbase.TableDescriptor)
  (d : tree.ForeignKeyConstraintTableDef)
  (backrefs : gmap Z sqlbase.TableDescriptor)
  (mode : sqlbase.ConstraintValidity) (r : fkResolution) :
  resolveFK tbl d backrefs mode = Ok r ->
  exists c, resolveFK_columns tbl d backrefs mode = Ok c.
Proof.
  unfold resolveFK. intros Hr. apply bind_ok in Hr as (c & Hc & _). eauto.
Qed.

End TargetIndex.

Section ResolveFK.
Context {treeOps : TreeOps} {sqlbaseOps : SqlbaseOps} {catalog : Catalog}.

(** What a successful [resolveFK] went through. *)
Lemma resolveFK_ok_inv (tbl : sqlbase.TableDescriptor)
  (d : tree.ForeignKeyConstraintTableDef)
  (backrefs : gmap Z sqlbase.TableDescriptor)
  (mode : sqlbase.ConstraintValidity) (r : fkResolution) :
  resolveFK tbl d backrefs mode = Ok r ->
  exists c idx tbl',
    resolveFK_columns tbl d backrefs mode = Ok c /\
    let target := derefTable (fc_tbl c) (fc_backrefs c) (fc_target c) in
    resolveFK_targetIdx (fc_targetCols c) target (fc_targetTable c)
      = Ok (fr_targetIdx r) /\
    derefIndex target (fr_targetIdx r) = Some idx /\
    fr_target r = fc_target c /\
    sqlbase.fk_Table (fr_ref r) = sqlbase.ID_ target /\
    sqlbase.fk_Index (fr_ref r) = sqlbase.idx_ID idx /\
    sqlbase.fk_Name (fr_ref r) = fc_constraintName c /\
    sqlbase.fk_SharedPrefixLen (fr_ref r) = to_int32 (len (fc_srcCols c)) /\
    resolveFK_source (fc_tbl c) (fc_srcCols c) (fc_constraintName c)
      (fr_ref r) mode = Ok (tbl', sqlbase.fk_Index (fr_backref r)) /\
    sqlbase.fk_Table (fr_backref r) = sqlbase.ID_ (fc_tbl c).
Proof.
  unfold resolveFK. intros Hr.
  apply bind_ok in Hr as (c & Hc & Hr).
  apply bind_ok in Hr as (ptr & Hptr & Hr).
  apply bind_ok in Hr as (id & Hid & Hr).
  destruct (derefIndex _ ptr) as [idx|] eqn:Hidx; [|discriminate].
  injection Hid as <-.
  destruct (match tree.Delete (tree.fk_Actions d) with
            | tree.NoAction | tree.Restrict => false | _ => true end);
    [discriminate|].
  destruct (match tree.Update (tree.fk_Actions d) with
            | tree.NoAction | tree.Restrict => false | _ => true end);
    [discriminate|].
  apply bind_ok in Hr as ([tbl' id] & Hsrc & Hr).
  destruct (fc_target c) eqn:Htarget; injection Hr as <-; simpl;
    exists c, idx, tbl'; rewrite Htarget; simpl;
    (repeat split; try done; try (by destruct mode)).
Qed.

End ResolveFK.

Section TargetIndexClaim.
Context {treeOps : TreeOps} {sqlbaseOps : SqlbaseOps} {catalog : Catalog}.

(** C1.  The target index of a foreign key is unique with an exact-length
    column match.  (1) The search of [resolveFK] answers the primary index
    exactly when the ids of its columns are those of the referenced columns;
    otherwise it answers the first secondary index, in the order of
    [target.Indexes], that is unique and matches exactly; when there is none
    it fails with the "no unique constraint matching given keys" error.
    (2) [resolveFK] fails with that error when the search does, and when it
    succeeds its target index is the one found, whose id is stored in the
    reference.  (3) An index whose number of columns differs from the number
    of referenced columns, such as one that they only prefix-match, is never
    an exact match. *)
Theorem resolveFK_target_index_exact (tbl : sqlbase.TableDescriptor)
  (d : tree.ForeignKeyConstraintTableDef)
  (backrefs : gmap Z sqlbase.TableDescriptor)
  (mode : sqlbase.ConstraintValidity) :
  (forall targetCols target targetTable,
     match resolveFK_targetIdx targetCols target targetTable with
     | Ok PrimaryIndexPtr =>
         exactMatch targetCols (sqlbase.PrimaryIndex target)
     | Ok (SecondaryIndexPtr i) =>
         ~ exactMatch targetCols (sqlbase.PrimaryIndex target) /\
         exists idx,
           sqlbase.Indexes target !! i = Some idx /\
           sqlbase.idx_Unique idx = true /\ exactMatch targetCols idx /\
           forall j idx', (j < i)%nat ->
             sqlbase.Indexes target !! j = Some idx' ->
             ~ (sqlbase.idx_Unique idx' = true /\ exactMatch targetCols idx')
     | Err e =>
         e = PgErrorf CodeInvalidForeignKeyError
               "there is no unique constraint matching given keys for referenced table %s"
               [TableName_String targetTable] /\
         ~ exactMatch targetCols (sqlbase.PrimaryIndex target) /\
         forall idx, idx ∈ sqlbase.Indexes target ->
           ~ (sqlbase.idx_Unique idx = true /\ exactMatch targetCols idx)
     end) /\
  (forall c,
     resolveFK_columns tbl d backrefs mode = Ok c ->
     let target := derefTable (fc_tbl c) (fc_backrefs c) (fc_target c) in
     match resolveFK_targetIdx (fc_targetCols c) target (fc_targetTable c) with
     | Err e => resolveFK tbl d backrefs mode = Err e
     | Ok ptr =>
         forall r, resolveFK tbl d backrefs mode = Ok r ->
           fr_target r = fc_target c /\ fr_targetIdx r = ptr /\
           exists idx,
             derefIndex target ptr = Some idx /\
             exactMatch (fc_targetCols c) idx /\
             sqlbase.fk_Index (fr_ref r) = sqlbase.idx_ID idx
     end) /\
  (forall cols idx,
     length cols <> length (sqlbase.idx_ColumnIDs idx) ->
     matchesIndex cols idx matchExact = false).
Proof.
  assert (Hsearch : forall targetCols target targetTable,
     match resolveFK_targetIdx targetCols target targetTable with
     | Ok PrimaryIndexPtr =>
         exactMatch targetCols (sqlbase.PrimaryIndex target)
     | Ok (SecondaryIndexPtr i) =>
         ~ exactMatch targetCols (sqlbase.PrimaryIndex target) /\
         exists idx,
           sqlbase.Indexes target !! i = Some idx /\
           sqlbase.idx_Unique idx = true /\ exactMatch targetCols idx /\
           forall j idx', (j < i)%nat ->
             sqlbase.Indexes target !! j = Some idx' ->
             ~ (sqlbase.idx_Unique idx' = true /\ exactMatch targetCols idx')
     | Err e =>
         e = PgErrorf CodeInvalidForeignKeyError
               "there is no unique constraint matching given keys for referenced table %s"
               [TableName_String targetTable] /\
         ~ exactMatch targetCols (sqlbase.PrimaryIndex target) /\
         forall idx, idx ∈ sqlbase.Indexes target ->
           ~ (sqlbase.idx_Unique idx = true /\ exactMatch targetCols idx)
     end).
  { intros targetCols target targetTable. unfold resolveFK_targetIdx.
    destruct (matchesIndex targetCols (sqlbase.PrimaryIndex target) matchExact)
      eqn:Hp.
    - by apply matchesIndex_exact.
    - apply matchesIndex_exact_false in Hp.
      destruct (resolveFK_findUnique targetCols (sqlbase.Indexes target) 0)
        as [i|] eqn:Hf.
      + split; [exact Hp|].
        apply resolveFK_findUnique_Some in Hf
          as (j & idx & -> & Hj & Hu & Hx & Hmin).
        exists idx. auto.
      + split; [done|]. split; [exact Hp|].
        by apply (resolveFK_findUnique_None _ _ _ Hf). }
  split; [exact Hsearch|]. split.
  - intros c Hc target.
    destruct (resolveFK_targetIdx (fc_targetCols c) target (fc_targetTable c))
      as [ptr|e] eqn:Hptr.
    + intros r Hr.
      destruct (resolveFK_ok_inv _ _ _ _ _ Hr)
        as (c' & idx & tbl' & Hc' & Hptr' & Hidx & Htarget & _ & Hid & _).
      rewrite Hc in Hc'. injection Hc' as <-. fold target in Hptr', Hidx.
      rewrite Hptr in Hptr'. injection Hptr' as ->.
      split; [exact Htarget|]. split; [done|].
      exists idx. split; [exact Hidx|]. split; [|exact Hid].
      specialize (Hsearch (fc_targetCols c) target (fc_targetTable c)).
      rewrite Hptr in Hsearch.
      destruct (fr_targetIdx r) as [|i]; simpl in Hidx.
      * by injection Hidx as <-.
      * destruct Hsearch as (_ & idx' & Hi & _ & Hx & _). congruence.
    + unfold resolveFK. rewrite Hc. simpl. fold target. by rewrite Hptr.
  - intros cols idx Hlen. apply matchesIndex_exact_false.
    intros Hx. apply exactMatch_length in Hx. congruence.
Qed.

End TargetIndexClaim.

(** ** The source index of a foreign key *)

Section SourceIndex.
Context {treeOps : TreeOps} {sqlbaseOps : SqlbaseOps} {catalog : Catalog}.

Lemma firstPrefixMatch_functional (cols : list sqlbase.ColumnDescriptor)
  (idxs : list sqlbase.IndexDescriptor) (i j : nat)
  (idx idx' : sqlbase.IndexDescriptor) :
  firstPrefixMatch cols idxs i idx -> firstPrefixMatch cols idxs j idx' ->
  i = j /\ idx = idx'.
Proof.
  intros (Hi & Hp & Hmin) (Hj & Hp' & Hmin').
  destruct (Nat.lt_trichotomy i j) as [Hlt | [-> | Hlt]].
  - by destruct (Hmin' i idx Hlt Hi).
  - split; congruence.
  - by destruct (Hmin j idx' Hlt Hj).
Qed.

Lemma firstPrefixMatch_cons_here (cols : list sqlbase.ColumnDescriptor)
  (idx : sqlbase.IndexDescriptor) (idxs : list sqlbase.IndexDescriptor) :
  prefixMatch cols idx -> firstPrefixMatch cols (idx :: idxs) 0 idx.
Proof. intros Hp. repeat split; auto. intros j idx' Hlt. lia. Qed.

Lemma firstPrefixMatch_cons_later (cols : list sqlbase.ColumnDescriptor)
  (idx0 idx : sqlbase.IndexDescriptor) (idxs : list sqlbase.IndexDescriptor)
  (i : nat) :
  ~ prefixMatch cols idx0 ->
  firstPrefixMatch cols idxs i idx ->
  firstPrefixMatch cols (idx0 :: idxs) (S i) idx.
Proof.
  intros Hn (Hi & Hp & Hmin). repeat split; auto.
  intros [|j] idx' Hlt; simpl.
  - by intros [= <-].
  - apply Hmin. lia.
Qed.

(** The scan of the secondary indexes: it stops at the first index that the
    source columns prefix-match. *)
Lemma resolveFK_scanSource_spec (srcCols : list sqlbase.ColumnDescriptor)
  (ref : sqlbase.ForeignKeyReference) (idxs : list sqlbase.IndexDescriptor) :
  (resolveFK_scanSource srcCols ref idxs = Ok None /\
   forall idx, idx ∈ idxs -> ~ prefixMatch srcCols idx) \/
  (exists i idx,
     firstPrefixMatch srcCols idxs i idx /\
     resolveFK_scanSource srcCols ref idxs =
       if IsSet (sqlbase.idx_ForeignKey idx) then Err errMultipleFK
       else Ok (Some (<[i := sqlbase.idx_with_ForeignKey ref idx]> idxs,
                      sqlbase.idx_ID idx))).
Proof.
  induction idxs as [|idx0 idxs IH]; simpl.
  - left. split; [done|]. intros idx Hin. by apply elem_of_nil in Hin.
  - destruct (matchesIndex srcCols idx0 matchPrefix) eqn:Hm.
    + right. apply matchesIndex_prefix in Hm. exists 0%nat, idx0.
      split; [by apply firstPrefixMatch_cons_here|].
      by destruct (IsSet (sqlbase.idx_ForeignKey idx0)).
    + apply matchesIndex_prefix_false in Hm.
      destruct IH as [[Hnone Hall] | (i & idx & Hfirst & Hscan)].
      * left. rewrite Hnone. simpl. split; [done|].
        intros idx Hin. apply elem_of_cons in Hin as [-> | Hin]; auto.
      * right. exists (S i), idx.
        split; [by apply firstPrefixMatch_cons_later|].
        rewrite Hscan.
        by destruct (IsSet (sqlbase.idx_ForeignKey idx)).
Qed.

Lemma index_in_no_first (srcCols : list sqlbase.ColumnDescriptor)
  (idxs : list sqlbase.IndexDescriptor) (i : nat)
  (idx : sqlbase.IndexDescriptor) :
  (forall idx', idx' ∈ idxs -> ~ prefixMatch srcCols idx') ->
  ~ firstPrefixMatch srcCols idxs i idx.
Proof.
  intros Hall (Hi & Hp & _). apply (Hall idx); [|done].
  by apply list_elem_of_lookup_2 in Hi.
Qed.

(** The index that [addIndexForFK] adds, and what it answers. *)
Lemma addIndexForFK_spec (tbl : sqlbase.TableDescriptor)
  (srcCols : list sqlbase.ColumnDescriptor) (constraintName : string)
  (ref : sqlbase.ForeignKeyReference) :
  exists idx,
    sqlbase.idx_Name idx =
      sqlbase.Name tbl +:+ "_auto_index_" +:+ constraintName /\
    sqlbase.idx_Unique idx = false /\
    sqlbase.idx_ColumnNames idx = map sqlbase.col_Name srcCols /\
    sqlbase.idx_ColumnDirections idx =
      repeat sqlbase.IndexDescriptor_ASC (length srcCols) /\
    sqlbase.idx_ForeignKey idx = ref /\
    (forall tbl1 tbl2 added,
       AddIndex tbl idx false = Ok tbl1 -> AllocateIDs tbl1 = Ok tbl2 ->
       last (sqlbase.Indexes tbl2) = Some added ->
       prefixMatch srcCols added ->
       addIndexForFK tbl srcCols constraintName ref =
         Ok (tbl2, sqlbase.idx_ID added)) /\
    (forall tbl2 id,
       addIndexForFK tbl srcCols constraintName ref = Ok (tbl2, id) ->
       exists tbl1 added,
         AddIndex tbl idx false = Ok tbl1 /\ AllocateIDs tbl1 = Ok tbl2 /\
         last (sqlbase.Indexes tbl2) = Some added /\
         prefixMatch srcCols added /\ id = sqlbase.idx_ID added).
Proof.
  unfold addIndexForFK.
  match goal with
  | |- context [AddIndex tbl ?i false] => exists i
  end.
  simpl. repeat split; try done.
  - induction srcCols as [|c cs IH]; simpl; [done | by rewrite IH].
  - intros tbl1 tbl2 added H1 H2 Hlast Hp.
    rewrite H1. simpl. rewrite H2. simpl. rewrite Hlast.
    apply matchesIndex_prefix in Hp. by rewrite Hp.
  - intros tbl2 id Hok.
    apply bind_ok in Hok as (tbl1 & H1 & Hok).
    apply bind_ok in Hok as (tbl2' & H2 & Hok).
    destruct (last (sqlbase.Indexes tbl2')) as [added|] eqn:Hlast;
      [|discriminate].
    destruct (matchesIndex srcCols added matchPrefix) eqn:Hm;
      [|discriminate].
    simpl in Hok. injection Hok as <- <-.
    apply matchesIndex_prefix in Hm. exists tbl1, added. auto.
Qed.

End SourceIndex.

Section SourceIndexClaim.
Context {treeOps : TreeOps} {sqlbaseOps : SqlbaseOps} {catalog : Catalog}.

(** C2, as amended.  The source index of a foreign key is found by
    exact-or-prefix column match.  (1) When the source columns are a prefix
    of the primary index, that index is used if it carries no foreign key,
    and [resolveFK] fails with "columns cannot be used by multiple foreign
    key constraints" if it carries one.  (2) When they are not, the
    secondary indexes are scanned in order and the first one that the source
    columns prefix-match is used if it carries no foreign key, with the same
    failure if it carries one.  (3) When no index matches, in Unvalidated
    mode [resolveFK] fails with "foreign key requires an existing index on
    columns ..."; (4) in Validated mode a new non-unique index named
    table_auto_index_constraint, with all directions ascending, over the
    names of the source columns and carrying the reference is passed to
    [AddIndex], [AllocateIDs] follows, and the last index of the table is
    the source index.  (5) A successful [resolveFK] stores in the
    back-reference the id of the index so found. *)
Theorem resolveFK_source_index (tbl : sqlbase.TableDescriptor)
  (srcCols : list sqlbase.ColumnDescriptor) (constraintName : string)
  (ref : sqlbase.ForeignKeyReference) (mode : sqlbase.ConstraintValidity) :
  let primary := sqlbase.PrimaryIndex tbl in
  let source := resolveFK_source tbl srcCols constraintName ref mode in
  (prefixMatch srcCols primary ->
   source =
     if IsSet (sqlbase.idx_ForeignKey primary) then Err errMultipleFK
     else Ok (sqlbase.with_PrimaryIndex
                (sqlbase.idx_with_ForeignKey ref primary) tbl,
              sqlbase.idx_ID primary)) /\
  (~ prefixMatch srcCols primary ->
   forall i idx,
     firstPrefixMatch srcCols (sqlbase.Indexes tbl) i idx ->
     source =
       if IsSet (sqlbase.idx_ForeignKey idx) then Err errMultipleFK
       else Ok (sqlbase.with_Indexes
                  (<[i := sqlbase.idx_with_ForeignKey ref idx]>
                     (sqlbase.Indexes tbl)) tbl,
                sqlbase.idx_ID idx)) /\
  (~ prefixMatch srcCols primary ->
   (forall idx, idx ∈ sqlbase.Indexes tbl -> ~ prefixMatch srcCols idx) ->
   mode = sqlbase.ConstraintValidity_Unvalidated ->
   source =
     Err (PgErrorf CodeInvalidForeignKeyError
            "foreign key requires an existing index on columns %s"
            [colNames srcCols])) /\
  (~ prefixMatch srcCols primary ->
   (forall idx, idx ∈ sqlbase.Indexes tbl -> ~ prefixMatch srcCols idx) ->
   mode = sqlbase.ConstraintValidity_Validated ->
   source = addIndexForFK tbl srcCols constraintName ref /\
   exists idx,
     sqlbase.idx_Name idx =
       sqlbase.Name tbl +:+ "_auto_index_" +:+ constraintName /\
     sqlbase.idx_Unique idx = false /\
     sqlbase.idx_ColumnNames idx = map sqlbase.col_Name srcCols /\
     sqlbase.idx_ColumnDirections idx =
       repeat sqlbase.IndexDescriptor_ASC (length srcCols) /\
     sqlbase.idx_ForeignKey idx = ref /\
     (forall tbl1 tbl2 added,
        AddIndex tbl idx false = Ok tbl1 -> AllocateIDs tbl1 = Ok tbl2 ->
        last (sqlbase.Indexes tbl2) = Some added ->
        prefixMatch srcCols added ->
        source = Ok (tbl2, sqlbase.idx_ID added)) /\
     (forall tbl2 id,
        source = Ok (tbl2, id) ->
        exists tbl1 added,
          AddIndex tbl idx false = Ok tbl1 /\ AllocateIDs tbl1 = Ok tbl2 /\
          last (sqlbase.Indexes tbl2) = Some added /\
          prefixMatch srcCols added /\ id = sqlbase.idx_ID added)) /\
  (forall tbl0 d backrefs r,
     resolveFK tbl0 d backrefs mode = Ok r ->
     exists c tbl',
       resolveFK_columns tbl0 d backrefs mode = Ok c /\
       resolveFK_source (fc_tbl c) (fc_srcCols c) (fc_constraintName c)
         (fr_ref r) mode = Ok (tbl', sqlbase.fk_Index (fr_backref r))).
Proof.
  intros primary source. subst source. unfold resolveFK_source.
  fold primary.
  destruct (matchesIndex srcCols primary matchPrefix) eqn:Hp.
  - apply matchesIndex_prefix in Hp.
    split; [done|]. repeat split; try done.
    intros tbl0 d backrefs r Hr.
    destruct (resolveFK_ok_inv _ _ _ _ _ Hr) as (c & idx & tbl' & Hc & Hrest).
    simpl in Hrest. exists c, tbl'. tauto.
  - apply matchesIndex_prefix_false in Hp.
    split; [done|].
    destruct (resolveFK_scanSource_spec srcCols ref (sqlbase.Indexes tbl))
      as [[Hnone Hall] | (i & idx & Hfirst & Hscan)].
    + rewrite Hnone. simpl.
      split; [intros _ i idx Hfirst; by destruct (index_in_no_first _ _ _ _ Hall Hfirst)|].
      split; [by intros _ _ ->|].
      split.
      * intros _ _ ->. split; [done|].
        destruct (addIndexForFK_spec tbl srcCols constraintName ref)
          as (idx & Hn & Hu & Hc & Hd & Hf & Hto & Hfrom).
        exists idx. auto 10.
      * intros tbl0 d backrefs r Hr.
        destruct (resolveFK_ok_inv _ _ _ _ _ Hr)
          as (c & idx & tbl' & Hc & Hrest).
        simpl in Hrest. exists c, tbl'. tauto.
    + rewrite Hscan.
      split.
      * intros _ i' idx' Hfirst'.
        destruct (firstPrefixMatch_functional _ _ _ _ _ _ Hfirst Hfirst')
          as [<- <-].
        by destruct (IsSet (sqlbase.idx_ForeignKey idx)).
      * split; [|split].
        -- intros _ Hall. by destruct (index_in_no_first _ _ _ _ Hall Hfirst).
        -- intros _ Hall. by destruct (index_in_no_first _ _ _ _ Hall Hfirst).
        -- intros tbl0 d backrefs r Hr.
           destruct (resolveFK_ok_inv _ _ _ _ _ Hr)
             as (c & idx0 & tbl' & Hc & Hrest).
           simpl in Hrest. exists c, tbl'. tauto.
Qed.

End SourceIndexClaim.

(** C2, counterexample to the claim as stated.  In table t the source column
    a is a prefix of the primary index, which carries a foreign key, and of
    the secondary index t_a_idx, which carries none.  The secondary indexes
    are not scanned: [resolveFK] fails. *)
Lemma resolveFK_primary_taken_counterexample :
  let srcCols := [Examples.column "a" 1] in
  prefixMatch srcCols (sqlbase.PrimaryIndex Examples.t_taken) /\
  IsSet (SqlbaseOps := Sample.sqlbaseOps)
    (sqlbase.idx_ForeignKey (sqlbase.PrimaryIndex Examples.t_taken)) = true /\
  (exists idx,
     sqlbase.Indexes Examples.t_taken !! 0%nat = Some idx /\
     prefixMatch srcCols idx /\
     IsSet (SqlbaseOps := Sample.sqlbaseOps) (sqlbase.idx_ForeignKey idx)
       = false) /\
  resolveFK (sqlbaseOps := Sample.sqlbaseOps)
    (catalog := Sample.catalog [Examples.p])
    Examples.t_taken (Examples.foreignKey ["a"] "p" ["x"]) ∅
    sqlbase.ConstraintValidity_Validated = Err errMultipleFK.
Proof.
  simpl. split; [by exists []|]. split; [reflexivity|]. split.
  - eexists. split; [reflexivity|]. split; [by exists [] | reflexivity].
  - vm_compute. reflexivity.
Qed.

(** C1 at the reference of t (b) to p (x): the primary index of p is the
    exact match. *)
Lemma resolveFK_target_index_exact_witness :
  exactMatch [Examples.column "x" 1] (sqlbase.PrimaryIndex Examples.p) /\
  matchesIndex [Examples.column "x" 1] (sqlbase.PrimaryIndex Examples.q)
    matchExact = false.
Proof.
  pose proof (resolveFK_target_index_exact
                (sqlbaseOps := Sample.sqlbaseOps)
                (catalog := Sample.catalog [Examples.p])
                Examples.t (Examples.foreignKey ["b"] "p" ["x"]) ∅
                sqlbase.ConstraintValidity_Validated) as (Hsearch & _ & Hlen).
  split.
  - exact (Hsearch [Examples.column "x" 1] Examples.p
             {| tree.DatabaseName := "db"; tree.Table := "p" |}).
  - apply Hlen. simpl. lia.
Defined.

(** C2 at table t (a INT PRIMARY KEY, b INT) with its index on (b): for the
    source column b the primary index does not match and the index t_b_idx
    is used. *)
Lemma resolveFK_source_index_witness :
  resolveFK_source (sqlbaseOps := Sample.sqlbaseOps) Examples.t
    [Examples.column "b" 2] "fk_b_ref_p" Examples.someFK
    sqlbase.ConstraintValidity_Validated =
  Ok (sqlbase.with_Indexes
        [sqlbase.idx_with_ForeignKey Examples.someFK
           (Examples.index "t_b_idx" 2 false [Examples.column "b" 2])]
        Examples.t, 2).
Proof.
  pose proof (resolveFK_source_index
                (sqlbaseOps := Sample.sqlbaseOps)
                (catalog := Sample.catalog [Examples.p])
                Examples.t [Examples.column "b" 2] "fk_b_ref_p"
                Examples.someFK sqlbase.ConstraintValidity_Validated)
    as (_ & Hscan & _).
  apply (Hscan ltac:(intros [rest Hrest]; discriminate) 0%nat
           (Examples.index "t_b_idx" 2 false [Examples.column "b" 2])).
  split; [reflexivity|]. split; [by exists []|].
  intros j idx' Hlt. lia.
Defined.

(** ** Interleaving *)

Lemma to_uint32_sub_l (x a : Z) : to_uint32 (to_uint32 x - a) = to_uint32 (x - a).
Proof. unfold to_uint32. apply Zminus_mod_idemp_l. Qed.

Lemma to_uint32_small (x : Z) : 0 <= x < 2 ^ 32 -> to_uint32 x = x.
Proof. unfold to_uint32. apply Z.mod_small. Qed.

(** The subtraction loop computes, in [uint32], the number of columns minus
    the sum of the shared prefix lengths. *)
Lemma addInterleave_prefixLen_sum (n : Z)
  (ancestors : list sqlbase.InterleaveDescriptor_Ancestor) :
  addInterleave_prefixLen n ancestors =
  to_uint32 (n - sharedPrefixSum ancestors).
Proof.
  unfold addInterleave_prefixLen, sharedPrefixSum.
  revert n. induction ancestors as [|a ancestors IH]; intros n; simpl.
  - f_equal. lia.
  - rewrite to_uint32_sub_l, IH. f_equal. lia.
Qed.

Lemma index_at_ok {A : Type} (l : list A) (i : nat) (x : A) :
  index_at l i = Ok x <-> l !! i = Some x.
Proof.
  unfold index_at. destruct (l !! i); split; intros Hx; congruence.
Qed.

Lemma Direction_eqb_eq (a b : sqlbase.IndexDescriptor_Direction) :
  Direction_eqb a b = true <-> a = b.
Proof. destruct a, b; simpl; split; intros Hab; congruence. Qed.

Section InterleaveProperties.
Context {treeOps : TreeOps} {sqlbaseOps : SqlbaseOps} {catalog : Catalog}.

Lemma addInterleave_loop_ok (parentTable desc : sqlbase.TableDescriptor)
  (parentIndex index : sqlbase.IndexDescriptor) (fields : tree.NameList)
  (ids : list sqlbase.ColumnID) (i : nat) :
  (forall j targetColID, ids !! j = Some targetColID ->
     sqlbase.idx_ColumnIDs parentIndex !! (i + j)%nat = Some targetColID) ->
  addInterleave_loop parentTable desc parentIndex index fields ids i = Ok tt ->
  forall j, (j < length ids)%nat ->
    interleaveFieldMatches parentTable desc parentIndex index fields
      (i + j)%nat.
Proof.
  revert i. induction ids as [|targetColID ids IH]; intros i Hids; simpl.
  - intros _ j Hj. lia.
  - intros Hloop.
    apply bind_ok in Hloop as (targetCol & Htarget & Hloop).
    apply bind_ok in Hloop as (colID & HcolID & Hloop).
    apply bind_ok in Hloop as (col & Hcol & Hloop).
    apply bind_ok in Hloop as (field & Hfield & Hloop).
    destruct (eqs field (sqlbase.col_Name col)) eqn:Hname; [|discriminate].
    destruct (ColumnType_Equal _ _) eqn:Htype; [|discriminate].
    simpl in Hloop.
    apply bind_ok in Hloop as (dir & Hdir & Hloop).
    apply bind_ok in Hloop as (parentDir & Hpdir & Hloop).
    destruct (Direction_eqb dir parentDir) eqn:Hd; [|discriminate].
    simpl in Hloop. apply Direction_eqb_eq in Hd. subst parentDir.
    apply index_at_ok in HcolID, Hfield, Hdir, Hpdir.
    apply eqs_true in Hname.
    intros [|j] Hj.
    + rewrite Nat.add_0_r.
      exists field, colID, col, targetColID, targetCol, dir.
      repeat split; try done.
      specialize (Hids 0%nat targetColID eq_refl).
      by rewrite Nat.add_0_r in Hids.
    + replace (i + S j)%nat with (S i + j)%nat by lia.
      apply IH; [|exact Hloop|lia].
      intros j' id' Hj'. specialize (Hids (S j') id' Hj').
      by replace (S i + j')%nat with (i + S j')%nat by lia.
Qed.

Lemma sharedPrefixSum_snoc
  (ancestors : list sqlbase.InterleaveDescriptor_Ancestor)
  (a : sqlbase.InterleaveDescriptor_Ancestor) :
  sharedPrefixSum (ancestors ++ [a]) =
  sharedPrefixSum ancestors + sqlbase.anc_SharedPrefixLen a.
Proof.
  unfold sharedPrefixSum.
  induction ancestors as [|b ancestors IH]; simpl; [lia|].
  rewrite IH. lia.
Qed.

(** The shared prefix lengths of the ancestors of an interleaved index add up
    to the number of key columns of its parent, which is at most the number
    of its own key columns; so the subtraction of [addInterleave] does not
    wrap around for a parent that was itself interleaved by
    [addInterleave]. *)
Lemma addInterleave_prefix_invariant (desc desc' : sqlbase.TableDescriptor)
  (index index' : sqlbase.IndexDescriptor) (interleave : tree.InterleaveDef)
  (sessionDB : string) (tn : tree.TableName)
  (parentTable : sqlbase.TableDescriptor) :
  addInterleave desc index interleave sessionDB = Ok (desc', index') ->
  NormalizeWithDatabaseName (tree.Parent interleave) sessionDB = Ok tn ->
  MustGetTableDesc tn true = Ok parentTable ->
  let n := len (sqlbase.idx_ColumnIDs (sqlbase.PrimaryIndex parentTable)) in
  let ancestors :=
    sqlbase.Ancestors
      (sqlbase.idx_Interleave (sqlbase.PrimaryIndex parentTable)) in
  0 <= sharedPrefixSum ancestors <= n -> n < 2 ^ 32 ->
  sharedPrefixSum (sqlbase.Ancestors (sqlbase.idx_Interleave index')) = n /\
  n <= len (sqlbase.idx_ColumnIDs index').
Proof.
  intros Hok Htn Hparent n ancestors Hsum Hn. unfold addInterleave in Hok.
  destruct (tree.idef_DropBehavior interleave); try discriminate.
  rewrite Htn in Hok. simpl in Hok. rewrite Hparent in Hok. simpl in Hok.
  destruct (len (tree.Fields interleave) =?
            len (sqlbase.idx_ColumnIDs (sqlbase.PrimaryIndex parentTable)))
    eqn:Hlen; [|discriminate].
  apply Z.eqb_eq in Hlen. simpl in Hok.
  destruct (len (sqlbase.idx_ColumnIDs index) <? len (tree.Fields interleave))
    eqn:Hle; [discriminate|].
  apply Z.ltb_ge in Hle.
  apply bind_ok in Hok as ([] & _ & Hok).
  injection Hok as <- <-. simpl.
  rewrite sharedPrefixSum_snoc, addInterleave_prefixLen_sum. simpl.
  fold ancestors n. rewrite to_uint32_small by lia. lia.
Qed.

(** C3.  When [addInterleave] succeeds, the parent table was found, the
    declaration has exactly as many fields as the primary index of the
    parent has key columns, and at each of these positions the field is the
    name of the column of the child index, whose type equals the type of the
    parent's column and whose direction is the parent's; the child index's
    ancestors are those of the parent's primary index followed by the entry
    (parent table id, parent index id, number of parent key columns minus the
    sum of the ancestors' shared prefix lengths, in uint32), which is the
    integer difference whenever that sum does not exceed the number of
    columns; and the state of the child table is ADD, nothing else of the
    table or of the index being changed. *)
Theorem addInterleave_ancestors (desc desc' : sqlbase.TableDescriptor)
  (index index' : sqlbase.IndexDescriptor) (interleave : tree.InterleaveDef)
  (sessionDB : string) :
  addInterleave desc index interleave sessionDB = Ok (desc', index') ->
  exists tn parentTable,
    NormalizeWithDatabaseName (tree.Parent interleave) sessionDB = Ok tn /\
    MustGetTableDesc tn true = Ok parentTable /\
    let parentIndex := sqlbase.PrimaryIndex parentTable in
    let n := length (sqlbase.idx_ColumnIDs parentIndex) in
    let ancestors := sqlbase.Ancestors (sqlbase.idx_Interleave parentIndex) in
    length (tree.Fields interleave) = n /\
    (forall i, (i < n)%nat ->
       interleaveFieldMatches parentTable desc parentIndex index
         (tree.Fields interleave) i) /\
    sqlbase.Ancestors (sqlbase.idx_Interleave index') =
      ancestors ++
      [{| sqlbase.anc_TableID := sqlbase.ID_ parentTable;
          sqlbase.anc_IndexID := sqlbase.idx_ID parentIndex;
          sqlbase.anc_SharedPrefixLen :=
            to_uint32 (Z.of_nat n - sharedPrefixSum ancestors) |}] /\
    (0 <= sharedPrefixSum ancestors <= Z.of_nat n -> Z.of_nat n < 2 ^ 32 ->
     to_uint32 (Z.of_nat n - sharedPrefixSum ancestors) =
       Z.of_nat n - sharedPrefixSum ancestors) /\
    sqlbase.State desc' = sqlbase.TableDescriptor_ADD /\
    desc' = sqlbase.with_State sqlbase.TableDescriptor_ADD desc /\
    index' =
      sqlbase.idx_with_Interleave (sqlbase.idx_Interleave index') index.
Proof.
  unfold addInterleave. intros Hok.
  destruct (tree.idef_DropBehavior interleave); try discriminate.
  apply bind_ok in Hok as (tn & Htn & Hok).
  apply bind_ok in Hok as (parentTable & Hparent & Hok).
  exists tn, parentTable. split; [exact Htn|]. split; [exact Hparent|].
  destruct (len (tree.Fields interleave) =?
            len (sqlbase.idx_ColumnIDs (sqlbase.PrimaryIndex parentTable)))
    eqn:Hlen; [|discriminate].
  apply len_eqb in Hlen. simpl in Hok.
  destruct (len (sqlbase.idx_ColumnIDs index) <? len (tree.Fields interleave));
    [discriminate|].
  apply bind_ok in Hok as ([] & Hloop & Hok).
  injection Hok as <- <-. simpl.
  split; [exact Hlen|]. split.
  - intros i Hi.
    apply (addInterleave_loop_ok _ _ _ _ _ _ 0%nat
             ltac:(by intros j id Hj) Hloop i Hi).
  - rewrite addInterleave_prefixLen_sum. unfold len.
    repeat split; try done.
    intros Hsum Hn. apply to_uint32_small. lia.
Qed.

End InterleaveProperties.

(** C3 at CREATE TABLE child (pid INT, cid INT, PRIMARY KEY (pid, cid))
    INTERLEAVE IN PARENT parent (pid): the primary index of child gets the
    one ancestor (parent, primary index of parent, 1) and child is in state
    ADD. *)
Lemma addInterleave_ancestors_witness :
  exists desc' index',
    addInterleave (sqlbaseOps := Sample.sqlbaseOps)
      (catalog := Sample.catalog [Examples.parent])
      Examples.child (sqlbase.PrimaryIndex Examples.child)
      Examples.interleaveInParent "db" = Ok (desc', index') /\
    sqlbase.State desc' = sqlbase.TableDescriptor_ADD /\
    sqlbase.Ancestors (sqlbase.idx_Interleave index') =
      [{| sqlbase.anc_TableID := 53; sqlbase.anc_IndexID := 1;
          sqlbase.anc_SharedPrefixLen := 1 |}].
Proof.
  destruct (addInterleave (sqlbaseOps := Sample.sqlbaseOps)
      (catalog := Sample.catalog [Examples.parent])
      Examples.child (sqlbase.PrimaryIndex Examples.child)
      Examples.interleaveInParent "db") as [[desc' index']|e] eqn:Hok;
    [|vm_compute in Hok; discriminate].
  exists desc', index'. split; [reflexivity|].
  destruct (addInterleave_ancestors _ _ _ _ _ _ Hok)
    as (tn & parentTable & Htn & Hparent & _ & _ & Hanc & _ & Hstate & _).
  split; [exact Hstate|].
  injection Htn as <-. vm_compute in Hparent. injection Hparent as <-.
  exact Hanc.
Defined.

(** ** Partition tuples *)

Section PartitionTupleProperties.
Context {treeOps : TreeOps} {sqlbaseOps : SqlbaseOps}
  {encodingOps : EncodingOps}.

Lemma failed_bind {A B : Type} (r : result A) (k : A -> result B) :
  (forall a, failed (k a)) -> failed (bind r k).
Proof. intros Hk. destruct r as [a|e]; simpl; [apply Hk | by exists e]. Qed.

Lemma failed_not_ok {A : Type} (r : result A) (a : A) :
  failed r -> r <> Ok a.
Proof. intros [e ->]. discriminate. Qed.

Lemma valueEncodePartitionTuple_eq (typ : tree.PartitionByType)
  (maybeTuple : tree.Expr) (cols : list sqlbase.ColumnDescriptor) :
  valueEncodePartitionTuple typ maybeTuple cols =
  if negb (len (partitionTuple maybeTuple) =? len cols)
  then Err (Errorf "partition has %d columns but %d values were supplied"
              [pretty (len cols); pretty (len (partitionTuple maybeTuple))])
  else valueEncodePartitionTuple_loop typ (partitionTuple maybeTuple) cols [].
Proof.
  unfold valueEncodePartitionTuple, partitionTuple.
  by destruct (tree.StripParens maybeTuple).
Qed.

(** An element that the loop rejects makes the whole tuple fail, wherever it
    stands. *)
Lemma valueEncodePartitionTuple_loop_rejects (typ : tree.PartitionByType)
  (bad : tree.Expr) :
  (forall exprs cols value,
     failed (valueEncodePartitionTuple_loop typ (bad :: exprs) cols value)) ->
  forall exprs cols value,
    bad ∈ exprs ->
    failed (valueEncodePartitionTuple_loop typ exprs cols value).
Proof.
  intros Hbad exprs. induction exprs as [|e exprs IH]; intros cols value Hin.
  - by apply elem_of_nil in Hin.
  - apply elem_of_cons in Hin as [<- | Hin]; [apply Hbad|].
    specialize (fun cols value => IH cols value Hin).
    simpl. destruct e; try destruct typ; try (by apply IH);
      try (by eexists);
      repeat (apply failed_bind; intros ?);
      try apply IH;
      repeat match goal with
             | |- failed (bind ?r _) =>
                 apply failed_bind; intros ?
             end.
    all: try apply IH.
Qed.

Lemma valueEncodePartitionTuple_loop_app (typ : tree.PartitionByType)
  (exprs1 exprs2 : list tree.Expr) (cols : list sqlbase.ColumnDescriptor)
  (value : sqlbase.bytes) :
  valueEncodePartitionTuple_loop typ (exprs1 ++ exprs2) cols value =
  bind (valueEncodePartitionTuple_loop typ exprs1 cols value)
    (fun value1 =>
       valueEncodePartitionTuple_loop typ exprs2
         (drop (length exprs1) cols) value1).
Proof.
  revert cols value.
  induction exprs1 as [|e exprs1 IH]; intros cols value; [done|].
  assert (Hdrop : forall cs : list sqlbase.ColumnDescriptor,
            drop (length (e :: exprs1)) cs = drop (length exprs1) (tail cs)).
  { by intros [|c cs]; simpl; rewrite ?drop_nil. }
  rewrite Hdrop. simpl.
  destruct e; try destruct typ; try done; try apply IH.
  all: destruct (index_at cols 0) as [col|]; simpl; [|done].
  all: destruct (TypeCheck _ _) as [te|]; simpl; [|done].
  all: destruct (Eval te) as [datum|]; simpl; [|done].
  all: destruct (CheckColumnType col _); simpl; [done|].
  all: destruct (EncodeTableValue _ _ _); simpl; [|done].
  all: apply IH.
Qed.

End PartitionTupleProperties.

Lemma StripParens_idemp (e : tree.Expr) :
  tree.StripParens (tree.StripParens e) = tree.StripParens e.
Proof. induction e; simpl; auto. Qed.

Lemma tail_drop {A : Type} (n : nat) (l : list A) :
  tail (drop n l) = drop (S n) l.
Proof.
  revert l. induction n as [|n IH]; intros [|x l]; simpl; done.
Qed.

Section PartitionTupleClaim.
Context {treeOps : TreeOps} {sqlbaseOps : SqlbaseOps}
  {encodingOps : EncodingOps}.

(** C4.  [valueEncodePartitionTuple] works on the tuple obtained by
    stripping the parentheses of the expression and wrapping a non-tuple as a
    1-tuple (1, 2); it fails when the arity of that tuple differs from the
    number of partition columns (3), when an element of the tuple is a
    placeholder (4), when an element is DEFAULT and the partitioning is not
    by LIST, and when an element is MAXVALUE and the partitioning is not by
    RANGE (5); a DEFAULT under LIST and a MAXVALUE under RANGE are accepted
    and each appends to the bytes encoded so far the NOT NULL value tag with
    no column id (6), so that DEFAULT alone under LIST and MAXVALUE alone
    under RANGE both encode to that tag (7). *)
Theorem valueEncodePartitionTuple_spec (typ : tree.PartitionByType)
  (maybeTuple : tree.Expr) (cols : list sqlbase.ColumnDescriptor) :
  (valueEncodePartitionTuple typ (tree.ParenExpr maybeTuple) cols =
   valueEncodePartitionTuple typ maybeTuple cols /\
   partitionTuple maybeTuple = partitionTuple (tree.StripParens maybeTuple)) /\
  ((forall exprs, tree.StripParens maybeTuple = tree.Tuple exprs ->
      partitionTuple maybeTuple = exprs) /\
   (isTuple (tree.StripParens maybeTuple) = false ->
      partitionTuple maybeTuple = [tree.StripParens maybeTuple]) /\
   (length (partitionTuple maybeTuple) = length cols ->
      valueEncodePartitionTuple typ maybeTuple cols =
      valueEncodePartitionTuple_loop typ (partitionTuple maybeTuple) cols [])) /\
  (length (partitionTuple maybeTuple) <> length cols ->
   valueEncodePartitionTuple typ maybeTuple cols =
   Err (Errorf "partition has %d columns but %d values were supplied"
          [pretty (len cols); pretty (len (partitionTuple maybeTuple))])) /\
  (forall name, tree.Placeholder name ∈ partitionTuple maybeTuple ->
   failed (valueEncodePartitionTuple typ maybeTuple cols)) /\
  ((tree.DefaultVal ∈ partitionTuple maybeTuple ->
    typ <> tree.PartitionByList ->
    failed (valueEncodePartitionTuple typ maybeTuple cols)) /\
   (tree.MaxVal ∈ partitionTuple maybeTuple ->
    typ <> tree.PartitionByRange ->
    failed (valueEncodePartitionTuple typ maybeTuple cols))) /\
  (forall exprs1 exprs2 value1,
     length (partitionTuple maybeTuple) = length cols ->
     valueEncodePartitionTuple_loop typ exprs1 cols [] = Ok value1 ->
     (typ = tree.PartitionByList ->
      partitionTuple maybeTuple = exprs1 ++ tree.DefaultVal :: exprs2 ->
      valueEncodePartitionTuple typ maybeTuple cols =
      valueEncodePartitionTuple_loop typ exprs2
        (drop (S (length exprs1)) cols) (notNullTag value1)) /\
     (typ = tree.PartitionByRange ->
      partitionTuple maybeTuple = exprs1 ++ tree.MaxVal :: exprs2 ->
      valueEncodePartitionTuple typ maybeTuple cols =
      valueEncodePartitionTuple_loop typ exprs2
        (drop (S (length exprs1)) cols) (notNullTag value1))) /\
  (forall col,
     valueEncodePartitionTuple tree.PartitionByList tree.DefaultVal [col] =
       Ok (notNullTag []) /\
     valueEncodePartitionTuple tree.PartitionByRange tree.MaxVal [col] =
       Ok (notNullTag [])).
Proof.
  assert (Harity : forall e : tree.Expr,
            length (partitionTuple e) = length cols ->
            negb (len (partitionTuple e) =? len cols) = false).
  { intros e Hlen. apply negb_false_iff. by apply len_eqb. }
  assert (Hfail : forall bad,
            bad ∈ partitionTuple maybeTuple ->
            (forall exprs cs value,
               failed (valueEncodePartitionTuple_loop typ (bad :: exprs)
                         cs value)) ->
            failed (valueEncodePartitionTuple typ maybeTuple cols)).
  { intros bad Hin Hbad. rewrite valueEncodePartitionTuple_eq.
    destruct (negb _); [by eexists|].
    by apply (valueEncodePartitionTuple_loop_rejects typ bad). }
  split.
  { split; [reflexivity|]. unfold partitionTuple.
    by rewrite StripParens_idemp. }
  split.
  { split; [|split].
    - unfold partitionTuple. by intros exprs ->.
    - unfold partitionTuple.
      by destruct (tree.StripParens maybeTuple).
    - intros Hlen. by rewrite valueEncodePartitionTuple_eq, Harity. }
  split.
  { intros Hlen. rewrite valueEncodePartitionTuple_eq.
    destruct (len (partitionTuple maybeTuple) =? len cols) eqn:Heq; [|done].
    by apply len_eqb in Heq. }
  split.
  { intros name Hin. apply (Hfail _ Hin). intros; simpl. by eexists. }
  split.
  { split; intros Hin Htyp; apply (Hfail _ Hin); intros; simpl;
      destruct typ; try done; by eexists. }
  split.
  { intros exprs1 exprs2 value1 Hlen Hpre.
    split; intros -> Htuple;
      rewrite valueEncodePartitionTuple_eq, (Harity _ Hlen), Htuple,
        valueEncodePartitionTuple_loop_app, Hpre; simpl;
      by rewrite tail_drop. }
  intros col. split; reflexivity.
Qed.

End PartitionTupleClaim.

(** C4 at PARTITION BY LIST with the value (DEFAULT) for one column, which
    encodes to the reserved tag, and at PARTITION BY RANGE with the tuple
    (MAXVALUE, $1) for two columns, which fails. *)
Lemma valueEncodePartitionTuple_spec_witness :
  valueEncodePartitionTuple (sqlbaseOps := Sample.sqlbaseOps)
    (encodingOps := Sample.encodingOps) tree.PartitionByList
    (tree.ParenExpr tree.DefaultVal) [Examples.column "a" 1] =
    Ok [Byte.x02] /\
  failed (valueEncodePartitionTuple (sqlbaseOps := Sample.sqlbaseOps)
            (encodingOps := Sample.encodingOps) tree.PartitionByRange
            (tree.Tuple [tree.MaxVal; tree.Placeholder "1"])
            [Examples.column "a" 1; Examples.column "b" 2]).
Proof.
  split.
  - destruct (valueEncodePartitionTuple_spec
                (sqlbaseOps := Sample.sqlbaseOps)
                (encodingOps := Sample.encodingOps) tree.PartitionByList
                tree.DefaultVal [Examples.column "a" 1])
      as ((Hparen & _) & _ & _ & _ & _ & _ & Hone).
    rewrite Hparen. apply (Hone (Examples.column "a" 1)).
  - destruct (valueEncodePartitionTuple_spec
                (sqlbaseOps := Sample.sqlbaseOps)
                (encodingOps := Sample.encodingOps) tree.PartitionByRange
                (tree.Tuple [tree.MaxVal; tree.Placeholder "1"])
                [Examples.column "a" 1; Examples.column "b" 2])
      as (_ & _ & _ & Hplaceholder & _).
    apply (Hplaceholder "1"). simpl. apply elem_of_cons. right.
    apply elem_of_cons. by left.
Defined.

(** ** Columns used by several foreign keys *)

(** C5, the code at the failing input.  For
    CREATE TABLE t (a INT, b INT, c INT, PRIMARY KEY (a, b),
      FOREIGN KEY (a) REFERENCES p (x),
      FOREIGN KEY (a, c) REFERENCES q (x, y))
    [MakeTableDesc] returns a descriptor: the first foreign key is carried
    by the primary index, the second by the index added for it, and the
    column a (id 1) is counted for both.  The check of lines 1699-1716 runs
    over [desc.Indexes] only and does not see the primary index. *)
Theorem MakeTableDesc_two_fks_share_column :
  exists desc affected idx,
    MakeTableDesc (sqlbaseOps := Sample.sqlbaseOps)
      (catalog := Sample.catalog [Examples.p; Examples.q])
      (encodingOps := Sample.encodingOps)
      Examples.createTable_two_fks 50 55 0 "" ∅ "db" = Ok (desc, affected) /\
    sqlbase.Indexes desc = [idx] /\
    IsSet (SqlbaseOps := Sample.sqlbaseOps)
      (sqlbase.idx_ForeignKey (sqlbase.PrimaryIndex desc)) = true /\
    IsSet (SqlbaseOps := Sample.sqlbaseOps) (sqlbase.idx_ForeignKey idx)
      = true /\
    foreignKeyColumns (sqlbase.PrimaryIndex desc) = [1] /\
    foreignKeyColumns idx = [1; 3] /\
    sqlbase.col_ID <$> sqlbase.Columns desc = [1; 2; 3] /\
    sqlbase.col_Name <$> sqlbase.Columns desc = ["a"; "b"; "c"].
Proof.
  eexists _, _, _. split; [vm_compute; reflexivity|].
  repeat split.
Qed.

(** ** CREATE USER and ALTER USER *)

Section UserProperties.
Context {treeOps : TreeOps} {plannerOps : PlannerOps}.

(** C6, as amended.  When the user name and the password resolve and the
    internal executor reports no error: CREATE USER succeeds if the row
    count is exactly 1 and fails with the "rows affected by user creation"
    error for every other count; ALTER USER ... WITH PASSWORD fails with
    "user ... does not exist" if the count is 0 and IF EXISTS was not given,
    and succeeds in every other case, whatever the count.  Both record the
    count in the node. *)
Theorem user_Start_rows_affected (username : string)
  (hashedPassword : option sqlbase.bytes) (rows : Z) (p p' : planner) :
  (forall n,
     resolve (cun_userAuthInfo n) = Ok (username, hashedPassword) ->
     ExecuteStatementInTransaction p "create-user" createUserStmt
       username hashedPassword = (rows, None, p') ->
     createUserNode_Start n p =
       (cun_with_rowsAffected rows n, p',
        if rows =? 1 then None
        else Some (Errorf
               "%d rows affected by user creation; expected exactly one row affected"
               [pretty rows]))) /\
  (forall n,
     resolve (aun_userAuthInfo n) = Ok (username, hashedPassword) ->
     ExecuteStatementInTransaction p "create-user" alterUserStmt
       username hashedPassword = (rows, None, p') ->
     alterUserSetPasswordNode_Start n p =
       (aun_with_rowsAffected rows n, p',
        if (rows =? 0) && negb (aun_ifExists n)
        then Some (Errorf "user %s does not exist" [username])
        else None)).
Proof.
  split; intros n Hresolve Hexec.
  - unfold createUserNode_Start. rewrite Hresolve.
    unfold createUserStmt in Hexec. rewrite Hexec. simpl.
    by destruct (rows =? 1).
  - unfold alterUserSetPasswordNode_Start. rewrite Hresolve.
    unfold alterUserStmt in Hexec. rewrite Hexec. simpl.
    by destruct ((rows =? 0) && negb (aun_ifExists n)).
Qed.

End UserProperties.

(** C6 at CREATE USER alice with an executor that reports two rows (the
    statement fails) and at ALTER USER alice WITH PASSWORD with an executor
    that reports one row (the statement succeeds). *)
Lemma user_Start_rows_affected_witness :
  snd (createUserNode_Start (treeOps := Sample.treeOps)
         (plannerOps := Sample.plannerOps 2 None)
         Examples.createUser_alice Examples.rootPlanner) =
    Some (Errorf
      "%d rows affected by user creation; expected exactly one row affected"
      ["2"]) /\
  snd (alterUserSetPasswordNode_Start (treeOps := Sample.treeOps)
         (plannerOps := Sample.plannerOps 1 None)
         Examples.alterUser_alice Examples.rootPlanner) = None.
Proof.
  split.
  - rewrite (proj1 (user_Start_rows_affected
               (treeOps := Sample.treeOps)
               (plannerOps := Sample.plannerOps 2 None)
               "alice" None 2 Examples.rootPlanner
               (emit (StatementExecuted "create-user" createUserStmt
                        "alice" None) Examples.rootPlanner))
             Examples.createUser_alice eq_refl eq_refl).
    reflexivity.
  - rewrite (proj2 (user_Start_rows_affected
               (treeOps := Sample.treeOps)
               (plannerOps := Sample.plannerOps 1 None)
               "alice" (Some [Byte.x24]) 1 Examples.rootPlanner
               (emit (StatementExecuted "create-user" alterUserStmt
                        "alice" (Some [Byte.x24])) Examples.rootPlanner))
             Examples.alterUser_alice eq_refl eq_refl).
    reflexivity.
Defined.

(** C6, counterexample to the claim as stated.  For ALTER USER alice WITH
    PASSWORD the executor reports no error and two rows affected; no IF
    EXISTS is involved.  The statement succeeds, with the count 2 in the
    node. *)
Lemma alterUser_two_rows_counterexample :
  let r :=
    alterUserSetPasswordNode_Start (treeOps := Sample.treeOps)
      (plannerOps := Sample.plannerOps 2 None)
      Examples.alterUser_alice Examples.rootPlanner in
  snd r = None /\ aun_rowsAffected (fst (fst r)) = 2 /\
  aun_ifExists (fst (fst r)) = false.
Proof. vm_compute. repeat split. Qed.

(** ** Check constraints *)

Lemma append_nil_r (s : string) : s +:+ "" = s.
Proof.
  induction s as [|c s IH]; [done|].
  change (String c (s +:+ "") = String c s). by f_equal.
Qed.

Lemma append_assoc (s1 s2 s3 : string) :
  (s1 +:+ s2) +:+ s3 = s1 +:+ s2 +:+ s3.
Proof.
  induction s1 as [|c s1 IH]; [done|].
  change (String c ((s1 +:+ s2) +:+ s3) = String c (s1 +:+ s2 +:+ s3)).
  by f_equal.
Qed.

Lemma underscored_app (cols1 cols2 : list sqlbase.ColumnDescriptor) :
  underscored (cols1 ++ cols2) = underscored cols1 +:+ underscored cols2.
Proof.
  induction cols1 as [|c cols1 IH]; simpl; [done|].
  by rewrite IH, !append_assoc.
Qed.

(** Induction on expressions, with the hypothesis for every child of a
    tuple or of a node. *)
Lemma Expr_nested_ind (P : tree.Expr -> Prop)
  (Hparen : forall e, P e -> P (tree.ParenExpr e))
  (Htuple : forall es, Forall P es -> P (tree.Tuple es))
  (Hdefault : P tree.DefaultVal) (Hmax : P tree.MaxVal)
  (Hplaceholder : forall name, P (tree.Placeholder name))
  (Hvar : forall v, P (tree.VarName v))
  (Hnode : forall label es, Forall P es -> P (tree.Node label es))
  (Hdummy : forall typ, P (tree.dummyColumnItem typ)) :
  forall e, P e.
Proof.
  fix IH 1. intros [e|es| | |name|v|label es|typ].
  - apply Hparen, IH.
  - apply Htuple. induction es as [|e es IHes]; constructor;
      [apply IH | exact IHes].
  - exact Hdefault.
  - exact Hmax.
  - apply Hplaceholder.
  - apply Hvar.
  - apply Hnode. induction es as [|e es IHes]; constructor;
      [apply IH | exact IHes].
  - apply Hdummy.
Qed.

Section CheckConstraintProperties.
Context {treeOps : TreeOps} {sqlbaseOps : SqlbaseOps}.

(** The walk appends to the name buffer [_col] for each referenced column,
    in order. *)
Lemma SimpleVisit_preFn_nameBuf (desc : sqlbase.TableDescriptor)
  (d : tree.CheckConstraintTableDef) (e : tree.Expr) :
  forall nameBuf e' nameBuf',
    SimpleVisit_preFn desc d true e nameBuf = Ok (e', nameBuf') ->
    nameBuf' =
    nameBuf +:+ underscored (omap (columnOf desc) (varNames e)).
Proof.
  induction e as [e IH|es IH| | |name|v|label es IH|typ]
    using Expr_nested_ind; intros nameBuf e' nameBuf'; simpl.
  - intros Hv. apply bind_ok in Hv as ([e1 buf1] & Hv & Hr).
    injection Hr as <- <-. by apply (IH _ _ _ Hv).
  - intros Hv. apply bind_ok in Hv as ([es1 buf1] & Hv & Hr).
    injection Hr as <- <-. simpl.
    revert nameBuf es1 buf1 Hv.
    induction IH as [|e es He Hes IHes]; intros nameBuf es1 buf1; simpl.
    + intros [= <- <-]. by rewrite append_nil_r.
    + intros Hv. apply bind_ok in Hv as ([e1 b1] & Hv1 & Hv).
      apply bind_ok in Hv as ([es2 b2] & Hv2 & Hr).
      injection Hr as <- <-. simpl in *.
      rewrite omap_app, underscored_app, <- append_assoc.
      rewrite <- (He _ _ _ Hv1). by apply (IHes _ _ _ Hv2).
  - intros [= <- <-]. by rewrite append_nil_r.
  - intros [= <- <-]. by rewrite append_nil_r.
  - intros [= <- <-]. by rewrite append_nil_r.
  - unfold columnOf.
    destruct (NormalizeVarName v) as [[t c|]|]; simpl; try discriminate.
    + destruct (FindActiveColumnByName desc c) as [col|]; simpl;
        [|discriminate].
      intros [= <- <-]. by rewrite append_nil_r.
    + intros [= <- <-]. by rewrite append_nil_r.
  - intros Hv. apply bind_ok in Hv as ([es1 buf1] & Hv & Hr).
    injection Hr as <- <-. simpl.
    revert nameBuf es1 buf1 Hv.
    induction IH as [|e es He Hes IHes]; intros nameBuf es1 buf1; simpl.
    + intros [= <- <-]. by rewrite append_nil_r.
    + intros Hv. apply bind_ok in Hv as ([e1 b1] & Hv1 & Hv).
      apply bind_ok in Hv as ([es2 b2] & Hv2 & Hr).
      injection Hr as <- <-. simpl in *.
      rewrite omap_app, underscored_app, <- append_assoc.
      rewrite <- (He _ _ _ Hv1). by apply (IHes _ _ _ Hv2).
  - intros [= <- <-]. by rewrite append_nil_r.
Qed.

End CheckConstraintProperties.

(** *** The search for a free name *)

Lemma suffix_name_inj (name : string) (i j : Z) :
  name +:+ pretty i = name +:+ pretty j -> i = j.
Proof. intros Heq. by apply (inj pretty), (inj (String.app name)). Qed.

Lemma makeCheckConstraint_suffix_Some (fuel : nat) (name : string)
  (inuseNames : gset string) (i : Z) (appended : string) :
  makeCheckConstraint_suffix fuel name inuseNames i = Some appended ->
  exists k, i <= k /\ appended = name +:+ pretty k /\
    (appended ∉ inuseNames) /\
    forall j, i <= j < k -> name +:+ pretty j ∈ inuseNames.
Proof.
  revert i. induction fuel as [|fuel IH]; intros i; simpl; [done|].
  destruct (bool_decide (name +:+ pretty i ∈ inuseNames)) eqn:Hin.
  - apply bool_decide_eq_true in Hin. intros Hs.
    destruct (IH _ Hs) as (k & Hk & -> & Hfree & Hused).
    exists k. repeat split; auto with lia.
    intros j Hj. destruct (decide (j = i)) as [-> | Hne]; [done|].
    apply Hused. lia.
  - apply bool_decide_eq_false in Hin. intros [= <-].
    exists i. repeat split; auto with lia.
Qed.

Lemma makeCheckConstraint_suffix_remove (fuel : nat) (name : string)
  (inuseNames : gset string) (i k : Z) :
  k < i ->
  makeCheckConstraint_suffix fuel name (inuseNames ∖ {[name +:+ pretty k]}) i
  = makeCheckConstraint_suffix fuel name inuseNames i.
Proof.
  revert i. induction fuel as [|fuel IH]; intros i Hk; simpl; [done|].
  rewrite IH by lia.
  assert (Hiff : name +:+ pretty i ∈ inuseNames ∖ {[name +:+ pretty k]} <->
                 name +:+ pretty i ∈ inuseNames).
  { rewrite elem_of_difference, elem_of_singleton.
    split; [tauto|]. intros Hin. split; [done|].
    intros Heq. apply suffix_name_inj in Heq. lia. }
  by rewrite (bool_decide_ext _ _ Hiff).
Qed.

(** The search ends: with more fuel than there are names in use it finds a
    free name. *)
Lemma makeCheckConstraint_suffix_total (fuel : nat) (name : string)
  (inuseNames : gset string) (i : Z) :
  (size inuseNames < fuel)%nat ->
  is_Some (makeCheckConstraint_suffix fuel name inuseNames i).
Proof.
  revert inuseNames i. induction fuel as [|fuel IH]; intros inuseNames i Hsize;
    simpl; [lia|].
  destruct (bool_decide (name +:+ pretty i ∈ inuseNames)) eqn:Hin; [|eauto].
  apply bool_decide_eq_true in Hin.
  rewrite <- (makeCheckConstraint_suffix_remove _ _ _ _ i) by lia.
  apply IH.
  assert (Hsub : ({[name +:+ pretty i]} : gset string) ⊆ inuseNames)
    by (by apply singleton_subseteq_l).
  rewrite (size_difference _ _ Hsub), size_singleton.
  assert (size inuseNames <> 0)%nat; [|lia].
  intros Hz. apply size_empty_inv in Hz.
  apply Hz in Hin. by apply not_elem_of_empty in Hin.
Qed.

Section CheckConstraintClaim.
Context {treeOps : TreeOps} {sqlbaseOps : SqlbaseOps}.

Lemma freshCheckName_found (base : string) (inuse : nameSet) :
  exists name,
    (if nameSet_has base inuse
     then
       match makeCheckConstraint_suffix (S (nameSet_size inuse)) base
               (default ∅ inuse) 1 with
       | Some appended => Ok appended
       | None => Err (Panic "the search for a free name did not end")
       end
     else Ok base) = Ok name /\
    freshCheckName base inuse name.
Proof.
  destruct (nameSet_has base inuse) eqn:Hbase.
  - destruct inuse as [names|]; [|discriminate].
    change (default ∅ (Some names)) with names.
    change (nameSet_size (Some names)) with (size names).
    simpl in Hbase.
    destruct (makeCheckConstraint_suffix_total (S (size names)) base names 1)
      as [appended Hs]; [lia|].
    rewrite Hs. exists appended. split; [done|].
    apply makeCheckConstraint_suffix_Some in Hs
      as (k & Hk & -> & Hfree & Hused).
    split; [by apply bool_decide_eq_false|]. right. split; [done|].
    exists k. repeat split; auto.
    intros j Hj. apply bool_decide_eq_true. by apply Hused.
  - exists base. split; [done|]. split; [done|]. by left.
Qed.

(** C7, as amended.  For an unnamed check constraint whose expression
    passes the walk and the two semantic checks, [makeCheckConstraint]
    returns a constraint whose name is check followed by _col for each
    referenced column, in order, made unique among [inuseNames]: unchanged
    when that name is not in [inuseNames], else followed by the smallest
    number from 1 on that gives a name not in [inuseNames]; the name is
    added to [inuseNames]; and the stored expression is the serialization of
    the original expression.  A named constraint keeps its name and leaves
    [inuseNames] as it is, so [inuseNames] holds generated names only.  For
    CREATE TABLE t (a INT, CHECK (a > 0), CHECK (a < 10)) the constraints are
    named check_a and check_a1 and store a > 0 and a < 10. *)
Theorem makeCheckConstraint_generated_name :
  (forall desc d inuseNames expr base,
     SimpleVisit_preFn desc d (eqs (tree.ck_Name d) "") (tree.ck_Expr d)
       (if eqs (tree.ck_Name d) "" then "check" else "") = Ok (expr, base) ->
     AssertNoAggregationOrWindowing expr "CHECK expressions" = None ->
     SanitizeVarFreeExpr expr types_Bool "CHECK" = None ->
     (tree.ck_Name d = "" ->
      base = checkName desc (tree.ck_Expr d) /\
      exists name,
        makeCheckConstraint desc d inuseNames =
          Ok ({| sqlbase.ck_Expr := Serialize (tree.ck_Expr d);
                 sqlbase.ck_Name := name |}, nameSet_add name inuseNames) /\
        freshCheckName base inuseNames name) /\
     (tree.ck_Name d <> "" ->
      makeCheckConstraint desc d inuseNames =
        Ok ({| sqlbase.ck_Expr := Serialize (tree.ck_Expr d);
               sqlbase.ck_Name := tree.ck_Name d |}, inuseNames))) /\
  (exists desc affected,
     MakeTableDesc (sqlbaseOps := Sample.sqlbaseOps)
       (catalog := Sample.catalog []) (encodingOps := Sample.encodingOps)
       Examples.createTable_two_checks 50 55 0 "" ∅ "db"
       = Ok (desc, affected) /\
     sqlbase.Checks desc =
       [{| sqlbase.ck_Expr := "a > 0"; sqlbase.ck_Name := "check_a" |};
        {| sqlbase.ck_Expr := "a < 10"; sqlbase.ck_Name := "check_a1" |}]).
Proof.
  split.
  - intros desc d inuseNames expr base Hvisit Hagg Hsan.
    unfold makeCheckConstraint. rewrite Hvisit. cbn [bind].
    rewrite Hagg, Hsan. cbn [bind check]. split.
    + intros Hname. rewrite Hname in *. rewrite eqs_refl in *.
      split.
      * unfold checkName. by apply SimpleVisit_preFn_nameBuf in Hvisit.
      * destruct (freshCheckName_found base inuseNames)
          as (name & Hfound & Hfresh).
        exists name. split; [|exact Hfresh].
        rewrite Hfound. reflexivity.
    + intros Hname. apply eqs_false in Hname. rewrite Hname. reflexivity.
  - eexists _, _. split; [vm_compute; reflexivity|]. reflexivity.
Qed.

End CheckConstraintClaim.

(** C7 at the second constraint of
    CREATE TABLE t (a INT, CHECK (a > 0), CHECK (a < 10)), when check_a is
    in use: the name is check_a1. *)
Lemma makeCheckConstraint_generated_name_witness :
  exists name,
    makeCheckConstraint (sqlbaseOps := Sample.sqlbaseOps) Examples.t
      {| tree.ck_Name := ""; tree.ck_Expr := Examples.a_lt_10 |}
      (Some {["check_a"]}) =
      Ok ({| sqlbase.ck_Expr := "a < 10"; sqlbase.ck_Name := name |},
          Some ({[name]} ∪ {["check_a"]})) /\
    freshCheckName "check_a" (Some {["check_a"]}) name.
Proof.
  destruct (proj1 (makeCheckConstraint_generated_name
                     (sqlbaseOps := Sample.sqlbaseOps))
              Examples.t
              {| tree.ck_Name := ""; tree.ck_Expr := Examples.a_lt_10 |}
              (Some {["check_a"]})
              (tree.Node "<" [tree.dummyColumnItem "1"; tree.Node "10" []])
              "check_a" eq_refl eq_refl eq_refl)
    as [Hunnamed _].
  destruct (Hunnamed eq_refl) as (_ & name & Hmake & Hfresh).
  exists name. split; [exact Hmake | exact Hfresh].
Defined.

(** C7, counterexample to the claim as stated.  In
    CREATE TABLE t (a INT, CONSTRAINT check_a CHECK (a > 0), CHECK (a < 10))
    the name check_a is used by the first constraint when the second, which
    is unnamed, is built; the name synthesized for it is check_a again, with
    no suffix. *)
Lemma makeCheckConstraint_named_first_counterexample :
  exists desc affected,
    MakeTableDesc (sqlbaseOps := Sample.sqlbaseOps)
      (catalog := Sample.catalog []) (encodingOps := Sample.encodingOps)
      Examples.createTable_named_check 50 55 0 "" ∅ "db"
      = Ok (desc, affected) /\
    sqlbase.ck_Name <$> sqlbase.Checks desc = ["check_a"; "check_a"].
Proof. eexists _, _. split; [vm_compute; reflexivity|]. reflexivity. Qed.

(** ** Constraint hoisting *)

Lemma HoistConstraints_def_hoisted (d d1 : tree.TableDef)
  (added : list tree.TableDef) :
  HoistConstraints_def d = (d1, added) ->
  hoisted d1 /\ Forall hoisted added.
Proof.
  destruct d as [col| | | | |]; simpl;
    try (intros [= <- <-]; split; [exact I | constructor]).
  assert (Hchecks : Forall hoisted
            (map (fun checkExpr =>
                    tree.CheckConstraintDef
                      {| tree.ck_Name := tree.cc_ConstraintName checkExpr;
                         tree.ck_Expr := tree.cc_Expr checkExpr |})
                 (tree.col_CheckExprs col))).
  { apply Forall_forall. intros x Hx. apply list_elem_of_fmap in Hx
      as (c & -> & _). exact I. }
  unfold tree.HasFKConstraint. simpl.
  destruct (tree.TableNameReference (tree.ref_Table (tree.col_References col)))
    eqn:Href; intros [= <- <-]; simpl.
  - split; [done|]. apply Forall_app. split; [exact Hchecks|].
    by repeat constructor.
  - split; [done | exact Hchecks].
Qed.

Lemma HoistConstraints_def_fixed (d : tree.TableDef) :
  hoisted d -> HoistConstraints_def d = (d, []).
Proof.
  destruct d as [col| | | | |]; simpl; try done.
  intros [Hchecks Href]. unfold tree.HasFKConstraint. simpl.
  rewrite Hchecks, Href. simpl. do 2 f_equal.
  destruct col. simpl in *. by subst.
Qed.

Lemma HoistConstraints_loop_hoisted (defs defs1 added : list tree.TableDef) :
  HoistConstraints_loop defs = (defs1, added) ->
  Forall hoisted defs1 /\ Forall hoisted added.
Proof.
  revert defs1 added. induction defs as [|d defs IH]; intros defs1 added; simpl.
  - intros [= <- <-]. by split.
  - destruct (HoistConstraints_def d) as [d1 added1] eqn:Hd.
    destruct (HoistConstraints_loop defs) as [rest added2] eqn:Hrest.
    intros [= <- <-].
    destruct (HoistConstraints_def_hoisted _ _ _ Hd) as [Hd1 Hadded1].
    destruct (IH _ _ eq_refl) as [Hrest' Hadded2].
    split; [by constructor | by apply Forall_app].
Qed.

Lemma HoistConstraints_loop_fixed (defs : list tree.TableDef) :
  Forall hoisted defs -> HoistConstraints_loop defs = (defs, []).
Proof.
  induction 1 as [|d defs Hd Hdefs IH]; simpl; [done|].
  by rewrite (HoistConstraints_def_fixed _ Hd), IH.
Qed.

(** C9.  [HoistConstraints] is idempotent: a second run leaves the statement,
    and so its list of definitions, as the first run left it.  After the
    first run every column definition has an empty list of check expressions
    and an inline [References.Table] that is cleared, and a run on such a
    list of definitions changes nothing and appends nothing. *)
Theorem HoistConstraints_idempotent (n : tree.CreateTable) :
  HoistConstraints (HoistConstraints n) = HoistConstraints n /\
  tree.ct_Defs (HoistConstraints (HoistConstraints n)) =
    tree.ct_Defs (HoistConstraints n) /\
  (forall col,
     tree.ColumnDef col ∈ tree.ct_Defs (HoistConstraints n) ->
     tree.col_CheckExprs col = [] /\
     tree.TableNameReference (tree.ref_Table (tree.col_References col))
       = None) /\
  (forall m, Forall hoisted (tree.ct_Defs m) -> HoistConstraints m = m).
Proof.
  assert (Hfixed : forall m,
            Forall hoisted (tree.ct_Defs m) -> HoistConstraints m = m).
  { intros m Hm. unfold HoistConstraints.
    rewrite (HoistConstraints_loop_fixed _ Hm), app_nil_r.
    by destruct m. }
  assert (Hall : Forall hoisted (tree.ct_Defs (HoistConstraints n))).
  { unfold HoistConstraints.
    destruct (HoistConstraints_loop (tree.ct_Defs n)) as [defs added] eqn:Hl.
    apply HoistConstraints_loop_hoisted in Hl as [Hdefs Hadded].
    simpl. by apply Forall_app. }
  split; [by apply Hfixed|]. split; [by rewrite Hfixed|].
  split; [|exact Hfixed].
  intros col Hin. rewrite Forall_forall in Hall. exact (Hall _ Hin).
Qed.

(** C9 at CREATE TABLE foo (a INT CHECK (a > 0) REFERENCES bar (a)): the
    first run appends the check and the foreign key and clears the column;
    the second run changes nothing. *)
Lemma HoistConstraints_idempotent_witness :
  length (tree.ct_Defs (HoistConstraints Examples.createTable_inline))
    = 3%nat /\
  Forall hoisted (tree.ct_Defs (HoistConstraints Examples.createTable_inline))
  /\
  HoistConstraints (HoistConstraints Examples.createTable_inline) =
    HoistConstraints Examples.createTable_inline.
Proof.
  split; [reflexivity|]. split.
  - repeat constructor.
  - apply (proj2 (proj2 (proj2 (HoistConstraints_idempotent
                                  Examples.createTable_inline)))
             (HoistConstraints Examples.createTable_inline)).
    repeat constructor.
Defined.

(** ** CREATE INDEX IF NOT EXISTS *)

Section CreateIndexProperties.
Context {treeOps : TreeOps} {sqlbaseOps : SqlbaseOps} {catalog : Catalog}
  {encodingOps : EncodingOps} {plannerOps : PlannerOps}.

(** C10.  When the statement carries IF NOT EXISTS and [FindIndexByName]
    finds an index of the requested name that is not being dropped,
    [createIndexNode.Start] returns nil and leaves the node and the planner
    as they were: the table descriptor, and so its list of mutations, is the
    same, and no effect (job, descriptor write, event-log record,
    notification) is added. *)
Theorem createIndexNode_Start_if_not_exists (n : createIndexNode)
  (p : planner) (idx : sqlbase.IndexDescriptor) :
  tree.ci_IfNotExists (cin_n n) = true ->
  FindIndexByName (cin_tableDesc n) (tree.ci_Name (cin_n n))
    = Ok (idx, false) ->
  createIndexNode_Start n p = Ok (n, p) /\
  forall n' p',
    createIndexNode_Start n p = Ok (n', p') ->
    cin_tableDesc n' = cin_tableDesc n /\
    sqlbase.Mutations (cin_tableDesc n') = sqlbase.Mutations (cin_tableDesc n)
    /\ sqlbase.NextMutationID (cin_tableDesc n') =
       sqlbase.NextMutationID (cin_tableDesc n) /\
    p_effects p' = p_effects p /\ p' = p.
Proof.
  intros Hif Hfind.
  assert (Hstart : createIndexNode_Start n p = Ok (n, p)).
  { unfold createIndexNode_Start. by rewrite Hfind, Hif. }
  split; [exact Hstart|].
  intros n' p' Hstart'. rewrite Hstart in Hstart'.
  by injection Hstart' as <- <-.
Qed.

End CreateIndexProperties.

(** C10 at CREATE INDEX IF NOT EXISTS t_b_idx ON t (b), where t has an index
    t_b_idx: nothing happens. *)
Lemma createIndexNode_Start_if_not_exists_witness :
  createIndexNode_Start (sqlbaseOps := Sample.sqlbaseOps)
    (catalog := Sample.catalog [Examples.t])
    (encodingOps := Sample.encodingOps)
    (plannerOps := Sample.plannerOps 0 None)
    (Examples.createIndex_t_b true) Examples.rootPlanner
  = Ok (Examples.createIndex_t_b true, Examples.rootPlanner).
Proof.
  apply (createIndexNode_Start_if_not_exists
           (sqlbaseOps := Sample.sqlbaseOps)
           (catalog := Sample.catalog [Examples.t])
           (encodingOps := Sample.encodingOps)
           (plannerOps := Sample.plannerOps 0 None)
           (Examples.createIndex_t_b true) Examples.rootPlanner
           (Examples.index "t_b_idx" 2 false [Examples.column "b" 2])
           eq_refl eq_refl).
Defined.

(** Without IF NOT EXISTS the same statement goes on: a job is created, the
    descriptor is written, an event is logged and the schema changer is
    notified. *)
Example createIndexNode_Start_effects :
  exists n' p',
    createIndexNode_Start (sqlbaseOps := Sample.sqlbaseOps)
      (catalog := Sample.catalog [Examples.t])
      (encodingOps := Sample.encodingOps)
      (plannerOps := Sample.plannerOps 0 None)
      (Examples.createIndex_t_b false) Examples.rootPlanner = Ok (n', p') /\
    length (p_effects p') = 4%nat.
Proof. eexists _, _. split; [vm_compute; reflexivity|]. reflexivity. Qed.

(** * Further properties of the code *)

#[local] Set Warnings "-clear-no-such-hyp".

(** ** Matching columns against an index *)

(** X1.  An exact match is a prefix match of the same length, and a prefix match
    says that the ids of the columns are the first column ids of the
    index. *)
Theorem matchesIndex_exact_iff_prefix (cols : list sqlbase.ColumnDescriptor)
  (idx : sqlbase.IndexDescriptor) :
  (matchesIndex cols idx matchExact = true <->
   matchesIndex cols idx matchPrefix = true /\
   length cols = length (sqlbase.idx_ColumnIDs idx)) /\
  (matchesIndex cols idx matchPrefix = true <->
   (length cols <= length (sqlbase.idx_ColumnIDs idx))%nat /\
   take (length cols) (sqlbase.idx_ColumnIDs idx) = map sqlbase.col_ID cols).
Proof.
  split.
  - rewrite matchesIndex_exact, matchesIndex_prefix, exactMatch_prefixMatch.
    split; intros [Hp Hl]; split; auto.
  - rewrite matchesIndex_prefix. unfold prefixMatch. split.
    + intros [rest ->]. rewrite length_app, length_map. split; [lia|].
      rewrite <- (length_map sqlbase.col_ID cols) at 1.
      by rewrite take_app_length.
    + intros [Hlen Htake].
      exists (drop (length cols) (sqlbase.idx_ColumnIDs idx)).
      by rewrite <- Htake, take_drop.
Qed.

(** ** Resolving a foreign key *)

Section ResolveFKProperties.
Context {treeOps : TreeOps} {sqlbaseOps : SqlbaseOps} {catalog : Catalog}.

(** Where the target pointer of [resolveFK] comes from. *)
Lemma resolveFK_target_inv (tbl tbl' : sqlbase.TableDescriptor)
  (targetTable : tree.TableName)
  (backrefs backrefs' : gmap Z sqlbase.TableDescriptor)
  (mode : sqlbase.ConstraintValidity) (ptr : tablePtr) :
  resolveFK_target tbl targetTable backrefs mode = Ok (tbl', backrefs', ptr) ->
  match ptr with
  | ThisTable => backrefs' = backrefs
  | BackrefTable id =>
      id <> sqlbase.ID_ tbl' /\
      (forall id', id' <> id -> backrefs' !! id' = backrefs !! id') /\
      exists target,
        backrefs' !! id = Some target /\
        (backrefs !! id = Some target \/
         backrefs !! id = None /\
         getTableDesc targetTable = Ok (Some target) /\
         sqlbase.ID_ target = id)
  end.
Proof.
  unfold resolveFK_target. intros Hr.
  apply bind_ok in Hr as (target & Hget & Hr).
  destruct target as [target|].
  - apply bind_ok in Hr as (tbl1 & Hup & Hr).
    destruct (sqlbase.ID_ target =? sqlbase.ID_ tbl1) eqn:Hid.
    + by injection Hr as <- <- <-.
    + apply Z.eqb_neq in Hid.
      destruct (backrefs !! sqlbase.ID_ target) as [prev|] eqn:Hprev;
        injection Hr as <- <- <-.
      * split; [done|]. split; [done|]. exists prev. auto.
      * split; [done|]. split.
        -- intros id' Hne. by rewrite lookup_insert_ne.
        -- exists target. rewrite lookup_insert_eq. auto.
  - destruct (eqs _ _); [|discriminate]. by injection Hr as <- <- <-.
Qed.

(** What [resolveFK] has established when the columns are resolved. *)
Lemma resolveFK_columns_inv (tbl : sqlbase.TableDescriptor)
  (d : tree.ForeignKeyConstraintTableDef)
  (backrefs : gmap Z sqlbase.TableDescriptor)
  (mode : sqlbase.ConstraintValidity) (c : fkColumns) :
  resolveFK_columns tbl d backrefs mode = Ok c ->
  let target := derefTable (fc_tbl c) (fc_backrefs c) (fc_target c) in
  tree.TableName_of (tree.fk_Table d) = Ok (fc_targetTable c) /\
  resolveFK_target tbl (fc_targetTable c) backrefs mode =
    Ok (fc_tbl c, fc_backrefs c, fc_target c) /\
  FindActiveColumnsByNames (fc_tbl c) (tree.fk_FromCols d)
    = Ok (fc_srcCols c) /\
  FindActiveColumnsByNames target
    (if len (tree.fk_ToCols d) =? 0
     then sqlbase.idx_ColumnNames (sqlbase.PrimaryIndex target)
     else tree.fk_ToCols d) = Ok (fc_targetCols c) /\
  length (fc_targetCols c) = length (fc_srcCols c) /\
  resolveFK_types (sqlbase.Name target) (fc_srcCols c) (fc_targetCols c)
    = Ok tt /\
  (tree.fk_Name d <> "" -> fc_constraintName c = tree.fk_Name d) /\
  (tree.fk_Name d = "" ->
   exists col, head (tree.fk_FromCols d) = Some col /\
     fc_constraintName c = "fk_" +:+ col +:+ "_ref_" +:+ sqlbase.Name target).
Proof.
  unfold resolveFK_columns. intros Hc.
  apply bind_ok in Hc as (tn & Htn & Hc).
  apply bind_ok in Hc as ([[tbl1 backrefs1] ptr] & Htarget & Hc).
  apply bind_ok in Hc as (srcCols & Hsrc & Hc).
  apply bind_ok in Hc as (targetCols & Htgt & Hc).
  destruct (len targetCols =? len srcCols) eqn:Hlen; [|discriminate].
  apply len_eqb in Hlen. simpl in Hc.
  apply bind_ok in Hc as ([] & Htypes & Hc).
  apply bind_ok in Hc as (name & Hname & Hc).
  injection Hc as <-. simpl. repeat split; try done.
  - intros Hne. apply eqs_false in Hne. rewrite Hne in Hname.
    by injection Hname.
  - intros He. rewrite He, eqs_refl in Hname.
    destruct (tree.fk_FromCols d) as [|col cols]; [discriminate|].
    injection Hname as <-. by exists col.
Qed.

Lemma resolveFK_types_ok (targetName : string)
  (srcCols targetCols : list sqlbase.ColumnDescriptor) :
  length targetCols = length srcCols ->
  resolveFK_types targetName srcCols targetCols = Ok tt ->
  Forall2 (fun s t =>
             sqlbase.SemanticType (sqlbase.col_Type s) =
             sqlbase.SemanticType (sqlbase.col_Type t))
    srcCols targetCols.
Proof.
  revert targetCols. induction srcCols as [|s srcCols IH];
    intros [|t targetCols] Hlen; simpl; try done.
  destruct (_ =? _) eqn:Heq; [|discriminate]. simpl.
  apply Z.eqb_eq in Heq. intros Hrest. constructor; [done|].
  apply IH; [|done]. simpl in Hlen. lia.
Qed.

(** The full account of a successful [resolveFK]. *)
Lemma resolveFK_ok_inv_full (tbl : sqlbase.TableDescriptor)
  (d : tree.ForeignKeyConstraintTableDef)
  (backrefs : gmap Z sqlbase.TableDescriptor)
  (mode : sqlbase.ConstraintValidity) (r : fkResolution) :
  resolveFK tbl d backrefs mode = Ok r ->
  exists c idx tbl',
    resolveFK_columns tbl d backrefs mode = Ok c /\
    let target := derefTable (fc_tbl c) (fc_backrefs c) (fc_target c) in
    let append idx :=
      sqlbase.idx_with_ReferencedBy
        (sqlbase.idx_ReferencedBy idx ++ [fr_backref r]) idx in
    derefIndex target (fr_targetIdx r) = Some idx /\
    fr_target r = fc_target c /\
    fr_ref r =
      {| sqlbase.fk_Table := sqlbase.ID_ target;
         sqlbase.fk_Index := sqlbase.idx_ID idx;
         sqlbase.fk_Name := fc_constraintName c;
         sqlbase.fk_Validity := mode;
         sqlbase.fk_SharedPrefixLen := to_int32 (len (fc_srcCols c));
         sqlbase.fk_OnDelete :=
           ForeignKeyReferenceActionValue (tree.Delete (tree.fk_Actions d));
         sqlbase.fk_OnUpdate :=
           ForeignKeyReferenceActionValue (tree.Update (tree.fk_Actions d))
      |} /\
    (tree.Delete (tree.fk_Actions d) = tree.NoAction \/
     tree.Delete (tree.fk_Actions d) = tree.Restrict) /\
    (tree.Update (tree.fk_Actions d) = tree.NoAction \/
     tree.Update (tree.fk_Actions d) = tree.Restrict) /\
    resolveFK_source (fc_tbl c) (fc_srcCols c) (fc_constraintName c)
      (fr_ref r) mode = Ok (tbl', sqlbase.fk_Index (fr_backref r)) /\
    fr_backref r =
      sqlbase.fk_with_Index (sqlbase.fk_Index (fr_backref r))
        {| sqlbase.fk_Table := sqlbase.ID_ (fc_tbl c);
           sqlbase.fk_Index := 0; sqlbase.fk_Name := "";
           sqlbase.fk_Validity := sqlbase.ConstraintValidity_Validated;
           sqlbase.fk_SharedPrefixLen := 0;
           sqlbase.fk_OnDelete := sqlbase.ForeignKeyReference_NO_ACTION;
           sqlbase.fk_OnUpdate := sqlbase.ForeignKeyReference_NO_ACTION |} /\
    match fc_target c with
    | ThisTable =>
        fr_tbl r = updateIndex append (fr_targetIdx r) tbl' /\
        fr_backrefs r = fc_backrefs c
    | BackrefTable id =>
        fr_tbl r = tbl' /\
        fr_backrefs r =
          alter (updateIndex append (fr_targetIdx r)) id (fc_backrefs c)
    end.
Proof.
  unfold resolveFK. intros Hr.
  apply bind_ok in Hr as (c & Hc & Hr).
  apply bind_ok in Hr as (ptr & Hptr & Hr).
  apply bind_ok in Hr as (id & Hid & Hr).
  destruct (derefIndex _ ptr) as [idx|] eqn:Hidx; [|discriminate].
  injection Hid as <-.
  destruct (tree.Delete (tree.fk_Actions d)) eqn:Hdel; try discriminate;
    destruct (tree.Update (tree.fk_Actions d)) eqn:Hupd; try discriminate;
    apply bind_ok in Hr as ([tbl' id] & Hsrc & Hr);
    destruct (fc_target c) eqn:Htarget; injection Hr as <-; simpl;
    exists c, idx, tbl'; rewrite ?Htarget; simpl;
    (split; [done|]); (split; [done|]); (split; [done|]);
    (split; [by destruct mode|]); auto 10.
Qed.

Lemma derefIndex_updateIndex (f : sqlbase.IndexDescriptor -> sqlbase.IndexDescriptor)
  (ptr : indexPtr) (t : sqlbase.TableDescriptor) :
  derefIndex (updateIndex f ptr t) ptr = f <$> derefIndex t ptr.
Proof.
  destruct ptr as [|i]; simpl; [done|]. by rewrite list_lookup_alter_eq.
Qed.

(** X2.  A successful [resolveFK] changes at most one entry of [backrefs], the one
    of the referenced table when that is another table than the one being
    built.  That entry is the one [backrefs] had, or else the descriptor read
    from the catalog, with the back-reference appended to the [ReferencedBy]
    of the very index that the forward reference names. *)
Theorem resolveFK_backrefs_entry (tbl : sqlbase.TableDescriptor)
  (d : tree.ForeignKeyConstraintTableDef)
  (backrefs : gmap Z sqlbase.TableDescriptor)
  (mode : sqlbase.ConstraintValidity) (r : fkResolution) :
  resolveFK tbl d backrefs mode = Ok r ->
  match fr_target r with
  | ThisTable => fr_backrefs r = backrefs
  | BackrefTable id =>
      (forall id', id' <> id -> fr_backrefs r !! id' = backrefs !! id') /\
      exists target idx,
        (backrefs !! id = Some target \/
         backrefs !! id = None /\ sqlbase.ID_ target = id /\
         exists targetTable,
           tree.TableName_of (tree.fk_Table d) = Ok targetTable /\
           getTableDesc targetTable = Ok (Some target)) /\
        derefIndex target (fr_targetIdx r) = Some idx /\
        sqlbase.fk_Table (fr_ref r) = sqlbase.ID_ target /\
        sqlbase.fk_Index (fr_ref r) = sqlbase.idx_ID idx /\
        fr_backrefs r !! id =
          Some (updateIndex
                  (sqlbase.idx_with_ReferencedBy
                     (sqlbase.idx_ReferencedBy idx ++ [fr_backref r]))
                  (fr_targetIdx r) target) /\
        derefIndex (fr_backrefs r !!! id) (fr_targetIdx r) =
          Some (sqlbase.idx_with_ReferencedBy
                  (sqlbase.idx_ReferencedBy idx ++ [fr_backref r]) idx)
  end.
Proof.
  intros Hr.
  apply resolveFK_ok_inv_full in Hr
    as (c & idx & tbl' & Hc & Hidx & Htarget & Href & _ & _ & _ & _ & Hout).
  apply resolveFK_columns_inv in Hc as (Htn & Hres & _).
  apply resolveFK_target_inv in Hres.
  rewrite Htarget. destruct (fc_target c) as [|id]; simpl in *.
  - by destruct Hout as [_ ->].
  - destruct Hout as [_ Hout].
    destruct Hres as (_ & Hframe & target & Hlook & Hfrom).
    split.
    + intros id' Hne. rewrite Hout, lookup_alter_ne by done. by apply Hframe.
    + rewrite (lookup_total_correct _ _ _ Hlook) in Hidx, Href.
      exists target, idx. split.
      { destruct Hfrom as [?|(? & ? & ?)]; [by left|right]. eauto. }
      split; [done|]. split; [by rewrite Href|]. split; [by rewrite Href|].
      assert (fr_backrefs r !! id =
              Some (updateIndex
                      (fun idx0 => sqlbase.idx_with_ReferencedBy
                         (sqlbase.idx_ReferencedBy idx0 ++ [fr_backref r]) idx0)
                      (fr_targetIdx r) target)) as Hnew.
      { by rewrite Hout, lookup_alter_eq, Hlook. }
      assert (updateIndex
                (fun idx0 => sqlbase.idx_with_ReferencedBy
                   (sqlbase.idx_ReferencedBy idx0 ++ [fr_backref r]) idx0)
                (fr_targetIdx r) target =
              updateIndex
                (sqlbase.idx_with_ReferencedBy
                   (sqlbase.idx_ReferencedBy idx ++ [fr_backref r]))
                (fr_targetIdx r) target) as Heq.
      { destruct (fr_targetIdx r) as [|i]; simpl in *.
        - by injection Hidx as <-.
        - f_equal. apply list_eq. intros j.
          destruct (decide (j = i)) as [->|Hne].
          + by rewrite !list_lookup_alter_eq, Hidx.
          + by rewrite !list_lookup_alter_ne by done. }
      split; [by rewrite Hnew, Heq|].
      rewrite (lookup_total_correct _ _ _ Hnew), derefIndex_updateIndex.
      by rewrite Hidx.
Qed.

(** X3.  When the catalog has no table of the referenced name, [resolveFK] fails
    with the not-found error unless the table part of the name (the database
    part is not looked at) is the name of the table being built; and then the
    reference is one of the table to itself: [backrefs] is left as it was and
    both references carry the id of the table. *)
Theorem resolveFK_unknown_table (tbl : sqlbase.TableDescriptor)
  (d : tree.ForeignKeyConstraintTableDef)
  (backrefs : gmap Z sqlbase.TableDescriptor)
  (mode : sqlbase.ConstraintValidity) (targetTable : tree.TableName) :
  tree.TableName_of (tree.fk_Table d) = Ok targetTable ->
  getTableDesc targetTable = Ok None ->
  (tree.Table targetTable <> sqlbase.Name tbl ->
   resolveFK tbl d backrefs mode =
     Err (Errorf "referenced table %q not found"
            [TableName_String targetTable])) /\
  (forall r, resolveFK tbl d backrefs mode = Ok r ->
     tree.Table targetTable = sqlbase.Name tbl /\
     fr_target r = ThisTable /\ fr_backrefs r = backrefs /\
     sqlbase.fk_Table (fr_ref r) = sqlbase.ID_ tbl /\
     sqlbase.fk_Table (fr_backref r) = sqlbase.ID_ tbl).
Proof.
  intros Htn Hget. split.
  - intros Hne. unfold resolveFK, resolveFK_columns, resolveFK_target.
    rewrite Htn. simpl. rewrite Hget. simpl.
    by rewrite (proj2 (eqs_false _ _) Hne).
  - intros r Hr.
    apply resolveFK_ok_inv_full in Hr
      as (c & idx & tbl' & Hc & Hidx & Htarget & Href & _ & _ & _ & Hback
          & Hout).
    apply resolveFK_columns_inv in Hc as (Htn' & Hres & _).
    rewrite Htn in Htn'. injection Htn' as Heq. rewrite <- Heq in Hres.
    unfold resolveFK_target in Hres. rewrite Hget in Hres. simpl in Hres.
    destruct (eqs (tree.Table targetTable) (sqlbase.Name tbl)) eqn:Hname;
      [|discriminate].
    apply eqs_true in Hname. injection Hres as Htbl Hbackrefs Hptr.
    rewrite <- Hptr in *. simpl in *. destruct Hout as [_ Hout].
    split; [done|]. split; [done|]. split; [congruence|].
    split; [by rewrite Href, <- Htbl|]. by rewrite Hback, <- Htbl.
Qed.

(** X4.  [resolveFK] accepts only NO ACTION and RESTRICT as the actions of a
    foreign key; the forward reference it builds records them, and is
    unvalidated exactly when it is asked for an unvalidated constraint.  The
    back-reference carries the table and the index only. *)
Theorem resolveFK_actions (tbl : sqlbase.TableDescriptor)
  (d : tree.ForeignKeyConstraintTableDef)
  (backrefs : gmap Z sqlbase.TableDescriptor)
  (mode : sqlbase.ConstraintValidity) (r : fkResolution) :
  resolveFK tbl d backrefs mode = Ok r ->
  (tree.Delete (tree.fk_Actions d) = tree.NoAction \/
   tree.Delete (tree.fk_Actions d) = tree.Restrict) /\
  (tree.Update (tree.fk_Actions d) = tree.NoAction \/
   tree.Update (tree.fk_Actions d) = tree.Restrict) /\
  sqlbase.fk_OnDelete (fr_ref r) =
    ForeignKeyReferenceActionValue (tree.Delete (tree.fk_Actions d)) /\
  sqlbase.fk_OnUpdate (fr_ref r) =
    ForeignKeyReferenceActionValue (tree.Update (tree.fk_Actions d)) /\
  sqlbase.fk_Validity (fr_ref r) = mode /\
  sqlbase.fk_Name (fr_backref r) = "" /\
  sqlbase.fk_SharedPrefixLen (fr_backref r) = 0 /\
  sqlbase.fk_Validity (fr_backref r) = sqlbase.ConstraintValidity_Validated.
Proof.
  intros Hr.
  apply resolveFK_ok_inv_full in Hr
    as (c & idx & tbl' & _ & _ & _ & Href & Hdel & Hupd & _ & Hback & _).
  rewrite Href. simpl. repeat (split; [done|]).
  by rewrite Hback.
Qed.

(** X5.  On success the source columns and the referenced columns are as many,
    agree in their semantic types position by position, and the forward
    reference records their number as its shared prefix length, narrowed to
    32 bits. *)
Theorem resolveFK_column_types (tbl : sqlbase.TableDescriptor)
  (d : tree.ForeignKeyConstraintTableDef)
  (backrefs : gmap Z sqlbase.TableDescriptor)
  (mode : sqlbase.ConstraintValidity) (r : fkResolution) :
  resolveFK tbl d backrefs mode = Ok r ->
  exists c,
    resolveFK_columns tbl d backrefs mode = Ok c /\
    FindActiveColumnsByNames (fc_tbl c) (tree.fk_FromCols d)
      = Ok (fc_srcCols c) /\
    length (fc_srcCols c) = length (fc_targetCols c) /\
    Forall2 (fun s t =>
               sqlbase.SemanticType (sqlbase.col_Type s) =
               sqlbase.SemanticType (sqlbase.col_Type t))
      (fc_srcCols c) (fc_targetCols c) /\
    sqlbase.fk_SharedPrefixLen (fr_ref r) = to_int32 (len (fc_srcCols c)).
Proof.
  intros Hr.
  apply resolveFK_ok_inv_full in Hr
    as (c & idx & tbl' & Hc & _ & _ & Href & _).
  exists c. split; [done|].
  apply resolveFK_columns_inv in Hc
    as (_ & _ & Hsrc & _ & Hlen & Htypes & _).
  split; [done|]. split; [done|].
  split; [by eapply resolveFK_types_ok|]. by rewrite Href.
Qed.

(** X6.  The name of the constraint in the forward reference is the name given in
    the statement; when none is given it is fk_<first source column>_ref_<name
    of the referenced table>. *)
Theorem resolveFK_constraint_name (tbl : sqlbase.TableDescriptor)
  (d : tree.ForeignKeyConstraintTableDef)
  (backrefs : gmap Z sqlbase.TableDescriptor)
  (mode : sqlbase.ConstraintValidity) (r : fkResolution) :
  resolveFK tbl d backrefs mode = Ok r ->
  (tree.fk_Name d <> "" -> sqlbase.fk_Name (fr_ref r) = tree.fk_Name d) /\
  (tree.fk_Name d = "" ->
   exists col c,
     head (tree.fk_FromCols d) = Some col /\
     resolveFK_columns tbl d backrefs mode = Ok c /\
     sqlbase.fk_Name (fr_ref r) =
       "fk_" +:+ col +:+ "_ref_" +:+
       sqlbase.Name (derefTable (fc_tbl c) (fc_backrefs c) (fr_target r))).
Proof.
  intros Hr.
  apply resolveFK_ok_inv_full in Hr
    as (c & idx & tbl' & Hc & _ & Htarget & Href & _).
  pose proof (resolveFK_columns_inv _ _ _ _ _ Hc)
    as (_ & _ & _ & _ & _ & _ & Hnamed & Hunnamed).
  rewrite Href, Htarget. simpl. split; [done|].
  intros He. destruct (Hunnamed He) as (col & Hhead & Hname).
  by exists col, c.
Qed.

(** X7.  An unvalidated constraint (ALTER TABLE ... ADD CONSTRAINT) on another
    table never adds an index and never touches the state or the version of
    the table: the table comes back as it was but for the foreign key of one
    index that was there, that the source columns prefix-match and that
    carried no foreign key; the back-reference names that index. *)
Theorem resolveFK_unvalidated_source (tbl : sqlbase.TableDescriptor)
  (d : tree.ForeignKeyConstraintTableDef)
  (backrefs : gmap Z sqlbase.TableDescriptor) (r : fkResolution)
  (id : sqlbase.ID) :
  resolveFK tbl d backrefs sqlbase.ConstraintValidity_Unvalidated = Ok r ->
  fr_target r = BackrefTable id ->
  exists ptr idx srcCols,
    FindActiveColumnsByNames tbl (tree.fk_FromCols d) = Ok srcCols /\
    derefIndex tbl ptr = Some idx /\
    matchesIndex srcCols idx matchPrefix = true /\
    IsSet (sqlbase.idx_ForeignKey idx) = false /\
    fr_tbl r = updateIndex (sqlbase.idx_with_ForeignKey (fr_ref r)) ptr tbl /\
    fr_backref r =
      {| sqlbase.fk_Table := sqlbase.ID_ tbl;
         sqlbase.fk_Index := sqlbase.idx_ID idx;
         sqlbase.fk_Name := "";
         sqlbase.fk_Validity := sqlbase.ConstraintValidity_Validated;
         sqlbase.fk_SharedPrefixLen := 0;
         sqlbase.fk_OnDelete := sqlbase.ForeignKeyReference_NO_ACTION;
         sqlbase.fk_OnUpdate := sqlbase.ForeignKeyReference_NO_ACTION |}.
Proof.
  intros Hr Hid.
  apply resolveFK_ok_inv_full in Hr
    as (c & idx & tbl' & Hc & _ & Htarget & _ & _ & _ & Hsrc & Hback & Hout).
  apply resolveFK_columns_inv in Hc as (_ & Hres & Hcols & _).
  assert (fc_tbl c = tbl) as Htbl.
  { unfold resolveFK_target in Hres.
    destruct (getTableDesc (fc_targetTable c)) as [[target|]|]; simpl in Hres;
      try discriminate.
    - destruct (_ =? _); [by injection Hres|].
      destruct (backrefs !! _); by injection Hres.
    - destruct (eqs _ _); [by injection Hres|discriminate]. }
  rewrite Htbl in *. rewrite <- Htarget, Hid in Hout.
  destruct Hout as [-> _]. clear Htarget Hres.
  unfold resolveFK_source in Hsrc.
  destruct (matchesIndex (fc_srcCols c) (sqlbase.PrimaryIndex tbl)
              matchPrefix) eqn:Hprim.
  - destruct (IsSet _) eqn:Hset; [discriminate|].
    injection Hsrc as <- Hidx.
    exists PrimaryIndexPtr, (sqlbase.PrimaryIndex tbl), (fc_srcCols c).
    rewrite Hback, <- Hidx. by repeat split.
  - destruct (resolveFK_scanSource_spec (fc_srcCols c) (fr_ref r)
                (sqlbase.Indexes tbl))
      as [[Hnone _] | (i & sidx & (Hi & Hp & _) & Hscan)].
    + rewrite Hnone in Hsrc. discriminate.
    + rewrite Hscan in Hsrc.
      destruct (IsSet _) eqn:Hset; [discriminate|].
      simpl in Hsrc. injection Hsrc as <- Hidx.
      exists (SecondaryIndexPtr i), sidx, (fc_srcCols c).
      rewrite Hback, <- Hidx. simpl.
      split; [done|]. split; [done|].
      split; [by apply matchesIndex_prefix|]. split; [done|].
      split; [|done]. f_equal. apply list_eq. intros j.
      destruct (decide (j = i)) as [->|Hne].
      * rewrite list_lookup_insert_eq by (by eapply lookup_lt_Some).
        by rewrite list_lookup_alter_eq, Hi.
      * by rewrite list_lookup_insert_ne, list_lookup_alter_ne by done.
Qed.

End ResolveFKProperties.

(** The reference of t (b) to p (x), where the catalog has p: the entry of p
    is the only one of [backrefs]. *)
Lemma resolveFK_backrefs_entry_witness :
  exists r,
    resolveFK (sqlbaseOps := Sample.sqlbaseOps)
      (catalog := Sample.catalog [Examples.p])
      Examples.t (Examples.foreignKey ["b"] "p" ["x"]) ∅
      sqlbase.ConstraintValidity_Validated = Ok r /\
    forall id', id' <> 51 -> fr_backrefs r !! id' = None.
Proof.
  destruct (resolveFK (sqlbaseOps := Sample.sqlbaseOps)
      (catalog := Sample.catalog [Examples.p])
      Examples.t (Examples.foreignKey ["b"] "p" ["x"]) ∅
      sqlbase.ConstraintValidity_Validated) as [r|e] eqn:Hr;
    [|vm_compute in Hr; discriminate].
  exists r. split; [reflexivity|].
  pose proof (resolveFK_backrefs_entry _ _ _ _ _ Hr) as Hentry.
  assert (fr_target r = BackrefTable 51) as Ht
    by (vm_compute in Hr; injection Hr as <-; reflexivity).
  rewrite Ht in Hentry. destruct Hentry as [Hframe _].
  intros id' Hne. by rewrite Hframe.
Defined.

(** The same reference where the catalog is empty. *)
Lemma resolveFK_unknown_table_witness :
  resolveFK (sqlbaseOps := Sample.sqlbaseOps) (catalog := Sample.catalog [])
    Examples.t (Examples.foreignKey ["b"] "p" ["x"]) ∅
    sqlbase.ConstraintValidity_Validated =
  Err (Errorf "referenced table %q not found"
         [TableName_String (TreeOps := Sample.treeOps)
            {| tree.DatabaseName := "db"; tree.Table := "p" |}]).
Proof.
  apply (resolveFK_unknown_table (sqlbaseOps := Sample.sqlbaseOps)
           (catalog := Sample.catalog [])
           Examples.t (Examples.foreignKey ["b"] "p" ["x"]) ∅
           sqlbase.ConstraintValidity_Validated
           {| tree.DatabaseName := "db"; tree.Table := "p" |}
           eq_refl eq_refl).
  discriminate.
Defined.

Lemma resolveFK_actions_witness :
  exists r,
    resolveFK (sqlbaseOps := Sample.sqlbaseOps)
      (catalog := Sample.catalog [Examples.p])
      Examples.t (Examples.foreignKey ["b"] "p" ["x"]) ∅
      sqlbase.ConstraintValidity_Unvalidated = Ok r /\
    sqlbase.fk_Validity (fr_ref r) = sqlbase.ConstraintValidity_Unvalidated.
Proof.
  destruct (resolveFK (sqlbaseOps := Sample.sqlbaseOps)
      (catalog := Sample.catalog [Examples.p])
      Examples.t (Examples.foreignKey ["b"] "p" ["x"]) ∅
      sqlbase.ConstraintValidity_Unvalidated) as [r|e] eqn:Hr;
    [|vm_compute in Hr; discriminate].
  exists r. split; [reflexivity|].
  apply (resolveFK_actions _ _ _ _ _ Hr).
Defined.

Lemma resolveFK_column_types_witness :
  exists r c,
    resolveFK (sqlbaseOps := Sample.sqlbaseOps)
      (catalog := Sample.catalog [Examples.p])
      Examples.t (Examples.foreignKey ["b"] "p" ["x"]) ∅
      sqlbase.ConstraintValidity_Validated = Ok r /\
    Forall2 (fun s t =>
               sqlbase.SemanticType (sqlbase.col_Type s) =
               sqlbase.SemanticType (sqlbase.col_Type t))
      (fc_srcCols c) (fc_targetCols c) /\
    sqlbase.fk_SharedPrefixLen (fr_ref r) = to_int32 (len (fc_srcCols c)).
Proof.
  destruct (resolveFK (sqlbaseOps := Sample.sqlbaseOps)
      (catalog := Sample.catalog [Examples.p])
      Examples.t (Examples.foreignKey ["b"] "p" ["x"]) ∅
      sqlbase.ConstraintValidity_Validated) as [r|e] eqn:Hr;
    [|vm_compute in Hr; discriminate].
  destruct (resolveFK_column_types _ _ _ _ _ Hr)
    as (c & _ & _ & _ & Htypes & Hlen).
  by exists r, c.
Defined.

Lemma resolveFK_constraint_name_witness :
  exists r,
    resolveFK (sqlbaseOps := Sample.sqlbaseOps)
      (catalog := Sample.catalog [Examples.p])
      Examples.t
      {| tree.fk_Name := "t_b_fkey"; tree.fk_Table := Examples.tableName "p";
         tree.fk_FromCols := ["b"]; tree.fk_ToCols := ["x"];
         tree.fk_Actions := Examples.noActions |} ∅
      sqlbase.ConstraintValidity_Validated = Ok r /\
    sqlbase.fk_Name (fr_ref r) = "t_b_fkey".
Proof.
  destruct (resolveFK (sqlbaseOps := Sample.sqlbaseOps)
      (catalog := Sample.catalog [Examples.p])
      Examples.t
      {| tree.fk_Name := "t_b_fkey"; tree.fk_Table := Examples.tableName "p";
         tree.fk_FromCols := ["b"]; tree.fk_ToCols := ["x"];
         tree.fk_Actions := Examples.noActions |} ∅
      sqlbase.ConstraintValidity_Validated) as [r|e] eqn:Hr;
    [|vm_compute in Hr; discriminate].
  exists r. split; [reflexivity|].
  by apply (resolveFK_constraint_name _ _ _ _ _ Hr).
Defined.

Lemma resolveFK_unvalidated_source_witness :
  exists r,
    resolveFK (sqlbaseOps := Sample.sqlbaseOps)
      (catalog := Sample.catalog [Examples.p])
      Examples.t (Examples.foreignKey ["b"] "p" ["x"]) ∅
      sqlbase.ConstraintValidity_Unvalidated = Ok r /\
    exists ptr idx,
      derefIndex Examples.t ptr = Some idx /\
      fr_tbl r =
        updateIndex (sqlbase.idx_with_ForeignKey (fr_ref r)) ptr Examples.t.
Proof.
  destruct (resolveFK (sqlbaseOps := Sample.sqlbaseOps)
      (catalog := Sample.catalog [Examples.p])
      Examples.t (Examples.foreignKey ["b"] "p" ["x"]) ∅
      sqlbase.ConstraintValidity_Unvalidated) as [r|e] eqn:Hr;
    [|vm_compute in Hr; discriminate].
  exists r. split; [reflexivity|].
  assert (fr_target r = BackrefTable 51) as Ht
    by (vm_compute in Hr; injection Hr as <-; reflexivity).
  destruct (resolveFK_unvalidated_source _ _ _ _ _ Hr Ht)
    as (ptr & idx & srcCols & _ & Hidx & _ & _ & Htbl & _).
  by exists ptr, idx.
Defined.
(** ** Interleaving *)

Section InterleaveCompleteness.
Context {treeOps : TreeOps} {sqlbaseOps : SqlbaseOps} {catalog : Catalog}.

Lemma addInterleave_loop_complete (parentTable desc : sqlbase.TableDescriptor)
  (parentIndex index : sqlbase.IndexDescriptor) (fields : tree.NameList)
  (ids : list sqlbase.ColumnID) (i : nat) :
  (forall j targetColID, ids !! j = Some targetColID ->
     sqlbase.idx_ColumnIDs parentIndex !! (i + j)%nat = Some targetColID) ->
  (forall j, (j < length ids)%nat ->
     interleaveFieldMatches parentTable desc parentIndex index fields
       (i + j)%nat) ->
  addInterleave_loop parentTable desc parentIndex index fields ids i = Ok tt.
Proof.
  revert i. induction ids as [|targetColID ids IH]; intros i Hids Hall;
    simpl; [done|].
  destruct (Hall 0%nat ltac:(simpl; lia))
    as (field & colID & col & targetColID' & targetCol & dir & Hfield
        & HcolID & Hcol & Htid & Htarget & Hname & Htype & Hdir & Hpdir).
  rewrite Nat.add_0_r in *.
  pose proof (Hids 0%nat targetColID eq_refl) as Hhead.
  rewrite Nat.add_0_r in Hhead. rewrite Hhead in Htid.
  injection Htid as <-.
  assert (index_at fields i = Ok field) as Hf by (by apply index_at_ok).
  rewrite Htarget. simpl.
  rewrite (proj2 (index_at_ok _ _ _) HcolID). simpl. rewrite Hcol. simpl.
  rewrite Hf. simpl.
  rewrite (proj2 (eqs_true _ _) Hname), Htype. simpl.
  rewrite (proj2 (index_at_ok _ _ _) Hdir). simpl.
  rewrite (proj2 (index_at_ok _ _ _) Hpdir). simpl.
  rewrite (proj2 (Direction_eqb_eq _ _) eq_refl). simpl.
  apply IH.
  - intros j id' Hj. specialize (Hids (S j) id' Hj).
    by replace (S i + j)%nat with (i + S j)%nat by lia.
  - intros j Hj. replace (S i + j)%nat with (i + S j)%nat by lia.
    apply Hall. simpl. lia.
Qed.

(** X8.  The conditions that a successful [addInterleave] has checked are also
    enough for it to succeed: with the default drop behaviour, a parent that
    is found, as many fields as the parent's primary index has columns and a
    match at each of these positions, the index comes back with the parent
    appended to the parent's own ancestors and the table in state ADD. *)
Theorem addInterleave_complete (desc : sqlbase.TableDescriptor)
  (index : sqlbase.IndexDescriptor) (interleave : tree.InterleaveDef)
  (sessionDB : string) (tn : tree.TableName)
  (parentTable : sqlbase.TableDescriptor) :
  let parentIndex := sqlbase.PrimaryIndex parentTable in
  let ancestors := sqlbase.Ancestors (sqlbase.idx_Interleave parentIndex) in
  tree.idef_DropBehavior interleave = tree.DropDefault ->
  NormalizeWithDatabaseName (tree.Parent interleave) sessionDB = Ok tn ->
  MustGetTableDesc tn true = Ok parentTable ->
  length (tree.Fields interleave) = length (sqlbase.idx_ColumnIDs parentIndex) ->
  (forall i, (i < length (sqlbase.idx_ColumnIDs parentIndex))%nat ->
     interleaveFieldMatches parentTable desc parentIndex index
       (tree.Fields interleave) i) ->
  addInterleave desc index interleave sessionDB =
    Ok (sqlbase.with_State sqlbase.TableDescriptor_ADD desc,
        sqlbase.idx_with_Interleave
          {| sqlbase.Ancestors :=
               ancestors ++
               [{| sqlbase.anc_TableID := sqlbase.ID_ parentTable;
                   sqlbase.anc_IndexID := sqlbase.idx_ID parentIndex;
                   sqlbase.anc_SharedPrefixLen :=
                     addInterleave_prefixLen
                       (len (sqlbase.idx_ColumnIDs parentIndex)) ancestors |}]
          |} index).
Proof.
  intros parentIndex ancestors Hdrop Htn Hparent Hlen Hall.
  unfold addInterleave. rewrite Hdrop, Htn. simpl. rewrite Hparent. simpl.
  fold parentIndex. unfold len. rewrite Hlen, Z.eqb_refl. simpl.
  assert (length (sqlbase.idx_ColumnIDs parentIndex)
          <= length (sqlbase.idx_ColumnIDs index))%nat as Hle.
  { destruct (length (sqlbase.idx_ColumnIDs parentIndex)) as [|n] eqn:Hn;
      [lia|].
    destruct (Hall n ltac:(lia)) as (_ & colID & _ & _ & _ & _ & _ & HcolID & _).
    apply lookup_lt_Some in HcolID. lia. }
  destruct (Z.ltb_spec (Z.of_nat (length (sqlbase.idx_ColumnIDs index)))
              (Z.of_nat (length (sqlbase.idx_ColumnIDs parentIndex))));
    [lia|].
  rewrite (addInterleave_loop_complete parentTable desc parentIndex index
             (tree.Fields interleave) (sqlbase.idx_ColumnIDs parentIndex)
             0%nat); [done|by intros j id Hj|by intros j Hj; apply Hall].
Qed.

End InterleaveCompleteness.

(** CREATE TABLE child (...) INTERLEAVE IN PARENT parent (pid). *)
Lemma addInterleave_complete_witness :
  addInterleave (sqlbaseOps := Sample.sqlbaseOps)
    (catalog := Sample.catalog [Examples.parent])
    Examples.child (sqlbase.PrimaryIndex Examples.child)
    Examples.interleaveInParent "db" =
  Ok (sqlbase.with_State sqlbase.TableDescriptor_ADD Examples.child,
      sqlbase.idx_with_Interleave
        {| sqlbase.Ancestors :=
             [{| sqlbase.anc_TableID := 53; sqlbase.anc_IndexID := 1;
                 sqlbase.anc_SharedPrefixLen := 1 |}] |}
        (sqlbase.PrimaryIndex Examples.child)).
Proof.
  apply (addInterleave_complete (sqlbaseOps := Sample.sqlbaseOps)
           (catalog := Sample.catalog [Examples.parent])
           Examples.child (sqlbase.PrimaryIndex Examples.child)
           Examples.interleaveInParent "db"
           {| tree.DatabaseName := "db"; tree.Table := "parent" |}
           Examples.parent eq_refl eq_refl eq_refl eq_refl).
  intros [|i] Hi; [|simpl in Hi; lia].
  exists "pid", 1, (Examples.column "pid" 1), 1, (Examples.column "pid" 1),
    sqlbase.IndexDescriptor_ASC.
  repeat split.
Defined.
(** ** Partitioning *)

Section PartitionedByProperties.
Context {treeOps : TreeOps} {sqlbaseOps : SqlbaseOps}
  {encodingOps : EncodingOps}.

Lemma addPartitionedBy_cols_spec (tableDesc : sqlbase.TableDescriptor)
  (indexDesc : sqlbase.IndexDescriptor) (colOffset : Z)
  (fields : tree.NameList) (i : Z) (cols : list sqlbase.ColumnDescriptor) :
  0 <= colOffset + i ->
  addPartitionedBy_cols tableDesc indexDesc colOffset fields i = Ok cols ->
  map sqlbase.col_Name cols = fields /\
  Forall2 (fun name col => FindActiveColumnByName tableDesc name = Ok col)
    (take (length fields)
       (drop (Z.to_nat (colOffset + i)) (sqlbase.idx_ColumnNames indexDesc)))
    cols.
Proof.
  revert i cols. induction fields as [|field fields IH]; intros i cols Hpos;
    simpl.
  - intros [= <-]. split; [done|]. constructor.
  - destruct (_ <=? _); [discriminate|]. intros Hcols.
    apply bind_ok in Hcols as (name & Hname & Hcols).
    apply bind_ok in Hcols as (col & Hcol & Hcols).
    destruct (eqs field (sqlbase.col_Name col)) eqn:Hfield; [|discriminate].
    simpl in Hcols. apply eqs_true in Hfield.
    apply bind_ok in Hcols as (cols' & Hrest & Hcols).
    injection Hcols as <-. apply index_at_ok in Hname.
    apply IH in Hrest as [Hnames Hfind]; [|lia].
    split; [simpl; by f_equal|].
    rewrite (drop_S _ _ _ Hname). simpl. constructor; [done|].
    by replace (S (Z.to_nat (colOffset + i)))
      with (Z.to_nat (colOffset + (i + 1))) by lia.
Qed.

Lemma addPartitionedBy_values_spec (pName : string)
  (cols : list sqlbase.ColumnDescriptor) (exprs : list tree.Expr)
  (values : list sqlbase.bytes) :
  addPartitionedBy_values pName cols exprs = Ok values ->
  Forall2 (fun expr value =>
             valueEncodePartitionTuple tree.PartitionByList expr cols
               = Ok value /\
             length (partitionTuple expr) = length cols)
    exprs values.
Proof.
  revert values. induction exprs as [|expr exprs IH]; intros values; simpl.
  - intros [= <-]. constructor.
  - destruct (valueEncodePartitionTuple _ expr cols) as [encoded|] eqn:Henc;
      [|discriminate].
    intros Hvalues. apply bind_ok in Hvalues as (values' & Hrest & Hvalues).
    injection Hvalues as <-. constructor; [|by apply IH].
    split; [done|]. rewrite valueEncodePartitionTuple_eq in Henc.
    destruct (len _ =? len _) eqn:Hlen; [|discriminate].
    by apply len_eqb in Hlen.
Qed.

Lemma addPartitionedBy_ranges_spec (cols : list sqlbase.ColumnDescriptor)
  (ranges : list tree.RangePartition)
  (ps : list sqlbase.PartitioningDescriptor_Range) :
  addPartitionedBy_ranges cols ranges = Ok ps ->
  Forall2 (fun r p =>
             sqlbase.range_Name p = Name_Normalize (RangePartition_Name r) /\
             valueEncodePartitionTuple tree.PartitionByRange
               (RangePartition_Expr r) cols = Ok (sqlbase.range_UpperBound p) /\
             length (partitionTuple (RangePartition_Expr r)) = length cols /\
             RangePartition_Subpartition r = None)
    ranges ps.
Proof.
  revert ps. induction ranges as [|[name expr sub] ranges IH]; intros ps;
    simpl.
  - intros [= <-]. constructor.
  - destruct (valueEncodePartitionTuple _ expr cols) as [encoded|] eqn:Henc;
      [|discriminate].
    destruct sub; [discriminate|].
    intros Hps. apply bind_ok in Hps as (ps' & Hrest & Hps).
    injection Hps as <-. constructor; [|by apply IH].
    simpl. repeat split; try done.
    rewrite valueEncodePartitionTuple_eq in Henc.
    destruct (len _ =? len _) eqn:Hlen; [|discriminate].
    by apply len_eqb in Hlen.
Qed.

(** X9.  A successful [addPartitionedBy] sets the number of columns to the number
    of declared fields (in [uint32]) and appends one entry for each list
    partition and one for each range partition of the statement, in the order
    of the statement and under the normalized names.  The declared fields are
    the names of the index columns from [colOffset] on, in order; every value
    of a list partition and the bound of every range partition is a tuple of
    as many expressions as there are fields; a list partition without a
    subpartition has the zero subpartitioning and one with a subpartition has
    what [addPartitionedBy] makes of it on the index columns that follow; no
    range partition has a subpartition. *)
Theorem addPartitionedBy_shape (tableDesc : sqlbase.TableDescriptor)
  (indexDesc : sqlbase.IndexDescriptor)
  (partDesc partDesc' : sqlbase.PartitioningDescriptor)
  (partBy : tree.PartitionBy) (colOffset : Z) :
  0 <= colOffset ->
  addPartitionedBy tableDesc indexDesc partDesc partBy colOffset
    = Ok partDesc' ->
  let fields := PartitionBy_Fields partBy in
  PartitioningDescriptor_NumColumns partDesc' = to_uint32 (len fields) /\
  exists cols newList newRange,
    map sqlbase.col_Name cols = fields /\
    Forall2 (fun name col => FindActiveColumnByName tableDesc name = Ok col)
      (take (length fields)
         (drop (Z.to_nat colOffset) (sqlbase.idx_ColumnNames indexDesc)))
      cols /\
    PartitioningDescriptor_List partDesc' =
      PartitioningDescriptor_List partDesc ++ newList /\
    PartitioningDescriptor_Range partDesc' =
      PartitioningDescriptor_Range partDesc ++ newRange /\
    Forall2 (fun l p =>
               PartitioningDescriptor_List_Name p =
                 Name_Normalize (ListPartition_Name l) /\
               Forall2 (fun expr value =>
                          valueEncodePartitionTuple tree.PartitionByList expr
                            cols = Ok value /\
                          length (partitionTuple expr) = length fields)
                 (ListPartition_Exprs l)
                 (PartitioningDescriptor_List_Values p) /\
               match ListPartition_Subpartition l with
               | None =>
                   PartitioningDescriptor_List_Subpartitioning p =
                     sqlbase.PartitioningDescriptor_zero
               | Some s =>
                   addPartitionedBy tableDesc indexDesc
                     sqlbase.PartitioningDescriptor_zero s
                     (colOffset + to_uint32 (len fields)) =
                   Ok (PartitioningDescriptor_List_Subpartitioning p)
               end)
      (PartitionBy_List partBy) newList /\
    Forall2 (fun r p =>
               sqlbase.range_Name p = Name_Normalize (RangePartition_Name r) /\
               valueEncodePartitionTuple tree.PartitionByRange
                 (RangePartition_Expr r) cols
                 = Ok (sqlbase.range_UpperBound p) /\
               length (partitionTuple (RangePartition_Expr r))
                 = length fields /\
               RangePartition_Subpartition r = None)
      (PartitionBy_Range partBy) newRange.
Proof.
  intros Hpos Hok.
  destruct partBy as [fields listParts rangeParts].
  destruct partDesc as [n partList partRange]. simpl in *.
  apply bind_ok in Hok as (cols & Hcols & Hok).
  apply bind_ok in Hok as (newList & Hlist & Hok).
  apply bind_ok in Hok as (newRange & Hrange & Hok).
  injection Hok as <-. simpl. split; [done|].
  apply addPartitionedBy_cols_spec in Hcols as [Hnames Hfind]; [|lia].
  rewrite Z.add_0_r in Hfind.
  assert (length cols = length fields) as Hlen.
  { by rewrite <- Hnames, length_map. }
  exists cols, newList, newRange.
  split; [done|]. split; [done|]. split; [done|]. split; [done|]. split.
  - clear Hrange. revert newList Hlist.
    induction listParts as [|[name exprs sub] listParts IH]; intros newList.
    + intros [= <-]. constructor.
    + intros Hlist.
      apply bind_ok in Hlist as (values & Hvalues & Hlist).
      apply bind_ok in Hlist as (subDesc & Hsub & Hlist).
      apply bind_ok in Hlist as (ps & Hps & Hlist).
      injection Hlist as <-. constructor; [|by apply IH].
      simpl. split; [done|]. split.
      * apply addPartitionedBy_values_spec in Hvalues.
        eapply Forall2_impl; [exact Hvalues|].
        intros expr value [? ?]. split; [done|congruence].
      * destruct sub as [s|]; [done|]. by injection Hsub as <-.
  - apply addPartitionedBy_ranges_spec in Hrange.
    eapply Forall2_impl; [exact Hrange|].
    intros r p (? & ? & ? & ?). repeat split; try done. congruence.
Qed.

End PartitionedByProperties.

(** PARTITION BY LIST (a) (PARTITION p1 VALUES IN (DEFAULT)) on the primary
    index of t. *)
Lemma addPartitionedBy_shape_witness :
  exists partDesc',
    addPartitionedBy (sqlbaseOps := Sample.sqlbaseOps)
      (encodingOps := Sample.encodingOps) Examples.t
      (sqlbase.PrimaryIndex Examples.t) sqlbase.PartitioningDescriptor_zero
      partitionByList_a 0 = Ok partDesc' /\
    PartitioningDescriptor_NumColumns partDesc' = 1.
Proof.
  destruct (addPartitionedBy (sqlbaseOps := Sample.sqlbaseOps)
      (encodingOps := Sample.encodingOps) Examples.t
      (sqlbase.PrimaryIndex Examples.t) sqlbase.PartitioningDescriptor_zero
      partitionByList_a 0) as [partDesc'|e] eqn:Hok;
    [|vm_compute in Hok; discriminate].
  exists partDesc'. split; [reflexivity|].
  apply (addPartitionedBy_shape _ _ _ _ _ 0 ltac:(lia) Hok).
Defined.
(** ** Hoisting of inline constraints *)


(** ** Names of check constraints and the foreign-key column check *)

Section ConstraintPassProperties.
Context {treeOps : TreeOps} {sqlbaseOps : SqlbaseOps} {catalog : Catalog}
  {encodingOps : EncodingOps}.

Lemma makeCheckConstraint_names (desc : sqlbase.TableDescriptor)
  (d : tree.CheckConstraintTableDef) (names : gset string)
  (ck : sqlbase.TableDescriptor_CheckConstraint) (out : nameSet) :
  makeCheckConstraint desc d (Some names) = Ok (ck, out) ->
  sqlbase.ck_Expr ck = Serialize (tree.ck_Expr d) /\
  ((tree.ck_Name d <> "" /\ sqlbase.ck_Name ck = tree.ck_Name d /\
    out = Some names) \/
   (tree.ck_Name d = "" /\ (sqlbase.ck_Name ck ∉ names) /\
    out = Some ({[sqlbase.ck_Name ck]} ∪ names))).
Proof.
  unfold makeCheckConstraint. intros Hok.
  apply bind_ok in Hok as ([expr base] & _ & Hok).
  apply bind_ok in Hok as ([] & _ & Hok).
  apply bind_ok in Hok as ([] & _ & Hok).
  destruct (eqs (tree.ck_Name d) "") eqn:Hname.
  - apply eqs_true in Hname.
    destruct (freshCheckName_found base (Some names))
      as (name & Hfound & Hfresh & _).
    rewrite Hfound in Hok. simpl in Hok. injection Hok as <- <-.
    split; [done|]. right. split; [done|]. split; [|done].
    simpl in Hfresh. by apply bool_decide_eq_false in Hfresh.
  - apply eqs_false in Hname. simpl in Hok. injection Hok as <- <-.
    split; [done|]. by left.
Qed.

(** X11.  In a list of definitions without FOREIGN KEY constraints the fourth pass
    of [MakeTableDesc] appends one check constraint for each CHECK
    definition, in order, with the serialized expression of the definition,
    and touches nothing else of the descriptor nor the affected tables.  A
    named definition keeps its name; the names generated for the unnamed
    ones are pairwise distinct and none of them was generated before. *)
Theorem MakeTableDesc_constraints_check_names
  (desc desc' : sqlbase.TableDescriptor)
  (affected affected' : gmap Z sqlbase.TableDescriptor)
  (generatedNames : gset string) (defs : list tree.TableDef) :
  Forall (fun d => forall fk, d <> tree.ForeignKeyConstraintDef fk) defs ->
  MakeTableDesc_constraints desc affected generatedNames defs
    = Ok (desc', affected') ->
  affected' = affected /\
  exists cks,
    desc' = sqlbase.with_Checks (sqlbase.Checks desc ++ cks) desc /\
    Forall2 (fun d ck =>
               sqlbase.ck_Expr ck = Serialize (tree.ck_Expr d) /\
               (tree.ck_Name d <> "" -> sqlbase.ck_Name ck = tree.ck_Name d))
      (checkDefs defs) cks /\
    NoDup (generatedCheckNames (checkDefs defs) cks) /\
    forall name, name ∈ generatedCheckNames (checkDefs defs) cks ->
      name ∉ generatedNames.
Proof.
  intros Hnofk. revert desc generatedNames.
  induction Hnofk as [|d defs Hd Hdefs IH]; intros desc generatedNames; simpl.
  - intros [= <- <-]. split; [done|]. exists [].
    split; [rewrite app_nil_r; by destruct desc|].
    split; [constructor|]. split; [constructor|].
    intros name Hin. by apply elem_of_nil in Hin.
  - assert (Hskip :
      MakeTableDesc_constraints desc affected generatedNames defs
        = Ok (desc', affected') ->
      checkDefs (d :: defs) = checkDefs defs ->
      affected' = affected /\
      exists cks,
        desc' = sqlbase.with_Checks (sqlbase.Checks desc ++ cks) desc /\
        Forall2 (fun d ck =>
                   sqlbase.ck_Expr ck = Serialize (tree.ck_Expr d) /\
                   (tree.ck_Name d <> "" ->
                    sqlbase.ck_Name ck = tree.ck_Name d))
          (checkDefs (d :: defs)) cks /\
        NoDup (generatedCheckNames (checkDefs (d :: defs)) cks) /\
        forall name, name ∈ generatedCheckNames (checkDefs (d :: defs)) cks ->
          name ∉ generatedNames).
    { intros Hok ->. by apply IH. }
    destruct d as [| | |c|fk|]; try (intros Hok; by apply Hskip).
    + intros Hok. apply bind_ok in Hok as ([ck out] & Hck & Hok).
      apply makeCheckConstraint_names in Hck as [Hexpr Hname].
      change (checkDefs (tree.CheckConstraintDef c :: defs))
        with (c :: checkDefs defs).
      destruct Hname as [(Hnamed & Hck & ->) | (Hunnamed & Hfresh & ->)];
        simpl in Hok; apply IH in Hok
        as (-> & cks & -> & Hall & Hnodup & Hnew);
        (split; [done|]); exists (ck :: cks); simpl;
        (split; [by rewrite <- app_assoc|]);
        (split; [by constructor|]); unfold generatedCheckNames; simpl.
      * rewrite (proj2 (eqs_false _ _) Hnamed). by split.
      * rewrite (proj2 (eqs_true _ _) Hunnamed). split.
        -- constructor; [|done]. intros Hin. apply Hnew in Hin.
           set_solver.
        -- intros name Hin. apply elem_of_cons in Hin as [-> | Hin];
             [done|]. apply Hnew in Hin. set_solver.
    + by destruct (Hd fk).
Qed.

Lemma MakeTableDesc_fkCols_spec (idx : sqlbase.IndexDescriptor) (n i : nat)
  (colsInFKs : gset Z) :
  (i + n <= length (sqlbase.idx_ColumnIDs idx))%nat ->
  let cols := take n (drop i (sqlbase.idx_ColumnIDs idx)) in
  (NoDup cols /\ (forall id, id ∈ cols -> id ∉ colsInFKs) ->
   MakeTableDesc_fkCols idx n i colsInFKs = Ok (list_to_set cols ∪ colsInFKs))
  /\
  (forall s, MakeTableDesc_fkCols idx n i colsInFKs = Ok s ->
     NoDup cols /\ (forall id, id ∈ cols -> id ∉ colsInFKs)).
Proof.
  revert i colsInFKs. induction n as [|n IH]; intros i colsInFKs Hlen; simpl.
  - rewrite take_0. simpl. split.
    + intros _. f_equal. set_solver.
    + intros s _. split; [constructor|]. intros id Hin.
      by apply elem_of_nil in Hin.
  - destruct (lookup_lt_is_Some_2 (sqlbase.idx_ColumnIDs idx) i ltac:(lia))
      as [id Hid].
    rewrite (drop_S _ _ _ Hid). simpl.
    rewrite (proj2 (index_at_ok _ _ _) Hid). simpl.
    destruct (IH (S i) ({[id]} ∪ colsInFKs) ltac:(lia)) as [Hok Hinv].
    simpl in Hok, Hinv.
    destruct (bool_decide (id ∈ colsInFKs)) eqn:Hin.
    + apply bool_decide_eq_true in Hin. split.
      * intros [_ Hfresh]. destruct (Hfresh id); [by left|done].
      * intros s Hs. by destruct (index_at (sqlbase.idx_ColumnNames idx) i).
    + apply bool_decide_eq_false in Hin. split.
      * intros [Hnodup Hfresh]. apply NoDup_cons in Hnodup as [Hid' Hnodup].
        rewrite Hok.
        -- f_equal. set_solver.
        -- split; [done|]. intros id' Hin'.
           specialize (Hfresh id' ltac:(by right)). set_solver.
      * intros s Hs. apply Hinv in Hs as [Hnodup Hfresh]. split.
        -- constructor; [|done]. intros Hin'. apply Hfresh in Hin'.
           set_solver.
        -- intros id' Hin'. apply elem_of_cons in Hin' as [-> | Hin'];
             [done|]. apply Hfresh in Hin'. set_solver.
Qed.

(** X12.  The last check of [MakeTableDesc] over the secondary indexes, where the
    shared prefix length of each foreign key is within its index: it passes
    exactly when no column is counted twice among the foreign-key columns of
    the indexes that carry a foreign key, and none of them is in the set it
    starts from; it then answers that set with the counted columns added. *)
Theorem MakeTableDesc_fkIndexes_spec (idxs : list sqlbase.IndexDescriptor)
  (colsInFKs : gset Z) :
  Forall (fun idx =>
            IsSet (sqlbase.idx_ForeignKey idx) = true ->
            sqlbase.fk_SharedPrefixLen (sqlbase.idx_ForeignKey idx)
            <= len (sqlbase.idx_ColumnIDs idx)) idxs ->
  let counted :=
    flat_map (fun idx =>
                if IsSet (sqlbase.idx_ForeignKey idx)
                then foreignKeyColumns idx else []) idxs in
  (NoDup counted /\ (forall id, id ∈ counted -> id ∉ colsInFKs) ->
   MakeTableDesc_fkIndexes idxs colsInFKs
     = Ok (list_to_set counted ∪ colsInFKs)) /\
  (forall s, MakeTableDesc_fkIndexes idxs colsInFKs = Ok s ->
     NoDup counted /\ (forall id, id ∈ counted -> id ∉ colsInFKs)).
Proof.
  intros Hwithin. revert colsInFKs.
  induction Hwithin as [|idx idxs Hidx Hrest IH]; intros colsInFKs; simpl.
  - split.
    + intros _. f_equal. set_solver.
    + intros s _. split; [constructor|]. intros id Hin.
      by apply elem_of_nil in Hin.
  - destruct (IsSet (sqlbase.idx_ForeignKey idx)) eqn:Hset; [|apply IH].
    set (numCols :=
           if 0 <? sqlbase.fk_SharedPrefixLen (sqlbase.idx_ForeignKey idx)
           then sqlbase.fk_SharedPrefixLen (sqlbase.idx_ForeignKey idx)
           else len (sqlbase.idx_ColumnIDs idx)).
    assert (foreignKeyColumns idx =
            take (Z.to_nat numCols) (drop 0 (sqlbase.idx_ColumnIDs idx)))
      as Hcols.
    { unfold foreignKeyColumns, numCols. simpl.
      destruct (0 <? _); [done|]. unfold len. rewrite Nat2Z.id.
      by rewrite firstn_all. }
    assert (0 + Z.to_nat numCols <= length (sqlbase.idx_ColumnIDs idx))%nat
      as Hlen.
    { specialize (Hidx eq_refl). unfold numCols, len in *.
      destruct (0 <? _); lia. }
    destruct (MakeTableDesc_fkCols_spec idx (Z.to_nat numCols) 0 colsInFKs
                Hlen) as [Hok Hinv].
    simpl in Hok, Hinv. rewrite <- Hcols in Hok, Hinv.
    destruct (IH (list_to_set (foreignKeyColumns idx) ∪ colsInFKs))
      as [Hok' Hinv'].
    simpl in Hok', Hinv'. split.
    + intros [Hnodup Hfresh]. apply NoDup_app in Hnodup as (Hn1 & Hdisj & Hn2).
      rewrite Hok.
      * simpl. rewrite Hok'.
        -- f_equal. set_solver.
        -- split; [done|]. intros id Hin Hin'.
           apply elem_of_union in Hin' as [Hin' | Hin'].
           ++ apply elem_of_list_to_set in Hin'. by apply (Hdisj id).
           ++ apply (Hfresh id); [|done]. apply elem_of_app. by right.
      * split; [done|]. intros id Hin. apply Hfresh, elem_of_app. by left.
    + intros s Hs. apply bind_ok in Hs as (s1 & Hs1 & Hs).
      destruct (Hinv _ Hs1) as [Hn1 Hfresh1].
      rewrite (Hok (conj Hn1 Hfresh1)) in Hs1. injection Hs1 as <-.
      apply Hinv' in Hs as [Hn2 Hfresh2]. split.
      * apply NoDup_app. split; [done|]. split; [|done].
        intros id Hin Hin'. apply (Hfresh2 id Hin').
        apply elem_of_union. left. by apply elem_of_list_to_set.
      * intros id Hin. apply elem_of_app in Hin as [Hin | Hin];
          [by apply Hfresh1|].
        intros Hin'. apply (Hfresh2 id Hin). apply elem_of_union. by right.
Qed.

End ConstraintPassProperties.

(** The two checks of CREATE TABLE t (a INT, CHECK (a > 0), CHECK (a < 10))
    on the table t. *)
Lemma MakeTableDesc_constraints_check_names_witness :
  exists desc' affected' cks,
    MakeTableDesc_constraints (sqlbaseOps := Sample.sqlbaseOps)
      (catalog := Sample.catalog []) Examples.t ∅ ∅
      [Examples.check "" Examples.a_gt_0; Examples.check "" Examples.a_lt_10]
      = Ok (desc', affected') /\
    desc' = sqlbase.with_Checks cks Examples.t /\
    NoDup (generatedCheckNames
             (checkDefs [Examples.check "" Examples.a_gt_0;
                         Examples.check "" Examples.a_lt_10]) cks).
Proof.
  destruct (MakeTableDesc_constraints (sqlbaseOps := Sample.sqlbaseOps)
      (catalog := Sample.catalog []) Examples.t ∅ ∅
      [Examples.check "" Examples.a_gt_0; Examples.check "" Examples.a_lt_10])
    as [[desc' affected']|e] eqn:Hok; [|vm_compute in Hok; discriminate].
  destruct (MakeTableDesc_constraints_check_names
              (sqlbaseOps := Sample.sqlbaseOps)
              (catalog := Sample.catalog []) Examples.t desc' ∅ affected' ∅
              [Examples.check "" Examples.a_gt_0;
               Examples.check "" Examples.a_lt_10]
              ltac:(by repeat constructor) Hok)
    as (_ & cks & Hdesc & _ & Hnodup & _).
  by exists desc', affected', cks.
Defined.

(** The index of t on (b) when it carries a foreign key on its one
    column. *)
Lemma MakeTableDesc_fkIndexes_spec_witness :
  MakeTableDesc_fkIndexes (sqlbaseOps := Sample.sqlbaseOps)
    [sqlbase.idx_with_ForeignKey Examples.someFK
       (Examples.index "t_b_idx" 2 false [Examples.column "b" 2])] ∅
  = Ok (list_to_set [2] ∪ ∅).
Proof.
  apply (MakeTableDesc_fkIndexes_spec (sqlbaseOps := Sample.sqlbaseOps)
           [sqlbase.idx_with_ForeignKey Examples.someFK
              (Examples.index "t_b_idx" 2 false [Examples.column "b" 2])] ∅).
  - repeat constructor. intros _. simpl. unfold len. simpl. lia.
  - simpl. split; [repeat constructor; set_solver|]. set_solver.
Defined.
(** ** CREATE USER and ALTER USER *)

Section UserStartProperties.
Context {treeOps : TreeOps} {plannerOps : PlannerOps}.

(** X13.  What [resolve] answers is a validated name and, exactly when the
    statement has a password clause, the hash of a non-empty password: the
    name is the normalization of a non-empty name, matches the pattern of
    user names and is not reserved. *)
Theorem resolve_valid (ua : userAuthInfo) (username : string)
  (hashedPassword : option sqlbase.bytes) :
  resolve ua = Ok (username, hashedPassword) ->
  (exists name,
     ua_name ua = Ok name /\ name <> "" /\
     username = Name_Normalize name /\
     usernameRE_MatchString username = true /\
     blacklistedUsernames username = false) /\
  match ua_password ua with
  | None => hashedPassword = None
  | Some password =>
      exists resolvedPassword hashed,
        password = Ok resolvedPassword /\ resolvedPassword <> "" /\
        HashPassword resolvedPassword = Ok hashed /\
        hashedPassword = Some hashed
  end.
Proof.
  unfold resolve. intros Hr.
  apply bind_ok in Hr as (name & Hname & Hr).
  destruct (eqs name "") eqn:Hempty; [discriminate|].
  apply eqs_false in Hempty.
  apply bind_ok in Hr as (normalized & Hnorm & Hr).
  apply bind_ok in Hr as (hash & Hhash & Hr).
  injection Hr as <- <-. split.
  - exists name. unfold NormalizeAndValidateUsername in Hnorm.
    destruct (usernameRE_MatchString (Name_Normalize name)) eqn:Hre;
      [|discriminate].
    destruct (blacklistedUsernames (Name_Normalize name)) eqn:Hbl;
      [discriminate|].
    simpl in Hnorm. injection Hnorm as <-. by rewrite Hre, Hbl.
  - destruct (ua_password ua) as [password|]; [|by injection Hhash].
    apply bind_ok in Hhash as (plain & Hplain & Hhash).
    destruct (eqs plain "") eqn:Hpw; [discriminate|].
    apply eqs_false in Hpw.
    apply bind_ok in Hhash as (hashed & Hhashed & Hhash).
    injection Hhash as <-. by exists plain, hashed.
Qed.

(** X14.  A statement whose user name or password does not resolve never reaches
    the internal executor: CREATE USER and ALTER USER return the error of
    [resolve] and leave the node and the planner as they were. *)
Theorem user_Start_unresolved (ua : userAuthInfo) (err : error) (p : planner) :
  resolve ua = Err err ->
  (forall n, cun_userAuthInfo n = ua ->
     createUserNode_Start n p = (n, p, Some err)) /\
  (forall n, aun_userAuthInfo n = ua ->
     alterUserSetPasswordNode_Start n p = (n, p, Some err)) /\
  (forall name,
     ua_name ua = Ok name -> name <> "" ->
     usernameRE_MatchString (Name_Normalize name) = false ->
     err = Errorf "username %q invalid; %s"
             [Name_Normalize name; usernameHelp]).
Proof.
  intros Hr. split; [|split].
  - intros n <-. unfold createUserNode_Start. by rewrite Hr.
  - intros n <-. unfold alterUserSetPasswordNode_Start. by rewrite Hr.
  - intros name Hname Hne Hre. unfold resolve in Hr. rewrite Hname in Hr.
    simpl in Hr. rewrite (proj2 (eqs_false _ _) Hne) in Hr.
    unfold NormalizeAndValidateUsername in Hr. rewrite Hre in Hr.
    simpl in Hr. by injection Hr.
Qed.

(** X15.  CREATE USER returns without error in two cases only: the executor
    reported no error and exactly one row, or it reported a violation of
    uniqueness and the statement has IF NOT EXISTS, and then the row count of
    the node is reset to zero.  In both the statement was executed once, on
    the resolved name and password. *)
Theorem createUserNode_Start_success (n n' : createUserNode)
  (p p' : planner) :
  createUserNode_Start n p = (n', p', None) ->
  exists username hashedPassword rows err,
    resolve (cun_userAuthInfo n) = Ok (username, hashedPassword) /\
    ExecuteStatementInTransaction p "create-user" createUserStmt
      username hashedPassword = (rows, err, p') /\
    ((err = None /\ rows = 1 /\ n' = cun_with_rowsAffected 1 n) \/
     (exists e, err = Some e /\
        IsUniquenessConstraintViolationError e = true /\
        cun_ifNotExists n = true /\ n' = cun_with_rowsAffected 0 n)).
Proof.
  unfold createUserNode_Start, createUserStmt.
  destruct (resolve (cun_userAuthInfo n)) as [[username hashedPassword]|];
    [|discriminate].
  destruct (ExecuteStatementInTransaction p "create-user" _ username
              hashedPassword) as [[rows err] p1] eqn:Hexec.
  intros Hstart. exists username, hashedPassword, rows, err.
  split; [done|]. destruct err as [e|]; simpl in Hstart.
  - destruct (IsUniquenessConstraintViolationError e) eqn:Hdup;
      [|discriminate].
    destruct (cun_ifNotExists n) eqn:Hif; [|discriminate].
    injection Hstart as <- <-. split; [done|]. right. by exists e.
  - destruct (rows =? 1) eqn:Hrows; [|discriminate].
    apply Z.eqb_eq in Hrows. subst rows. injection Hstart as <- <-.
    split; [done|]. by left.
Qed.

(** X16.  Every error of CREATE USER is of one of four kinds: the error of
    [resolve], with the node and the planner untouched; the row-count error,
    when the executor reported no error and a count other than one; the
    "already exists" error for the normalized name, when the executor
    reported a violation of uniqueness and the statement has no
    IF NOT EXISTS; or the executor's own error, when that is no violation of
    uniqueness. *)
Theorem createUserNode_Start_failure (n n' : createUserNode)
  (p p' : planner) (failure : error) :
  createUserNode_Start n p = (n', p', Some failure) ->
  (resolve (cun_userAuthInfo n) = Err failure /\ n' = n /\ p' = p) \/
  exists username hashedPassword rows err,
    resolve (cun_userAuthInfo n) = Ok (username, hashedPassword) /\
    ExecuteStatementInTransaction p "create-user" createUserStmt
      username hashedPassword = (rows, err, p') /\
    n' = cun_with_rowsAffected rows n /\
    ((err = None /\ rows <> 1 /\
      failure = Errorf
        "%d rows affected by user creation; expected exactly one row affected"
        [pretty rows]) \/
     (exists e, err = Some e /\
        IsUniquenessConstraintViolationError e = true /\
        cun_ifNotExists n = false /\
        failure = Errorf "user %s already exists" [username]) \/
     (exists e, err = Some e /\
        IsUniquenessConstraintViolationError e = false /\ failure = e)).
Proof.
  unfold createUserNode_Start, createUserStmt.
  destruct (resolve (cun_userAuthInfo n)) as [[username hashedPassword]|e0].
  - destruct (ExecuteStatementInTransaction p "create-user" _ username
                hashedPassword) as [[rows err] p1] eqn:Hexec.
    intros Hstart. right. exists username, hashedPassword, rows, err.
    split; [done|]. destruct err as [e|]; simpl in Hstart.
    + destruct (IsUniquenessConstraintViolationError e) eqn:Hdup.
      * destruct (cun_ifNotExists n) eqn:Hif; [discriminate|].
        injection Hstart as <- <- <-. split; [done|]. split; [done|].
        right. left. by exists e.
      * injection Hstart as <- <- <-. split; [done|]. split; [done|].
        right. right. by exists e.
    + destruct (rows =? 1) eqn:Hrows; [discriminate|].
      apply Z.eqb_neq in Hrows. simpl in Hstart.
      injection Hstart as <- <- <-. split; [done|]. split; [done|].
      by left.
  - intros [= <- <- <-]. by left.
Qed.

(** X17.  ALTER USER ... WITH PASSWORD returns without error only when the
    executor reported none and either some row was updated or the statement
    has IF EXISTS; the node records the row count. *)
Theorem alterUserSetPasswordNode_Start_success
  (n n' : alterUserSetPasswordNode) (p p' : planner) :
  alterUserSetPasswordNode_Start n p = (n', p', None) ->
  exists username hashedPassword rows,
    resolve (aun_userAuthInfo n) = Ok (username, hashedPassword) /\
    ExecuteStatementInTransaction p "create-user" alterUserStmt
      username hashedPassword = (rows, None, p') /\
    (rows <> 0 \/ aun_ifExists n = true) /\
    n' = aun_with_rowsAffected rows n.
Proof.
  unfold alterUserSetPasswordNode_Start, alterUserStmt.
  destruct (resolve (aun_userAuthInfo n)) as [[username hashedPassword]|];
    [|discriminate].
  destruct (ExecuteStatementInTransaction p "create-user" _ username
              hashedPassword) as [[rows err] p1] eqn:Hexec.
  intros Hstart. exists username, hashedPassword, rows.
  destruct err as [e|]; simpl in Hstart; [discriminate|].
  destruct (rows =? 0) eqn:Hrows; simpl in Hstart.
  - destruct (aun_ifExists n) eqn:Hif; [|discriminate].
    simpl in Hstart. injection Hstart as <- <-. split; [done|].
    split; [done|]. split; [by right|done].
  - apply Z.eqb_neq in Hrows. injection Hstart as <- <-. split; [done|].
    split; [done|]. split; [by left|done].
Qed.

End UserStartProperties.

(** CREATE USER alice: the name resolves, and there is no password. *)
Lemma resolve_valid_witness :
  resolve (treeOps := Sample.treeOps) (plannerOps := Sample.plannerOps 1 None)
    (cun_userAuthInfo Examples.createUser_alice) = Ok ("alice", None) /\
  usernameRE_MatchString (PlannerOps := Sample.plannerOps 1 None) "alice"
    = true.
Proof.
  split; [reflexivity|].
  destruct (resolve_valid (treeOps := Sample.treeOps)
              (plannerOps := Sample.plannerOps 1 None)
              (cun_userAuthInfo Examples.createUser_alice) "alice" None
              eq_refl) as [(name & _ & _ & _ & Hre & _) _].
  exact Hre.
Defined.

(** CREATE USER with an empty name. *)
Lemma user_Start_unresolved_witness :
  createUserNode_Start (treeOps := Sample.treeOps)
    (plannerOps := Sample.plannerOps 1 None)
    {| cun_ifNotExists := false; cun_rowsAffected := 0;
       cun_userAuthInfo := {| ua_name := Ok ""; ua_password := None |} |}
    Examples.rootPlanner =
  ({| cun_ifNotExists := false; cun_rowsAffected := 0;
      cun_userAuthInfo := {| ua_name := Ok ""; ua_password := None |} |},
   Examples.rootPlanner, Some errNoUserNameSpecified).
Proof.
  apply (user_Start_unresolved (treeOps := Sample.treeOps)
           (plannerOps := Sample.plannerOps 1 None)
           {| ua_name := Ok ""; ua_password := None |}
           errNoUserNameSpecified Examples.rootPlanner eq_refl).
  reflexivity.
Defined.

(** CREATE USER alice where the executor reports one row. *)
Lemma createUserNode_Start_success_witness :
  exists n' p',
    createUserNode_Start (treeOps := Sample.treeOps)
      (plannerOps := Sample.plannerOps 1 None)
      Examples.createUser_alice Examples.rootPlanner = (n', p', None) /\
    resolve (treeOps := Sample.treeOps)
      (plannerOps := Sample.plannerOps 1 None)
      (cun_userAuthInfo Examples.createUser_alice) = Ok ("alice", None).
Proof.
  eexists _, _. split; [reflexivity|].
  destruct (createUserNode_Start_success (treeOps := Sample.treeOps)
              (plannerOps := Sample.plannerOps 1 None)
              Examples.createUser_alice _ Examples.rootPlanner _ eq_refl)
    as (username & hashedPassword & rows & err & Hresolve & _).
  reflexivity.
Defined.

(** CREATE USER alice where the executor reports a duplicate key. *)
Lemma createUserNode_Start_failure_witness :
  exists n' p',
    createUserNode_Start (treeOps := Sample.treeOps)
      (plannerOps := Sample.plannerOps 0 (Some (PgErrorf "23505" "dup" [])))
      Examples.createUser_alice Examples.rootPlanner =
    (n', p', Some (Errorf "user %s already exists" ["alice"])) /\
    n' = cun_with_rowsAffected 0 Examples.createUser_alice.
Proof.
  eexists _, _. split; [reflexivity|].
  destruct (createUserNode_Start_failure (treeOps := Sample.treeOps)
              (plannerOps :=
                 Sample.plannerOps 0 (Some (PgErrorf "23505" "dup" [])))
              Examples.createUser_alice _ Examples.rootPlanner _ _ eq_refl)
    as [(Hr & _) | (username & hashedPassword & rows & err & _ & _ & Hn & _)];
    [discriminate|reflexivity].
Defined.

(** ALTER USER alice WITH PASSWORD where the executor reports one row. *)
Lemma alterUserSetPasswordNode_Start_success_witness :
  exists n' p',
    alterUserSetPasswordNode_Start (treeOps := Sample.treeOps)
      (plannerOps := Sample.plannerOps 1 None)
      Examples.alterUser_alice Examples.rootPlanner = (n', p', None) /\
    n' = aun_with_rowsAffected 1 Examples.alterUser_alice.
Proof.
  eexists _, _. split; [reflexivity|].
  destruct (alterUserSetPasswordNode_Start_success
              (treeOps := Sample.treeOps)
              (plannerOps := Sample.plannerOps 1 None)
              Examples.alterUser_alice _ Examples.rootPlanner _ eq_refl)
    as (username & hashedPassword & rows & _ & _ & _ & Hn).
  reflexivity.
Defined.
(** ** Check constraints over unknown columns *)

Section CheckConstraintFailure.
Context {treeOps : TreeOps} {sqlbaseOps : SqlbaseOps}.

Lemma SimpleVisit_preFn_unresolved (desc : sqlbase.TableDescriptor)
  (d : tree.CheckConstraintTableDef) (generateName : bool)
  (v : tree.UnresolvedName) (e : tree.Expr) :
  v ∈ varNames e ->
  (exists err, NormalizeVarName v = Err err) \/
  (exists t c err, NormalizeVarName v = Ok (tree.ColumnItem t c) /\
     FindActiveColumnByName desc c = Err err) ->
  forall nameBuf, failed (SimpleVisit_preFn desc d generateName e nameBuf).
Proof.
  intros Hin Hbad. revert Hin.
  assert (Hlist : forall es,
    Forall (fun e => v ∈ varNames e ->
              forall nameBuf,
                failed (SimpleVisit_preFn desc d generateName e nameBuf)) es ->
    v ∈ flat_map varNames es ->
    forall nameBuf,
      failed
        ((fix walkList (es : list tree.Expr) (nameBuf : string)
            : result (list tree.Expr * string) :=
            match es with
            | [] => Ok ([], nameBuf)
            | e :: es' =>
                r <- SimpleVisit_preFn desc d generateName e nameBuf ;;
                rs <- walkList es' (snd r) ;;
                Ok (fst r :: fst rs, snd rs)
            end) es nameBuf)).
  { intros es Hall. induction Hall as [|e0 es He Hes IHes]; simpl.
    - intros Hin. by apply elem_of_nil in Hin.
    - intros Hin nameBuf. apply elem_of_app in Hin as [Hin | Hin].
      + destruct (He Hin nameBuf) as [err ->]. by exists err.
      + destruct (SimpleVisit_preFn desc d generateName e0 nameBuf)
          as [r|err]; simpl; [|by exists err].
        destruct (IHes Hin (snd r)) as [err ->]. by exists err. }
  induction e as [e IH|es IH| | |name|v0|label es IH|typ]
    using Expr_nested_ind; simpl; intros Hin nameBuf;
    try (by apply elem_of_nil in Hin).
  - destruct (IH Hin nameBuf) as [err ->]. by exists err.
  - destruct (Hlist es IH Hin nameBuf) as [err ->]. by exists err.
  - apply list_elem_of_singleton in Hin as <-.
    destruct Hbad as [[err Hn] | (t & c & err & Hn & Hf)]; rewrite Hn; simpl;
      [|rewrite Hf; simpl]; by eexists.
  - destruct (Hlist es IH Hin nameBuf) as [err ->]. by exists err.
Qed.

(** X18.  A CHECK expression that names a column the table does not have, at any
    place that the walk of the expression reaches, is rejected, and so is
    one with a name that does not normalize: [makeCheckConstraint] fails
    whatever the name of the constraint and the names in use. *)
Theorem makeCheckConstraint_unknown_column (desc : sqlbase.TableDescriptor)
  (d : tree.CheckConstraintTableDef) (inuseNames : nameSet)
  (v : tree.UnresolvedName) :
  v ∈ varNames (tree.ck_Expr d) ->
  (exists err, NormalizeVarName v = Err err) \/
  (exists t c err, NormalizeVarName v = Ok (tree.ColumnItem t c) /\
     FindActiveColumnByName desc c = Err err) ->
  failed (makeCheckConstraint desc d inuseNames).
Proof.
  intros Hin Hbad. unfold makeCheckConstraint.
  destruct (SimpleVisit_preFn_unresolved desc d (eqs (tree.ck_Name d) "")
              v (tree.ck_Expr d) Hin Hbad
              (if eqs (tree.ck_Name d) "" then "check" else ""))
    as [err ->].
  by exists err.
Qed.

End CheckConstraintFailure.

(** CHECK (c > 0) on the table t (a, b). *)
Lemma makeCheckConstraint_unknown_column_witness :
  failed (makeCheckConstraint (sqlbaseOps := Sample.sqlbaseOps) Examples.t
            {| tree.ck_Name := "";
               tree.ck_Expr :=
                 tree.Node ">" [Examples.var "c"; tree.Node "0" []] |}
            (Some ∅)).
Proof.
  apply (makeCheckConstraint_unknown_column (sqlbaseOps := Sample.sqlbaseOps)
           Examples.t _ (Some ∅) {| tree.NameParts := ["c"] |}).
  - simpl. by left.
  - right. by exists None, "c", (External "column does not exist").
Defined.
(** ** The passes of MakeTableDesc over the indexes *)

Section MakeTableDescProperties.
Context {treeOps : TreeOps} {sqlbaseOps : SqlbaseOps} {catalog : Catalog}
  {encodingOps : EncodingOps}.

Lemma MakeTableDesc_indexes_interleaved (defs : list tree.TableDef)
  (d : tree.TableDef) :
  d ∈ defs ->
  (exists i, d = tree.IndexDef i /\ tree.idx_Interleave i <> None) \/
  (exists u, d = tree.UniqueConstraintDef u /\
     tree.idx_Interleave (tree.uniq_IndexTableDef u) <> None) ->
  forall desc primaryIndexColumnSet,
    failed (MakeTableDesc_indexes desc primaryIndexColumnSet defs).
Proof.
  intros Hin Hd. induction defs as [|d0 defs IH]; intros desc set.
  - by apply elem_of_nil in Hin.
  - apply elem_of_cons in Hin as [<- | Hin].
    + destruct Hd as [(i & -> & Hi) | (u & -> & Hu)]; simpl;
        repeat (apply failed_bind; intros ?);
        destruct (tree.idx_Interleave _); [by eexists|done|by eexists|done].
    + specialize (IH Hin).
      destruct d0 as [c|i|u|c|f|f]; simpl; try apply IH;
        repeat (apply failed_bind; intros ?);
        destruct (tree.idx_Interleave _); try apply IH; by eexists.
Qed.

(** X19.  CREATE TABLE never makes an interleaved secondary index: when an INDEX or
    a UNIQUE or PRIMARY KEY constraint among the definitions carries an
    INTERLEAVE clause, [MakeTableDesc] fails, whatever else the statement
    holds. *)
Theorem MakeTableDesc_interleaved_index_rejected (n : tree.CreateTable)
  (parentID id : sqlbase.ID) (creationTime : Z) (privileges : string)
  (affected : gmap Z sqlbase.TableDescriptor) (sessionDB : string)
  (d : tree.TableDef) :
  d ∈ tree.ct_Defs n ->
  (exists i, d = tree.IndexDef i /\ tree.idx_Interleave i <> None) \/
  (exists u, d = tree.UniqueConstraintDef u /\
     tree.idx_Interleave (tree.uniq_IndexTableDef u) <> None) ->
  failed (MakeTableDesc n parentID id creationTime privileges affected
            sessionDB).
Proof.
  intros Hin Hd. unfold MakeTableDesc.
  apply failed_bind. intros tableName. apply failed_bind. intros desc.
  destruct (MakeTableDesc_indexes_interleaved _ _ Hin Hd desc None)
    as [err ->].
  by exists err.
Qed.

Lemma MakeTableDesc_indexes_primary (defs : list tree.TableDef)
  (desc desc' : sqlbase.TableDescriptor)
  (set0 set : option (gset string)) :
  MakeTableDesc_indexes desc set0 defs = Ok (desc', set) ->
  (set = set0 /\
   forall u, tree.UniqueConstraintDef u ∈ defs ->
     tree.uniq_PrimaryKey u = false) \/
  (exists defs1 u defs2,
     defs = defs1 ++ tree.UniqueConstraintDef u :: defs2 /\
     tree.uniq_PrimaryKey u = true /\
     (forall u', tree.UniqueConstraintDef u' ∈ defs2 ->
        tree.uniq_PrimaryKey u' = false) /\
     set = Some (list_to_set
                   (map tree.Column
                      (tree.idx_Columns (tree.uniq_IndexTableDef u))))).
Proof.
  revert desc set0. induction defs as [|d defs IH]; intros desc set0; simpl.
  - intros [= <- <-]. left. split; [done|]. intros u Hin.
    by apply elem_of_nil in Hin.
  - assert (Hskip : forall desc1,
      (forall u, d <> tree.UniqueConstraintDef u) ->
      MakeTableDesc_indexes desc1 set0 defs = Ok (desc', set) ->
      (set = set0 /\
       forall u, tree.UniqueConstraintDef u ∈ d :: defs ->
         tree.uniq_PrimaryKey u = false) \/
      (exists defs1 u defs2,
         d :: defs = defs1 ++ tree.UniqueConstraintDef u :: defs2 /\
         tree.uniq_PrimaryKey u = true /\
         (forall u', tree.UniqueConstraintDef u' ∈ defs2 ->
            tree.uniq_PrimaryKey u' = false) /\
         set = Some (list_to_set
                       (map tree.Column
                          (tree.idx_Columns (tree.uniq_IndexTableDef u)))))).
    { intros desc1 Hd Hok.
      apply IH in Hok as [[-> Hnone] | (defs1 & u & defs2 & -> & Hrest)].
      - left. split; [done|]. intros u Hin.
        apply elem_of_cons in Hin as [Heq | Hin]; [by destruct (Hd u)|].
        by apply Hnone.
      - right. by exists (d :: defs1), u, defs2. }
    destruct d as [c|i|u|c|f|f]; try (by apply Hskip).
    + intros Hok. apply bind_ok in Hok as (idx & _ & Hok).
      apply bind_ok in Hok as (desc1 & _ & Hok).
      destruct (tree.idx_Interleave i); [discriminate|].
      by apply (Hskip desc1).
    + intros Hok. apply bind_ok in Hok as (idx & _ & Hok).
      apply bind_ok in Hok as (desc1 & _ & Hok).
      destruct (tree.idx_Interleave _); [discriminate|].
      apply IH in Hok as [[-> Hnone] | (defs1 & u' & defs2 & -> & Hrest)].
      * destruct (tree.uniq_PrimaryKey u) eqn:Hpk.
        -- right. by exists [], u, defs.
        -- left. split; [done|]. intros u' Hin.
           apply elem_of_cons in Hin as [[= ->] | Hin]; [done|].
           by apply Hnone.
      * right. by exists (tree.UniqueConstraintDef u :: defs1), u', defs2.
Qed.

(** X20.  The columns that become NOT NULL through a table-level PRIMARY KEY: when
    the pass over the indexes succeeds, the columns made not nullable are
    those named by the last PRIMARY KEY constraint of the statement, and no
    column is touched when there is none; every other field of every column,
    and the order of the columns, stay as they were. *)
Theorem MakeTableDesc_primary_key_not_null (defs : list tree.TableDef)
  (desc desc' : sqlbase.TableDescriptor) (set : option (gset string)) :
  MakeTableDesc_indexes desc None defs = Ok (desc', set) ->
  let desc'' := MakeTableDesc_notNull set desc' in
  ((forall u, tree.UniqueConstraintDef u ∈ defs ->
      tree.uniq_PrimaryKey u = false) /\
   desc'' = desc') \/
  (exists defs1 u defs2,
     defs = defs1 ++ tree.UniqueConstraintDef u :: defs2 /\
     tree.uniq_PrimaryKey u = true /\
     (forall u', tree.UniqueConstraintDef u' ∈ defs2 ->
        tree.uniq_PrimaryKey u' = false) /\
     Forall2 (fun col col' =>
                col' =
                if bool_decide
                     (sqlbase.col_Name col ∈
                      map tree.Column
                        (tree.idx_Columns (tree.uniq_IndexTableDef u)))
                then sqlbase.col_with_Nullable false col else col)
       (sqlbase.Columns desc') (sqlbase.Columns desc'') /\
     desc'' = sqlbase.with_Columns (sqlbase.Columns desc'') desc').
Proof.
  intros Hok desc''. subst desc''.
  apply MakeTableDesc_indexes_primary in Hok
    as [[-> Hnone] | (defs1 & u & defs2 & -> & Hpk & Hlast & ->)].
  - by left.
  - right. exists defs1, u, defs2. split; [done|]. split; [done|].
    split; [done|]. simpl. split; [|done].
    apply Forall2_fmap_r, Forall_Forall2_diag, Forall_forall.
    intros col _.
    unfold compose. do 2 case_bool_decide; set_solver.
Qed.

End MakeTableDescProperties.

(** CREATE TABLE t (a INT, INDEX i (a) INTERLEAVE IN PARENT parent (pid)) *)
Lemma MakeTableDesc_interleaved_index_rejected_witness :
  failed (MakeTableDesc (sqlbaseOps := Sample.sqlbaseOps)
            (catalog := Sample.catalog [Examples.parent])
            (encodingOps := Sample.encodingOps)
            (Examples.createTable "t"
               [tree.ColumnDef (Examples.columnDef "a");
                tree.IndexDef
                  {| tree.idx_Name := "i";
                     tree.idx_Columns :=
                       [{| tree.Column := "a";
                           tree.ie_Direction := tree.DefaultDirection |}];
                     tree.idx_Storing := [];
                     tree.idx_Interleave := Some Examples.interleaveInParent;
                     tree.idx_PartitionBy := None |}])
            50 55 0 "" ∅ "db").
Proof.
  eapply (MakeTableDesc_interleaved_index_rejected
            (sqlbaseOps := Sample.sqlbaseOps)
            (catalog := Sample.catalog [Examples.parent])
            (encodingOps := Sample.encodingOps)).
  - simpl. apply elem_of_cons. right. apply elem_of_cons. by left.
  - left. by eexists.
Defined.

(** PRIMARY KEY (a) on the columns of t: the column a is made not
    nullable and b is left as it is. *)
Lemma MakeTableDesc_primary_key_not_null_witness :
  exists desc' set,
    MakeTableDesc_indexes (sqlbaseOps := Sample.sqlbaseOps)
      (encodingOps := Sample.encodingOps)
      (sqlbase.with_PrimaryIndex sqlbase.IndexDescriptor_zero Examples.t) None
      [tree.UniqueConstraintDef (Examples.primaryKey ["a"])]
      = Ok (desc', set) /\
    sqlbase.col_Nullable <$>
      sqlbase.Columns (MakeTableDesc_notNull set desc') = [false; true].
Proof.
  destruct (MakeTableDesc_indexes (sqlbaseOps := Sample.sqlbaseOps)
      (encodingOps := Sample.encodingOps)
      (sqlbase.with_PrimaryIndex sqlbase.IndexDescriptor_zero Examples.t) None
      [tree.UniqueConstraintDef (Examples.primaryKey ["a"])])
    as [[desc' set]|e] eqn:Hok; [|vm_compute in Hok; discriminate].
  exists desc', set. split; [reflexivity|].
  pose proof (MakeTableDesc_primary_key_not_null _ _ _ _ Hok) as Hpk.
  vm_compute in Hok. injection Hok as <- <-.
  destruct Hpk as [[Hnone _] | _]; [|reflexivity].
  discriminate (Hnone (Examples.primaryKey ["a"]) ltac:(by left)).
Defined.
(** ** The errors of CREATE DATABASE *)

Section CreateDatabaseErrors.
Context {plannerOps : PlannerOps}.

(** X21.  [CreateDatabase] reports the first check that fails, in the order name,
    template, encoding, collation, character classification, privilege: the
    privilege of the caller is looked at last, so a caller who is not the
    superuser is told of an unsupported option, and the privilege error is
    returned only for a statement that is otherwise accepted. *)
Theorem CreateDatabase_first_error (p : planner) (n : tree.CreateDatabase) :
  (tree.cd_Name n = "" -> CreateDatabase p n = Err errEmptyDatabaseName) /\
  (tree.cd_Name n <> "" ->
   (~ templateAccepted (tree.cd_Template n) ->
    CreateDatabase p n =
      Err (Errorf "unsupported template: %s" [tree.cd_Template n])) /\
   (templateAccepted (tree.cd_Template n) ->
    (~ encodingAccepted (tree.cd_Encoding n) ->
     CreateDatabase p n =
       Err (Errorf "unsupported encoding: %s" [tree.cd_Encoding n])) /\
    (encodingAccepted (tree.cd_Encoding n) ->
     (~ localeAccepted (tree.cd_Collate n) ->
      CreateDatabase p n =
        Err (Errorf "unsupported collation: %s" [tree.cd_Collate n])) /\
     (localeAccepted (tree.cd_Collate n) ->
      (~ localeAccepted (tree.cd_CType n) ->
       CreateDatabase p n =
         Err (Errorf "unsupported character classification: %s"
                [tree.cd_CType n])) /\
      (localeAccepted (tree.cd_CType n) ->
       forall e, RequireSuperUser p "CREATE DATABASE" = Some e ->
         CreateDatabase p n = Err e))))).
Proof.
  unfold CreateDatabase.
  rewrite <- templateAccepted_dec, <- encodingAccepted_dec,
    <- !localeAccepted_dec.
  split.
  - intros ->. by rewrite eqs_refl.
  - intros Hname. rewrite (proj2 (eqs_false _ _) Hname).
    destruct (negb (eqs (tree.cd_Template n) "") && _); simpl;
      (split; [done|]); [done|intros _].
    destruct (negb (eqs (tree.cd_Encoding n) "") && _); simpl;
      (split; [done|]); [done|intros _].
    destruct (negb (eqs (tree.cd_Collate n) "") && _); simpl;
      (split; [done|]); [done|intros _].
    destruct (negb (eqs (tree.cd_CType n) "") && _); simpl;
      (split; [done|]); [done|intros _].
    by intros e ->.
Qed.

End CreateDatabaseErrors.

(** CREATE DATABASE db1 ENCODING = LATIN1 by a user who is not root. *)
Lemma CreateDatabase_first_error_witness :
  CreateDatabase (plannerOps := Sample.plannerOps 0 None)
    {| p_session := {| User := "alice"; Database := "db" |};
       p_effects := [] |}
    (Examples.createDatabase_db1 "LATIN1") =
  Err (Errorf "unsupported encoding: %s" ["LATIN1"]).
Proof.
  destruct (CreateDatabase_first_error
              (plannerOps := Sample.plannerOps 0 None)
              {| p_session := {| User := "alice"; Database := "db" |};
                 p_effects := [] |}
              (Examples.createDatabase_db1 "LATIN1")) as [_ Hnamed].
  destruct (Hnamed ltac:(discriminate)) as [_ Htemplate].
  destruct (Htemplate ltac:(by left)) as [Hencoding _].
  apply Hencoding.
  intros [H|[H|[H|H]]]; vm_compute in H; discriminate.
Defined.
(** ** The tables affected by the foreign keys of a statement *)

Lemma indexBackrefsAdded_refl (i : sqlbase.IndexDescriptor) :
  indexBackrefsAdded i i.
Proof. split; [by destruct i|done]. Qed.

Lemma indexBackrefsAdded_trans (i1 i2 i3 : sqlbase.IndexDescriptor) :
  indexBackrefsAdded i1 i2 -> indexBackrefsAdded i2 i3 ->
  indexBackrefsAdded i1 i3.
Proof.
  intros [H12 Hp12] [H23 Hp23]. split; [|by etrans].
  rewrite <- H12 at 2. rewrite <- H23. by destruct i3.
Qed.

Lemma indexBackrefsAdded_append (i : sqlbase.IndexDescriptor)
  (backref : sqlbase.ForeignKeyReference) :
  indexBackrefsAdded i
    (sqlbase.idx_with_ReferencedBy (sqlbase.idx_ReferencedBy i ++ [backref])
       i).
Proof. split; [by destruct i|by apply prefix_app_r]. Qed.

Lemma backrefsAdded_refl (t : sqlbase.TableDescriptor) : backrefsAdded t t.
Proof.
  split; [by destruct t|]. split; [apply indexBackrefsAdded_refl|].
  apply Forall_Forall2_diag, Forall_forall. intros i _.
  apply indexBackrefsAdded_refl.
Qed.

Lemma backrefsAdded_trans (t1 t2 t3 : sqlbase.TableDescriptor) :
  backrefsAdded t1 t2 -> backrefsAdded t2 t3 -> backrefsAdded t1 t3.
Proof.
  intros (H12 & Hp12 & Hi12) (H23 & Hp23 & Hi23). split; [|split].
  - rewrite <- H12 at 3. rewrite <- H23. by destruct t3.
  - by eapply indexBackrefsAdded_trans.
  - eapply Forall2_trans; [|exact Hi12|exact Hi23].
    apply indexBackrefsAdded_trans.
Qed.

Lemma backrefsAdded_updateIndex (t : sqlbase.TableDescriptor)
  (ptr : indexPtr) (backref : sqlbase.ForeignKeyReference) :
  backrefsAdded t
    (updateIndex
       (fun idx => sqlbase.idx_with_ReferencedBy
                     (sqlbase.idx_ReferencedBy idx ++ [backref]) idx)
       ptr t).
Proof.
  destruct ptr as [|i]; simpl.
  - split; [by destruct t|]. split; [apply indexBackrefsAdded_append|].
    apply Forall_Forall2_diag, Forall_forall. intros i _.
    apply indexBackrefsAdded_refl.
  - split; [by destruct t|]. split; [apply indexBackrefsAdded_refl|].
    simpl. generalize (sqlbase.Indexes t). intros idxs. revert i.
    induction idxs as [|idx idxs IH]; intros [|i]; simpl; constructor;
      try apply indexBackrefsAdded_refl;
      try apply indexBackrefsAdded_append; try apply IH.
    apply Forall_Forall2_diag, Forall_forall. intros i _.
    apply indexBackrefsAdded_refl.
Qed.

Section AffectedTables.
Context {treeOps : TreeOps} {sqlbaseOps : SqlbaseOps} {catalog : Catalog}
  {encodingOps : EncodingOps}.

Lemma resolveFK_backrefs_monotone (tbl : sqlbase.TableDescriptor)
  (d : tree.ForeignKeyConstraintTableDef)
  (backrefs : gmap Z sqlbase.TableDescriptor)
  (mode : sqlbase.ConstraintValidity) (r : fkResolution) :
  resolveFK tbl d backrefs mode = Ok r ->
  forall id t, backrefs !! id = Some t ->
    exists t', fr_backrefs r !! id = Some t' /\ backrefsAdded t t'.
Proof.
  intros Hr id t Hlook.
  apply resolveFK_ok_inv_full in Hr
    as (c & idx & tbl' & Hc & _ & _ & _ & _ & _ & _ & _ & Hout).
  apply resolveFK_columns_inv in Hc as (_ & Hres & _).
  apply resolveFK_target_inv in Hres.
  destruct (fc_target c) as [|id0].
  - destruct Hout as [_ ->]. rewrite Hres. exists t.
    split; [done|apply backrefsAdded_refl].
  - destruct Hout as [_ ->].
    destruct Hres as (_ & Hframe & target & Htarget & Hfrom).
    unfold sqlbase.ID in *.
    destruct (decide (id = id0)) as [->|Hne].
    + assert (target = t) as ->.
      { destruct Hfrom as [H|[H _]]; rewrite Hlook in H;
          [by injection H|discriminate]. }
      rewrite lookup_alter_eq, Htarget. simpl. eexists. split; [done|].
      apply backrefsAdded_updateIndex.
    + rewrite lookup_alter_ne, Hframe by done. exists t.
      split; [done|apply backrefsAdded_refl].
Qed.

(** X22.  The fourth pass of [MakeTableDesc] never drops a table from the map of
    affected tables, and what it does to a table that is in the map is to
    add back-references to its indexes: every other field of the table and
    of its indexes is as before, and the back-references that were there
    are kept, in front. *)
Theorem MakeTableDesc_constraints_affected
  (desc desc' : sqlbase.TableDescriptor)
  (affected affected' : gmap Z sqlbase.TableDescriptor)
  (generatedNames : gset string) (defs : list tree.TableDef) :
  MakeTableDesc_constraints desc affected generatedNames defs
    = Ok (desc', affected') ->
  forall id t, affected !! id = Some t ->
    exists t', affected' !! id = Some t' /\ backrefsAdded t t'.
Proof.
  revert desc affected generatedNames.
  induction defs as [|d defs IH]; intros desc affected generatedNames; simpl.
  - intros [= <- <-] id t Hlook. exists t.
    split; [done|apply backrefsAdded_refl].
  - destruct d as [c|i|u|c|fk|f]; try apply IH.
    + intros Hok. apply bind_ok in Hok as ([ck names] & _ & Hok).
      exact (IH _ _ _ Hok).
    + intros Hok id t Hlook. apply bind_ok in Hok as (r & Hr & Hok).
      destruct (resolveFK_backrefs_monotone _ _ _ _ _ Hr id t Hlook)
        as (t1 & Hlook1 & Hadded1).
      destruct (IH _ _ _ Hok id t1 Hlook1) as (t2 & Hlook2 & Hadded2).
      exists t2. split; [done|]. by eapply backrefsAdded_trans.
Qed.

End AffectedTables.

(** FOREIGN KEY (b) REFERENCES p (x) on the table t, where p is in the map
    of affected tables already. *)
Lemma MakeTableDesc_constraints_affected_witness :
  exists desc' affected' t',
    MakeTableDesc_constraints (sqlbaseOps := Sample.sqlbaseOps)
      (catalog := Sample.catalog [Examples.p]) Examples.t
      {[51 := Examples.p]} ∅
      [tree.ForeignKeyConstraintDef (Examples.foreignKey ["b"] "p" ["x"])]
      = Ok (desc', affected') /\
    affected' !! 51 = Some t' /\ backrefsAdded Examples.p t'.
Proof.
  destruct (MakeTableDesc_constraints (sqlbaseOps := Sample.sqlbaseOps)
      (catalog := Sample.catalog [Examples.p]) Examples.t
      {[51 := Examples.p]} ∅
      [tree.ForeignKeyConstraintDef (Examples.foreignKey ["b"] "p" ["x"])])
    as [[desc' affected']|e] eqn:Hok; [|vm_compute in Hok; discriminate].
  destruct (MakeTableDesc_constraints_affected
              (sqlbaseOps := Sample.sqlbaseOps)
              (catalog := Sample.catalog [Examples.p])
              _ _ _ _ _ _ Hok 51 Examples.p eq_refl) as (t' & Hlook & Hadded).
  by exists desc', affected', t'.
Defined.
(** ** The column list of an error message *)

Lemma concat_colNames_loop (sep : string) (c : sqlbase.ColumnDescriptor)
  (cols : list sqlbase.ColumnDescriptor) :
  sep = dquote +:+ ", " +:+ dquote ->
  String.concat sep (map sqlbase.col_Name (c :: cols)) =
  sqlbase.col_Name c +:+ colNames_loop false cols.
Proof.
  intros ->. revert c. induction cols as [|c' cols IH]; intros c.
  - simpl. by rewrite append_nil_r.
  - change (String.concat (dquote +:+ ", " +:+ dquote)
              (map sqlbase.col_Name (c :: c' :: cols)))
      with (sqlbase.col_Name c +:+ (dquote +:+ ", " +:+ dquote) +:+
            String.concat (dquote +:+ ", " +:+ dquote)
              (map sqlbase.col_Name (c' :: cols))).
    by rewrite IH.
Qed.

(** X23.  [colNames] writes the names of the columns between double quotes,
    separated by a comma and a space, within parentheses; for no column at
    all it writes one empty pair of quotes. *)
Theorem colNames_concat (cols : list sqlbase.ColumnDescriptor) :
  colNames cols =
  "(" +:+ dquote +:+
  String.concat (dquote +:+ ", " +:+ dquote) (map sqlbase.col_Name cols) +:+
  dquote +:+ ")".
Proof.
  unfold colNames. destruct cols as [|c cols]; [done|].
  by rewrite (concat_colNames_loop _ c cols eq_refl).
Qed.
